(** * ollama-js transport core: [src/utils.ts]

    A shallow embedding of the host resolver ([formatHost]), the response
    validator ([checkOk]), the request dispatcher ([get], [head], [post],
    [del] over [fetchWithHeaders]) and the NDJSON stream decoder
    ([parseJSON]), with the properties the specification states about them.

    The functions of [utils.ts] call into the JavaScript platform
    ([new URL], [TextDecoder], [JSON.parse], [JSON.stringify], the [fetch]
    passed by the caller).  The embedding keeps every function of the source
    parametric in the platform function it calls, and supplies executable
    models of the platform ([Whatwg.URL_new], [Utf8.decode],
    [Json.stringify]) to evaluate the functions on concrete inputs. *)

From stdpp Require Import base option list gmap strings.
From Stdlib Require Import String Ascii NArith ZArith Lia DecimalString DecimalPos DecimalN.

Open Scope string_scope.

(** ** JavaScript strings

    Strings of the resolver are byte strings; a JavaScript string is
    represented by its UTF-8 encoding, so an ASCII string is itself. *)

Module JsString.

(** [s.includes(sub)] *)
Fixpoint includes (s sub : string) : bool :=
  String.prefix sub s ||
  match s with
  | EmptyString => false
  | String _ s' => includes s' sub
  end.

(** [s.startsWith(p)] *)
Definition startsWith (s p : string) : bool := String.prefix p s.

(** [s.endsWith(suf)] *)
Fixpoint endsWith (s suf : string) : bool :=
  String.eqb s suf ||
  match s with
  | EmptyString => false
  | String _ s' => endsWith s' suf
  end.

(** [s.slice(0, -1)]: everything but the last character. *)
Fixpoint slice_0_neg1 (s : string) : string :=
  match s with
  | EmptyString => EmptyString
  | String _ EmptyString => EmptyString
  | String c s' => String c (slice_0_neg1 s')
  end.

(** [!s] for a string: only the empty string is falsy. *)
Definition falsy (s : string) : bool := String.eqb s "".

(** [String(n)] for an integral number. *)
Definition of_Z (n : Z) : string := NilZero.string_of_int (Z.to_int n).

End JsString.

(** ** The platform's [URL] objects

    The getters [formatHost] and its callers can read. *)

Record URL : Type := mkURL {
  protocol : string;
  username : string;
  password : string;
  hostname : string;
  port : string;
  pathname : string;
  search : string;
  hash : string
}.

(** ** A model of the platform's URL parser

    [Whatwg.URL_new] follows the basic URL parser of the WHATWG URL
    standard, called as [new URL(input)] calls it: no base URL, no state
    override, [None] where the constructor throws a [TypeError].  The model
    covers http-like ("special") and other non-file schemes, credentials,
    domain and IPv4 hosts, ports with default-port elision, path segments
    with dot-segment removal, queries and fragments, with the standard's
    percent-encode sets.  Outside the model (and answered [None] as well):
    the [file] scheme, IPv6 literals, and hosts that are not ASCII after
    percent-decoding or have an [xn--] label, which need IDNA processing. *)

Module Whatwg.

Definition code (c : ascii) : nat := nat_of_ascii c.

Definition in_range (lo hi : nat) (c : ascii) : bool :=
  (lo <=? code c)%nat && (code c <=? hi)%nat.

Definition is_code (n : nat) (c : ascii) : bool := (code c =? n)%nat.

Definition one_of (codes : list nat) (c : ascii) : bool :=
  existsb (fun n => is_code n c) codes.

Definition is_digit : ascii -> bool := in_range 48 57.
Definition is_upper : ascii -> bool := in_range 65 90.
Definition is_lower : ascii -> bool := in_range 97 122.
Definition is_alpha (c : ascii) : bool := is_upper c || is_lower c.
Definition is_alnum (c : ascii) : bool := is_alpha c || is_digit c.
Definition is_hex (c : ascii) : bool :=
  is_digit c || in_range 65 70 c || in_range 97 102 c.

Definition to_lower (c : ascii) : ascii :=
  if is_upper c then ascii_of_nat (code c + 32) else c.

Fixpoint lowercase (s : string) : string :=
  match s with
  | EmptyString => EmptyString
  | String c s' => String (to_lower c) (lowercase s')
  end.

Fixpoint forallb_string (p : ascii -> bool) (s : string) : bool :=
  match s with
  | EmptyString => true
  | String c s' => p c && forallb_string p s'
  end.

Fixpoint existsb_string (p : ascii -> bool) (s : string) : bool :=
  match s with
  | EmptyString => false
  | String c s' => p c || existsb_string p s'
  end.

Fixpoint filter_string (p : ascii -> bool) (s : string) : string :=
  match s with
  | EmptyString => EmptyString
  | String c s' => if p c then String c (filter_string p s') else filter_string p s'
  end.

(** [break p s]: the longest prefix of [s] free of [p], and the rest, which
    starts at the first character satisfying [p]. *)
Fixpoint break (p : ascii -> bool) (s : string) : string * string :=
  match s with
  | EmptyString => (EmptyString, EmptyString)
  | String c r =>
      if p c then (EmptyString, s)
      else let '(a, b) := break p r in (String c a, b)
  end.

(** Split at the last character satisfying [p]. *)
Fixpoint split_last (p : ascii -> bool) (s : string) : option (string * string) :=
  match s with
  | EmptyString => None
  | String c r =>
      match split_last p r with
      | Some (a, b) => Some (String c a, b)
      | None => if p c then Some (EmptyString, r) else None
      end
  end.

(** Split on every character satisfying [p]; never empty. *)
Fixpoint split_on (p : ascii -> bool) (s : string) : list string :=
  match s with
  | EmptyString => [EmptyString]
  | String c r =>
      if p c then EmptyString :: split_on p r
      else match split_on p r with
           | x :: xs => String c x :: xs
           | [] => [String c EmptyString]
           end
  end.

(** *** Percent-encoding *)

Definition hex_digit (n : nat) : ascii :=
  match String.get n "0123456789ABCDEF" with
  | Some c => c
  | None => "0"%char
  end.

Definition percent_encode_byte (c : ascii) : string :=
  String "%" (String (hex_digit (code c / 16)) (String (hex_digit (code c mod 16)) "")).

Definition c0_control_set (c : ascii) : bool :=
  (code c <=? 31)%nat || (126 <? code c)%nat.
Definition fragment_set (c : ascii) : bool :=
  c0_control_set c || one_of [32; 34; 60; 62; 96] c.
Definition query_set (c : ascii) : bool :=
  c0_control_set c || one_of [32; 34; 35; 60; 62] c.
Definition special_query_set (c : ascii) : bool :=
  query_set c || is_code 39 c.
Definition path_set (c : ascii) : bool :=
  query_set c || one_of [63; 94; 96; 123; 125] c.
Definition userinfo_set (c : ascii) : bool :=
  path_set c || one_of [47; 58; 59; 61; 64; 91; 92; 93; 124] c.

Definition encode_char (set : ascii -> bool) (c : ascii) : string :=
  if set c then percent_encode_byte c else String c "".

Fixpoint percent_encode (set : ascii -> bool) (s : string) : string :=
  match s with
  | EmptyString => EmptyString
  | String c s' => encode_char set c ++ percent_encode set s'
  end.

Definition hex_value (c : ascii) : nat :=
  if is_digit c then code c - 48
  else if in_range 65 70 c then code c - 55
  else code c - 87.

(** percent-decode: [%] and two hexadecimal digits give a byte, every
    other character stands for itself. *)
Fixpoint percent_decode (s : string) : string :=
  match s with
  | EmptyString => EmptyString
  | String c r =>
      if is_code 37 c then
        match r with
        | String a (String b r') =>
            if is_hex a && is_hex b
            then String (ascii_of_nat (16 * hex_value a + hex_value b)) (percent_decode r')
            else String c (percent_decode r)
        | _ => String c (percent_decode r)
        end
      else String c (percent_decode r)
  end.

(** *** Schemes *)

Definition default_port (scheme : string) : option N :=
  if String.eqb scheme "ftp" then Some 21%N
  else if String.eqb scheme "http" then Some 80%N
  else if String.eqb scheme "https" then Some 443%N
  else if String.eqb scheme "ws" then Some 80%N
  else if String.eqb scheme "wss" then Some 443%N
  else None.

Definition is_special (scheme : string) : bool :=
  String.eqb scheme "file" || bool_decide (is_Some (default_port scheme)).

(** scheme state: characters up to the first [:], lower-cased; the rest
    follows the [:].  Without a base URL every other outcome is a failure. *)
Fixpoint scheme_state (s : string) : option (string * string) :=
  match s with
  | EmptyString => None
  | String c r =>
      if is_alnum c || one_of [43; 45; 46] c then
        match scheme_state r with
        | Some (sch, rest) => Some (String (to_lower c) sch, rest)
        | None => None
        end
      else if is_code 58 c then Some (EmptyString, r)
      else None
  end.

(** scheme start state *)
Definition scheme_start_state (s : string) : option (string * string) :=
  match s with
  | String c _ => if is_alpha c then scheme_state s else None
  | EmptyString => None
  end.

(** *** Hosts *)

Definition forbidden_host (c : ascii) : bool :=
  one_of [0; 9; 10; 13; 32; 35; 47; 58; 60; 62; 63; 64; 91; 92; 93; 94; 124] c.

Definition forbidden_domain (c : ascii) : bool :=
  forbidden_host c || (code c <=? 31)%nat || is_code 37 c || is_code 127 c.

Fixpoint digits_value (radix : N) (s : string) (acc : N) : N :=
  match s with
  | EmptyString => acc
  | String c r => digits_value radix r (acc * radix + N.of_nat (hex_value c))%N
  end.

Definition is_octal : ascii -> bool := in_range 48 55.

(** IPv4 number parser: hexadecimal after [0x], octal after a leading [0],
    decimal otherwise. *)
Definition ipv4_number (s : string) : option N :=
  match s with
  | EmptyString => None
  | String "0"%char (String x r) =>
      if one_of [120; 88] x
      then if forallb_string is_hex r then Some (digits_value 16 r 0) else None
      else if forallb_string is_octal (String x r)
           then Some (digits_value 8 (String x r) 0) else None
  | _ => if forallb_string is_digit s then Some (digits_value 10 s 0) else None
  end.

Definition is_dot : ascii -> bool := is_code 46.

(** The host split on [.], with one final empty part removed. *)
Definition ipv4_parts (s : string) : list string :=
  let parts := split_on is_dot s in
  match List.last parts "x" with
  | EmptyString => if (1 <? List.length parts)%nat then removelast parts else parts
  | _ => parts
  end.

(** ends-in-a-number checker *)
Definition ends_in_number (s : string) : bool :=
  let parts := split_on is_dot s in
  let numeric l :=
    (negb (String.eqb l "") && forallb_string is_digit l)
    || bool_decide (is_Some (ipv4_number l)) in
  match List.last parts "x" with
  | EmptyString =>
      if (List.length parts =? 1)%nat then false
      else numeric (List.last (removelast parts) "")
  | l => numeric l
  end.

(** IPv4 parser *)
Definition ipv4_parse (s : string) : option N :=
  let parts := ipv4_parts s in
  if (4 <? List.length parts)%nat then None
  else
    match mapM ipv4_number parts with
    | None => None
    | Some numbers =>
        let final := List.last numbers 0%N in
        let front := removelast numbers in
        if existsb (fun n => 255 <? n)%N front then None
        else if (256 ^ (5 - N.of_nat (List.length numbers)) <=? final)%N then None
        else
          Some (final + snd (fold_left
                  (fun '(counter, acc) n => (counter + 1, acc + n * 256 ^ (3 - counter)))%N
                  front (0, 0)%N))%N
    end.

Definition N_to_string (n : N) : string := NilZero.string_of_uint (N.to_uint n).

(** IPv4 serializer *)
Definition ipv4_serialize (n : N) : string :=
  N_to_string (n / 256 ^ 3) ++ "." ++
  N_to_string (n / 256 ^ 2 mod 256) ++ "." ++
  N_to_string (n / 256 mod 256) ++ "." ++
  N_to_string (n mod 256).

(** A host in brackets is an IPv6 literal. *)
Definition starts_with_bracket (s : string) : bool :=
  match s with
  | String c _ => is_code 91 c
  | EmptyString => false
  end.

(** host parser for a special scheme: percent-decode, lower-case (which is
    what domain to ASCII does to an ASCII domain without [xn--] label),
    reject forbidden domain code points, and read a host that ends in a
    number as an IPv4 address. *)
Definition host_parse_special (input : string) : option string :=
  if starts_with_bracket input then None
  else
    let domain := percent_decode input in
    if existsb_string (fun c => 127 <? code c)%nat domain then None
    else
      let ascii_domain := lowercase domain in
      if existsb (String.prefix "xn--") (split_on is_dot ascii_domain) then None
      else if String.eqb ascii_domain "" then None
      else if existsb_string forbidden_domain ascii_domain then None
      else if ends_in_number ascii_domain
           then ipv4_serialize <$> ipv4_parse ascii_domain
           else Some ascii_domain.

(** opaque-host parser, for the other schemes *)
Definition host_parse_opaque (input : string) : option string :=
  if starts_with_bracket input then None
  else if existsb_string forbidden_host input then None
  else Some (percent_encode c0_control_set input).

Definition host_parse (special : bool) (input : string) : option string :=
  if special then host_parse_special input else host_parse_opaque input.

(** *** Paths *)

Definition is_single_dot (buf : string) : bool :=
  let b := lowercase buf in String.eqb b "." || String.eqb b "%2e".

Definition is_double_dot (buf : string) : bool :=
  let b := lowercase buf in
  String.eqb b ".." || String.eqb b ".%2e" || String.eqb b "%2e." || String.eqb b "%2e%2e".

(** What the path state does with the buffer at the end of a segment;
    [slash] tells whether the segment ended at a slash. *)
Definition end_segment (path : list string) (buf : string) (slash : bool) : list string :=
  if is_double_dot buf then
    let shortened := removelast path in
    if slash then shortened else shortened ++ [EmptyString]
  else if is_single_dot buf then
    if slash then path else path ++ [EmptyString]
  else path ++ [buf].

Definition is_slash (special : bool) (c : ascii) : bool :=
  is_code 47 c || (special && is_code 92 c).

Definition is_query_or_fragment (c : ascii) : bool := one_of [63; 35] c.

(** path state: the segments, and the rest from the first [?] or [#]. *)
Fixpoint path_state (special : bool) (path : list string) (buf : string) (s : string)
  : list string * string :=
  match s with
  | EmptyString => (end_segment path buf false, EmptyString)
  | String c r =>
      if is_slash special c then path_state special (end_segment path buf true) "" r
      else if is_query_or_fragment c then (end_segment path buf false, s)
      else path_state special path (buf ++ encode_char path_set c) r
  end.

Inductive url_path : Type :=
| Opaque (s : string)
| Segments (l : list string).

Fixpoint serialize_segments (l : list string) : string :=
  match l with
  | [] => EmptyString
  | x :: xs => "/" ++ x ++ serialize_segments xs
  end.

Definition serialize_path (p : url_path) : string :=
  match p with
  | Opaque s => s
  | Segments l => serialize_segments l
  end.

(** query state and fragment state on the rest left by the path. *)
Definition query_fragment (special : bool) (rest : string)
  : option string * option string :=
  let fragment_of (s : string) :=
    match s with
    | String "#"%char f => Some (percent_encode fragment_set f)
    | _ => None
    end in
  match rest with
  | String "?"%char r =>
      let '(q, r') := break (is_code 35) r in
      (Some (percent_encode (if special then special_query_set else query_set) q),
       fragment_of r')
  | _ => (None, fragment_of rest)
  end.

(** *** The URL record and the parser *)

Record url_record : Type := {
  url_scheme : string;
  url_username : string;
  url_password : string;
  url_host : option string;
  url_port : option N;
  url_path_of : url_path;
  url_query : option string;
  url_fragment : option string
}.

Definition is_c0_or_space (c : ascii) : bool := (code c <=? 32)%nat.
Definition is_tab_or_newline : ascii -> bool := one_of [9; 10; 13].

Fixpoint strip_leading (s : string) : string :=
  match s with
  | String c r => if is_c0_or_space c then strip_leading r else s
  | EmptyString => EmptyString
  end.

Fixpoint strip_trailing (s : string) : string :=
  match s with
  | EmptyString => EmptyString
  | String c r =>
      let r' := strip_trailing r in
      if is_c0_or_space c && String.eqb r' "" then EmptyString else String c r'
  end.

Definition authority_end (special : bool) (c : ascii) : bool :=
  one_of [47; 63; 35] c || (special && is_code 92 c).

(** host state over the text between the credentials and the end of the
    authority: the host buffer, and the port text when a [:] outside
    brackets ends the host. *)
Fixpoint host_state (inside : bool) (s : string) : string * option string :=
  match s with
  | EmptyString => (EmptyString, None)
  | String c r =>
      if is_code 58 c && negb inside then (EmptyString, Some r)
      else
        let inside' := if is_code 91 c then true
                       else if is_code 93 c then false else inside in
        let '(h, p) := host_state inside' r in (String c h, p)
  end.

(** port state: [Some None] is a null port (none given, or the scheme's
    default), [None] a failure. *)
Definition port_state (scheme : string) (buf : string) : option (option N) :=
  if negb (forallb_string is_digit buf) then None
  else if String.eqb buf "" then Some None
  else
    let p := digits_value 10 buf 0 in
    if (65535 <? p)%N then None
    else if bool_decide (default_port scheme = Some p) then Some None
    else Some (Some p).

(** authority state, host state, port state, path start state and the
    states after it, from the character that follows the authority's [//]. *)
Definition authority_state (scheme : string) (s : string) : option url_record :=
  let special := is_special scheme in
  let '(authority, rest) := break (authority_end special) s in
  let credentials_hostport :=
    match split_last (is_code 64) authority with
    | Some (userinfo, hostport) =>
        if String.eqb hostport "" then None
        else
          let '(user, pass) := break (is_code 58) userinfo in
          Some (percent_encode userinfo_set user,
                percent_encode userinfo_set
                  (match pass with String _ p => p | EmptyString => EmptyString end),
                hostport)
    | None => Some (EmptyString, EmptyString, authority)
    end in
  '(user, pass, hostport) ← credentials_hostport;
  let '(hostbuf, porttext) := host_state false hostport in
  if String.eqb hostbuf "" && (special || bool_decide (is_Some porttext)) then None
  else
    host ← host_parse special hostbuf;
    port ← match porttext with
           | Some t => port_state scheme t
           | None => Some None
           end;
    let '(segments, rest') :=
      match rest with
      | EmptyString => if special then path_state special [] "" rest else ([], rest)
      | String c r =>
          if is_slash special c then path_state special [] "" r
          else if special then path_state special [] "" rest
          else ([], rest)
      end in
    let '(query, fragment) := query_fragment special rest' in
    Some {| url_scheme := scheme; url_username := user; url_password := pass;
            url_host := Some host; url_port := port;
            url_path_of := Segments segments;
            url_query := query; url_fragment := fragment |}.

Fixpoint skip_slashes (s : string) : string :=
  match s with
  | String c r => if one_of [47; 92] c then skip_slashes r else s
  | EmptyString => EmptyString
  end.

(** basic URL parser without base URL *)
Definition basic_url_parse (input : string) : option url_record :=
  let s := filter_string (fun c => negb (is_tab_or_newline c))
             (strip_trailing (strip_leading input)) in
  '(scheme, rest) ← scheme_start_state s;
  if String.eqb scheme "file" then None
  else if is_special scheme then authority_state scheme (skip_slashes rest)
  else
    match rest with
    | String "/"%char (String "/"%char r) => authority_state scheme r
    | String "/"%char r =>
        let '(segments, rest') := path_state false [] "" r in
        let '(query, fragment) := query_fragment false rest' in
        Some {| url_scheme := scheme; url_username := ""; url_password := "";
                url_host := None; url_port := None;
                url_path_of := Segments segments;
                url_query := query; url_fragment := fragment |}
    | _ =>
        let '(opaque, rest') := break is_query_or_fragment rest in
        let '(query, fragment) := query_fragment false rest' in
        Some {| url_scheme := scheme; url_username := ""; url_password := "";
                url_host := None; url_port := None;
                url_path_of := Opaque (percent_encode c0_control_set opaque);
                url_query := query; url_fragment := fragment |}
    end.

(** The getters of the URL object over a parsed record. *)
Definition getters (u : url_record) : URL :=
  {| protocol := url_scheme u ++ ":";
     username := url_username u;
     password := url_password u;
     hostname := default "" (url_host u);
     port := from_option N_to_string "" (url_port u);
     pathname := serialize_path (url_path_of u);
     search := match url_query u with
               | Some (String c q) => "?" ++ String c q
               | _ => ""
               end;
     hash := match url_fragment u with
             | Some (String c f) => "#" ++ String c f
             | _ => ""
             end |}.

(** [new URL(input)] *)
Definition URL_new (input : string) : option URL :=
  getters <$> basic_url_parse input.

End Whatwg.

(** ** Constants of [./constants] *)

Module PORTS.
(** Modelled from the spec: [./constants] is not among the sources; section
    4.1 gives the default port of a caller-specified [http] scheme, "80 for
    http". *)
Definition HTTP : string := "80".
(** Modelled from the spec: [./constants] is not among the sources; section
    4.1 gives the default port of a caller-specified [https] scheme, "443
    for https". *)
Definition HTTPS : string := "443".
End PORTS.

Module PROTOCOLS.
(** Modelled from the spec: [./constants] is not among the sources; the
    scheme that section 4.1 pairs with port 443. *)
Definition HTTPS : string := "https".
End PROTOCOLS.

(** The diagnostics of [MESSAGES]: their texts are in [./constants], so a
    logged message is identified by its name. *)
Module MESSAGES.
Inductive t : Set := ERROR_JSON_PARSE | FETCHING_TEXT | ERROR_FETCHING_TEXT.
End MESSAGES.

(** ** HostResolver: [formatHost] *)

Section HostResolver.

(** [new URL(host)], [None] when it throws. *)
Variable new_URL : string -> option URL.

(** [OLLAMA_LOCAL_URL] of [./constants], the "fixed default local endpoint";
    the specification does not give its value. *)
Variable OLLAMA_LOCAL_URL : string.

(** [formatHost(host)]; [None] when [new URL] throws. *)
Definition formatHost (host : string) : option string :=
  if JsString.falsy host then Some OLLAMA_LOCAL_URL
  else
    let isExplicitProtocol := JsString.includes host "://" in
    let '(host, isExplicitProtocol) :=
      if JsString.startsWith host ":"
      then ("http://127.0.0.1" ++ host, false)
      else (host, isExplicitProtocol) in
    let host := if negb isExplicitProtocol then "http://" ++ host else host in
    url ← new_URL host;
    let port := port url in
    let port :=
      if JsString.falsy port then
        if negb isExplicitProtocol then "11434"
        else if String.eqb (protocol url) (PROTOCOLS.HTTPS ++ ":")
             then PORTS.HTTPS else PORTS.HTTP
      else port in
    let formattedHost :=
      protocol url ++ "//" ++ hostname url ++ ":" ++ port ++ pathname url in
    let formattedHost :=
      if JsString.endsWith formattedHost "/"
      then JsString.slice_0_neg1 formattedHost
      else formattedHost in
    Some formattedHost.

(** The stages of [formatHost], named for the statements below:
    the value of [isExplicitProtocol] when [new URL] is reached, *)
Definition isExplicitProtocol (host : string) : bool :=
  JsString.includes host "://" && negb (JsString.startsWith host ":").

(** the string handed to [new URL], *)
Definition url_input (host : string) : string :=
  let host' := if JsString.startsWith host ":" then "http://127.0.0.1" ++ host else host in
  if isExplicitProtocol host then host' else "http://" ++ host'.

(** the port chosen for the parsed [url], *)
Definition effective_port (explicit : bool) (url : URL) : string :=
  if JsString.falsy (port url) then
    if negb explicit then "11434"
    else if String.eqb (protocol url) "https:" then "443" else "80"
  else port url.

(** and the string assembled from it, one trailing slash removed. *)
Definition strip_slash (s : string) : string :=
  if JsString.endsWith s "/" then JsString.slice_0_neg1 s else s.

Definition assemble (protocol hostname port pathname : string) : string :=
  strip_slash (protocol ++ "//" ++ hostname ++ ":" ++ port ++ pathname).

End HostResolver.

(** ** JavaScript values

    The values a request body or a parsed JSON document can be.  Objects
    carry their class: a typed array, a buffer, a blob, a form or a stream is
    an object to [typeof] just as an object literal is. *)

Inductive object_class : Set :=
| PlainObject | Uint8Array | ArrayBuffer | Blob | FormData
| URLSearchParams | ReadableStream.

#[local] Set Warnings "-register-all".

Inductive JSValue : Type :=
| JSUndefined
| JSNull
| JSBoolean (b : bool)
| JSNumber (n : Z)
| JSString (s : string)
| JSArray (items : list JSValue)
| JSObject (cls : object_class) (props : list (string * JSValue)).

(** [typeof v] *)
Definition typeof (v : JSValue) : string :=
  match v with
  | JSUndefined => "undefined"
  | JSNull => "object"
  | JSBoolean _ => "boolean"
  | JSNumber _ => "number"
  | JSString _ => "string"
  | JSArray _ => "object"
  | JSObject _ _ => "object"
  end.

(** [Array.isArray(v)] *)
Definition Array_isArray (v : JSValue) : bool :=
  match v with
  | JSArray _ => true
  | _ => false
  end.

(** [v === null] *)
Definition is_null (v : JSValue) : bool :=
  match v with
  | JSNull => true
  | _ => false
  end.

(** [!!v] *)
Definition truthy (v : JSValue) : bool :=
  match v with
  | JSUndefined | JSNull => false
  | JSBoolean b => b
  | JSNumber n => negb (n =? 0)%Z
  | JSString s => negb (JsString.falsy s)
  | JSArray _ | JSObject _ _ => true
  end.

(** [a || b] *)
Definition js_or (a b : JSValue) : JSValue := if truthy a then a else b.

(** ** Completions, thrown values and effects *)

(** [ResponseError]: the constructor stores its two arguments (and the name
    ['ResponseError']). *)
Record ResponseError : Type := mkResponseError {
  error : JSValue;
  status_code : Z
}.

Inductive thrown : Type :=
| ThrownResponseError (e : ResponseError)
| ThrownTypeError
| ThrownReferenceError
| Rejection (reason : JSValue).

Inductive completion (A : Type) : Type :=
| Normal (a : A)
| Throw (e : thrown).
Arguments Normal {A} a.
Arguments Throw {A} e.

(** [v.name] for a name that no built-in prototype defines: a [TypeError]
    on [undefined] and [null], the own property of an object, [undefined]
    otherwise. *)
Definition get_prop (v : JSValue) (name : string) : completion JSValue :=
  match v with
  | JSUndefined | JSNull => Throw ThrownTypeError
  | JSObject _ props =>
      Normal (default JSUndefined (snd <$> List.find (fun kv => String.eqb (fst kv) name) props))
  | _ => Normal JSUndefined
  end.

(** An [AbortSignal], known by its identity. *)
Inductive AbortSignal : Set := Signal (id : nat).

(** The options object handed to [fetch]; an absent property is [None] (or
    [JSUndefined] for the body). *)
Record RequestInit : Type := mkRequestInit {
  method : option string;
  body : JSValue;
  signal : option AbortSignal;
  headers : option (gmap string string)
}.

(** A [Response] as the validator uses it: the three fields it reads, the
    header accessor, and what awaiting [json()] and [text()] gives. *)
Record Response : Type := mkResponse {
  ok : bool;
  status : Z;
  statusText : string;
  headers_get : string -> option string;
  json : completion JSValue;
  text : completion string
}.

(** What a run does besides returning: the transport calls, the reads of a
    response body and the console diagnostics, in order. *)
Inductive event : Type :=
| Transport (url : string) (init : RequestInit)
| ReadJson
| ReadText
| ConsoleLog (m : MESSAGES.t).

(** An asynchronous function body, run to completion: its effects and how
    it completes. *)
Definition async (A : Type) : Type := list event * completion A.

Definition ret {A} (a : A) : async A := ([], Normal a).
Definition throw {A} (e : thrown) : async A := ([], Throw e).
Definition emit (e : event) : async unit := ([e], Normal tt).
Definition settle {A} (e : event) (c : completion A) : async A := ([e], c).
Definition lift {A} (c : completion A) : async A := ([], c).

Definition bind {A B} (m : async A) (k : A -> async B) : async B :=
  match m with
  | (t, Normal a) => let '(t', r) := k a in ((t ++ t')%list, r)
  | (t, Throw e) => (t, Throw e)
  end.

(** [try { m } catch (error) { handler }] *)
Definition try_catch {A} (m : async A) (handler : thrown -> async A) : async A :=
  match m with
  | (t, Normal a) => (t, Normal a)
  | (t, Throw e) => let '(t', r) := handler e in ((t ++ t')%list, r)
  end.

#[global] Instance async_ret : MRet async := @ret.
#[global] Instance async_bind : MBind async := fun A B k m => bind m k.

Definition console_log (m : MESSAGES.t) : async unit := emit (ConsoleLog m).
Definition await_json (response : Response) : async JSValue := settle ReadJson (json response).
Definition await_text (response : Response) : async string := settle ReadText (text response).

(** The transport function: what the call resolves to, or how it rejects. *)
Definition Fetch : Type := string -> RequestInit -> completion Response.

(** ** ResponseValidator: [checkOk] *)

Definition checkOk (response : Response) : async unit :=
  if ok response then ret tt
  else
    (let message :=
       JSString ("Error " ++ JsString.of_Z (status response) ++ ": " ++ statusText response) in
     message ←
       (if match headers_get response "content-type" with
           | Some contentType => JsString.includes contentType "application/json"
           | None => false
           end
        then
          try_catch
            (errorData ← await_json response;
             field ← lift (get_prop errorData "error");
             ret (js_or field message))
            (fun _ => console_log MESSAGES.ERROR_JSON_PARSE ;; ret message)
        else
          try_catch
            (console_log MESSAGES.FETCHING_TEXT ;;
             textResponse ← await_text response;
             ret (js_or (JSString textResponse) message))
            (fun _ => console_log MESSAGES.ERROR_FETCHING_TEXT ;; ret message));
     throw (ThrownResponseError (mkResponseError message (status response)))).

(** ** RequestDispatcher *)

Section RequestDispatcher.

(** [version] of [./version.js] and the result of [getPlatform()], which
    reads the ambient [window] or [process].  Here the call of
    [getPlatform()] and the calls of [JSON.stringify] have returned;
    [Ambient] below has the dispatcher with the two as they are, throwing
    included. *)
Variable version : string.
Variable getPlatform : string.

(** [JSON.stringify(v)]; [None] is [undefined]. *)
Variable JSON_stringify : JSValue -> option string.

Definition stringified (v : JSValue) : JSValue :=
  match JSON_stringify v with
  | Some s => JSString s
  | None => JSUndefined
  end.

Definition defaultHeaders : gmap string string :=
  <["Content-Type" := "application/json"]>
  (<["Accept" := "application/json"]>
  (<["User-Agent" := "ollama-js/" ++ version ++ " (" ++ getPlatform ++ ")"]> ∅)).

(** The empty options object, the default of [fetchWithHeaders]. *)
Definition no_options : RequestInit :=
  {| method := None; body := JSUndefined; signal := None; headers := None |}.

Definition fetchWithHeaders (fetch : Fetch) (url : string) (options : RequestInit)
  : async Response :=
  let options :=
    if bool_decide (headers options = None)
    then {| method := method options; body := body options;
            signal := signal options; headers := Some ∅ |}
    else options in
  let options :=
    {| method := method options; body := body options; signal := signal options;
       headers := Some (default ∅ (headers options) ∪ defaultHeaders) |} in
  settle (Transport url options) (fetch url options).

Definition get (fetch : Fetch) (host : string) : async Response :=
  (response ← fetchWithHeaders fetch host no_options;
   checkOk response ;;
   ret response).

Definition head (fetch : Fetch) (host : string) : async Response :=
  (response ← fetchWithHeaders fetch host
     {| method := Some "HEAD"; body := JSUndefined; signal := None; headers := None |};
   checkOk response ;;
   ret response).

(** The [options] argument of [post]. *)
Record PostOptions : Set := { options_signal : AbortSignal }.

Definition isRecord (input : JSValue) : bool :=
  negb (is_null input) && String.eqb (typeof input) "object"
  && negb (Array_isArray input).

Definition post (fetch : Fetch) (host : string) (data : JSValue)
    (options : option PostOptions) : async Response :=
  (let formattedData := if isRecord data then stringified data else data in
   response ← fetchWithHeaders fetch host
     {| method := Some "POST"; body := formattedData;
        signal := options_signal <$> options; headers := None |};
   checkOk response ;;
   ret response).

Definition del (fetch : Fetch) (host : string) (data : JSValue) : async Response :=
  (response ← fetchWithHeaders fetch host
     {| method := Some "DELETE"; body := stringified data;
        signal := None; headers := None |};
   checkOk response ;;
   ret response).

End RequestDispatcher.

(** ** The platform's [TextDecoder]

    Bytes are numbers below 256, decoded text is the sequence of its code
    points.  [Utf8] follows the UTF-8 decoder of the WHATWG Encoding
    standard, in replacement error mode, and the [decode] method of a
    [TextDecoder] over it. *)

Definition chunk : Type := list N.
Definition codepoints : Type := list N.

Module Utf8.

Record state : Set := mkState {
  code_point : N;
  bytes_seen : N;
  bytes_needed : N;
  lower_boundary : N;
  upper_boundary : N
}.

Definition initial : state := mkState 0 0 0 0x80 0xBF.

Inductive result : Set :=
| Continue
| CodePoint (cp : N)
| Error
| ErrorRestore.

Definition between (lo hi byte : N) : bool := ((lo <=? byte) && (byte <=? hi))%N.

(** The decoder's handler on a byte.  [ErrorRestore] is the error that puts
    the byte back in the queue. *)
Definition handler (st : state) (byte : N) : state * result :=
  if (bytes_needed st =? 0)%N then
    if between 0x00 0x7F byte then (st, CodePoint byte)
    else if between 0xC2 0xDF byte then
      (mkState (N.land byte 0x1F) 0 1 0x80 0xBF, Continue)
    else if between 0xE0 0xEF byte then
      (mkState (N.land byte 0xF) 0 2
         (if (byte =? 0xE0)%N then 0xA0 else 0x80)
         (if (byte =? 0xED)%N then 0x9F else 0xBF), Continue)
    else if between 0xF0 0xF4 byte then
      (mkState (N.land byte 0x7) 0 3
         (if (byte =? 0xF0)%N then 0x90 else 0x80)
         (if (byte =? 0xF4)%N then 0x8F else 0xBF), Continue)
    else (st, Error)
  else if negb (between (lower_boundary st) (upper_boundary st) byte) then
    (initial, ErrorRestore)
  else
    let cp := N.lor (N.shiftl (code_point st) 6) (N.land byte 0x3F) in
    let seen := (bytes_seen st + 1)%N in
    if (seen =? bytes_needed st)%N then (initial, CodePoint cp)
    else (mkState cp seen (bytes_needed st) 0x80 0xBF, Continue).

Definition REPLACEMENT : N := 0xFFFD.

Definition emitted (r : result) : codepoints :=
  match r with
  | Continue => []
  | CodePoint cp => [cp]
  | Error | ErrorRestore => [REPLACEMENT]
  end.

(** The handler run over the bytes of the queue; a restored byte is handled
    again, by the decoder the error has reset. *)
Fixpoint run (st : state) (input : chunk) : codepoints * state :=
  match input with
  | [] => ([], st)
  | byte :: rest =>
      let '(st', r) := handler st byte in
      let '(again, st'') :=
        match r with
        | ErrorRestore => let '(st2, r2) := handler st' byte in (emitted r2, st2)
        | _ => ([], st')
        end in
      let '(out, final) := run st'' rest in
      ((emitted r ++ again ++ out)%list, final)
  end.

(** The handler at end-of-queue. *)
Definition flush (st : state) : codepoints * state :=
  if (bytes_needed st =? 0)%N then ([], st)
  else ([REPLACEMENT],
        mkState (code_point st) (bytes_seen st) 0 (lower_boundary st) (upper_boundary st)).

Record TextDecoder : Set := mkTextDecoder {
  decoder : state;
  BOM_seen : bool;
  do_not_flush : bool
}.

(** A decoder that has read nothing. *)
Definition fresh : TextDecoder := mkTextDecoder initial false false.

(** [new TextDecoder(label)] without options: not fatal, the byte order mark
    not ignored (that is, removed from the output).  The model has the
    UTF-8 decoder only, the one the source asks for. *)
Definition new_TextDecoder (label : string) : TextDecoder := fresh.

Definition BOM : N := 0xFEFF.

(** Serializing the output: the first code point is dropped if it is the
    byte order mark and none has been seen yet. *)
Definition serialize (bom_seen : bool) (out : codepoints) : codepoints * bool :=
  match bom_seen, out with
  | false, cp :: rest => (if (cp =? BOM)%N then rest else out, true)
  | _, _ => (out, bom_seen)
  end.

(** [this.decode(input, {stream})] *)
Definition decode (this : TextDecoder) (input : chunk) (stream : bool)
  : codepoints * TextDecoder :=
  let this := if do_not_flush this then this else fresh in
  let '(out, st) := run (decoder this) input in
  let '(out, st) :=
    if stream then (out, st)
    else let '(last, st) := flush st in ((out ++ last)%list, st) in
  let '(s, bom_seen) := serialize (BOM_seen this) out in
  (s, mkTextDecoder st bom_seen stream).

End Utf8.

Module ENCODING.
(** Modelled from the spec: [./constants] is not among the sources; the
    stream is decoded "as UTF-8 text" (section 4.4), so the label names the
    UTF-8 encoding. *)
Definition UTF8 : string := "utf-8".
End ENCODING.

(** Modelled from the spec: [./constants] is not among the sources; the
    decode buffer of section 4.4 starts empty. *)
Definition EMPTY_STRING : codepoints := [].

(** ** StreamDecoder: [parseJSON] *)

Definition LF : N := 10.

(** [s.split('\n')] *)
Fixpoint split_lines (s : codepoints) : list codepoints :=
  match s with
  | [] => [[]]
  | c :: r =>
      if (c =? LF)%N then [] :: split_lines r
      else match split_lines r with
           | x :: xs => (c :: x) :: xs
           | [] => [[c]]
           end
  end.

(** [p !== ''] *)
Definition nonempty (p : codepoints) : bool :=
  match p with
  | [] => false
  | _ => true
  end.

(** What the generator produces, in order: the values it yields and the
    parts it warns about. *)
Inductive output (T : Type) : Type :=
| Yield (value : T)
| ConsoleWarn (part : codepoints).
Arguments Yield {T} value.
Arguments ConsoleWarn {T} part.

Section StreamDecoder.

Context {T : Type}.

(** [JSON.parse(part)], [None] when it throws. *)
Variable JSON_parse : codepoints -> option T.

(** [try { yield JSON.parse(part) } catch (error) { console.warn(...) }] *)
Definition try_yield (part : codepoints) : output T :=
  match JSON_parse part with
  | Some value => Yield value
  | None => ConsoleWarn part
  end.

(** The [while (true)] loop over the chunks the reader delivers, then the
    loop over what is left in the buffer. *)
Fixpoint read_loop (decoder : Utf8.TextDecoder) (buffer : codepoints) (itr : list chunk)
  : list (output T) :=
  match itr with
  | [] => try_yield <$> List.filter nonempty (split_lines buffer)
  | chunk :: itr =>
      let '(decoded, decoder) := Utf8.decode decoder chunk false in
      let buffer := (buffer ++ decoded)%list in
      let parts := split_lines buffer in
      let buffer := List.last parts EMPTY_STRING in
      let parts := removelast parts in
      ((try_yield <$> parts) ++ read_loop decoder buffer itr)%list
  end.

(** [parseJSON(itr)] over a stream that delivers the chunks [itr] and
    ends. *)
Definition parseJSON (itr : list chunk) : list (output T) :=
  read_loop (Utf8.new_TextDecoder ENCODING.UTF8) EMPTY_STRING itr.

(** The values a consumer of the generator receives. *)
Definition yielded (outs : list (output T)) : list T :=
  omap (fun o => match o with Yield v => Some v | ConsoleWarn _ => None end) outs.

End StreamDecoder.

(** ** A model of the platform's [JSON.stringify]

    On the values of [JSValue]: [None] is [undefined]; an array holds [null]
    where an element has no JSON text, an object leaves such a property out.
    Numbers are integral and print in decimal. *)

Module Json.

Definition quotation_mark : ascii := ascii_of_nat 34.

Definition hex_lower (n : nat) : ascii :=
  match String.get n "0123456789abcdef" with
  | Some c => c
  | None => "0"%char
  end.

Definition escape (c : ascii) : string :=
  let n := nat_of_ascii c in
  if (n =? 34)%nat then String "\" (String quotation_mark "")
  else if (n =? 92)%nat then "\\"
  else if (n =? 8)%nat then "\b"
  else if (n =? 12)%nat then "\f"
  else if (n =? 10)%nat then "\n"
  else if (n =? 13)%nat then "\r"
  else if (n =? 9)%nat then "\t"
  else if (n <? 32)%nat
       then "\u00" ++ String (hex_lower (n / 16)) (String (hex_lower (n mod 16)) "")
  else String c "".

Fixpoint escape_all (s : string) : string :=
  match s with
  | EmptyString => EmptyString
  | String c r => escape c ++ escape_all r
  end.

Definition quote (s : string) : string :=
  String quotation_mark (escape_all s ++ String quotation_mark "").

Fixpoint join (sep : string) (l : list string) : string :=
  match l with
  | [] => ""
  | [x] => x
  | x :: xs => x ++ sep ++ join sep xs
  end.

Fixpoint stringify (v : JSValue) : option string :=
  match v with
  | JSUndefined => None
  | JSNull => Some "null"
  | JSBoolean b => Some (if b then "true" else "false")
  | JSNumber n => Some (JsString.of_Z n)
  | JSString s => Some (quote s)
  | JSArray items =>
      Some ("[" ++ join "," (List.map (fun x => default "null" (stringify x)) items) ++ "]")
  | JSObject _ props =>
      let member (kv : string * JSValue) : list string :=
        match stringify (snd kv) with
        | Some s => [quote (fst kv) ++ ":" ++ s]
        | None => []
        end in
      Some ("{" ++ join "," (List.flat_map member props) ++ "}")
  end.

End Json.

(** ** Observations on runs

    What the statements below read off a run. *)

(** The content-type test of [checkOk]. *)
Definition indicatesJSON (response : Response) : bool :=
  match headers_get response "content-type" with
  | Some contentType => JsString.includes contentType "application/json"
  | None => false
  end.

(** The default message of [checkOk]. *)
Definition default_message (response : Response) : JSValue :=
  JSString ("Error " ++ JsString.of_Z (status response) ++ ": " ++ statusText response).

(** The [ResponseError] a run ends with, if it does. *)
Definition response_error {A} (run : async A) : option ResponseError :=
  match snd run with
  | Throw (ThrownResponseError e) => Some e
  | _ => None
  end.

(** The options of the transport calls of a run, in order. *)
Definition transported {A} (run : async A) : list RequestInit :=
  omap (fun e => match e with Transport _ init => Some init | _ => None end) (fst run).

(** The four entry points, and a call of one with the dispatcher's full
    argument list; as in any JavaScript call, a function takes the
    arguments it has parameters for and the others are dropped. *)
Inductive entry_point : Set := GET | HEAD | POST | DELETE.

Definition call (version getPlatform : string) (JSON_stringify : JSValue -> option string)
    (entry : entry_point) (fetch : Fetch) (host : string) (data : JSValue)
    (options : option PostOptions) : async Response :=
  match entry with
  | GET => get version getPlatform fetch host
  | HEAD => head version getPlatform fetch host
  | POST => post version getPlatform JSON_stringify fetch host data options
  | DELETE => del version getPlatform JSON_stringify fetch host data
  end.

(** C9 as the specification states it: whichever entry point is called with
    a token, the transport call carries that token as its signal. *)
Definition every_entry_point_forwards_token : Prop :=
  forall version getPlatform JSON_stringify entry fetch host data token,
    signal <$> transported
      (call version getPlatform JSON_stringify entry fetch host data
         (Some {| options_signal := token |}))
    = [Some token].

(** A transport that answers every request with the same response. *)
Definition respond (response : Response) : Fetch := fun _ _ => Normal response.

(** A response with status 200 and an empty body. *)
Definition response_200 : Response :=
  {| ok := true; status := 200; statusText := "OK";
     headers_get := fun _ => None;
     json := Throw (Rejection JSUndefined); text := Normal "" |}.

(** A response with status 404 and the JSON body [{"error":"model not found"}]. *)
Definition response_404 : Response :=
  {| ok := false; status := 404; statusText := "Not Found";
     headers_get := fun name =>
       if String.eqb name "content-type" then Some "application/json; charset=utf-8" else None;
     json := Normal (JSObject PlainObject [("error", JSString "model not found")]);
     text := Normal "" |}.

(** A response with status 500, no JSON content type, and a body that is
    the given text or cannot be read. *)
Definition response_500 (content : completion string) : Response :=
  {| ok := false; status := 500; statusText := "Internal Server Error";
     headers_get := fun name =>
       if String.eqb name "content-type" then Some "text/plain" else None;
     json := Throw (Rejection JSUndefined);
     text := content |}.

(** The options [fetchWithHeaders] hands to the transport for the options
    it is given. *)
Definition sent (version getPlatform : string) (options : RequestInit) : RequestInit :=
  {| method := method options; body := body options; signal := signal options;
     headers := Some (default ∅ (headers options) ∪ defaultHeaders version getPlatform) |}.

(** A byte array holding 1 and 2, as [new Uint8Array([1, 2])]. *)
Definition bytes_1_2 : JSValue :=
  JSObject Uint8Array [("0", JSNumber 1); ("1", JSNumber 2)].

(** The text one call [decoder.decode(chunk)] gives on a fresh decoder. *)
Definition decode_chunk (c : chunk) : codepoints :=
  fst (Utf8.decode (Utf8.new_TextDecoder ENCODING.UTF8) c false).

(** The text of a stream: what the calls of [decode] on its chunks give,
    one after the other. *)
Definition stream_text (itr : list chunk) : codepoints :=
  List.concat (decode_chunk <$> itr).

(** The candidate records of a text: its lines up to the last newline, and
    what follows the last newline when that is not empty. *)
Definition candidate_records (s : codepoints) : list codepoints :=
  let parts := split_lines s in
  (removelast parts ++ List.filter nonempty [List.last parts []])%list.

(** The bytes of [{"a":"é"}] and a newline; [é] is the two bytes 195, 169. *)
Definition e_acute_stream : chunk :=
  [123; 34; 97; 34; 58; 34; 195; 169; 34; 125; 10]%N.

(** The same bytes in two chunks, cut between the two bytes of [é]. *)
Definition e_acute_chunks : list chunk :=
  [[123; 34; 97; 34; 58; 34; 195]; [169; 34; 125; 10]]%N.

(** A text without newline, as the buffer is between two reads. *)
Definition no_newline (s : codepoints) : Prop :=
  Forall (fun c => (c =? LF)%N = false) s.

(** Characters of a resolved target: [plain] is neither [?] nor [#], the
    characters that start a query and a fragment; [host_char] is none of
    [#], [/], [?] and [@], the last being what ends the credentials. *)
Definition plain (c : ascii) : bool := negb (Whatwg.is_query_or_fragment c).
Definition host_char (c : ascii) : bool := negb (Whatwg.one_of [35; 47; 63; 64] c).

Definition plain_string (s : string) : Prop := Whatwg.forallb_string plain s = true.

Definition record_plain (u : Whatwg.url_record) : Prop :=
  plain_string (Whatwg.url_scheme u) /\
  Whatwg.forallb_string host_char (default "" (Whatwg.url_host u)) = true /\
  plain_string (Whatwg.serialize_path (Whatwg.url_path_of u)).

(** ** Canonical targets

    The shape of the record the URL parser leaves for a URL with a special
    scheme, and of the text [formatHost] assembles from it.  The statement
    on resolving a target a second time is phrased with these. *)

Section CanonicalTarget.
Import Whatwg.

(** Classes of characters: above the C0 controls and the space; allowed in
    an ASCII domain; kept as it is by the path state. *)
Definition visible (c : ascii) : bool := (32 <? code c)%nat.
Definition host_safe (c : ascii) : bool := negb (forbidden_domain c) && (code c <=? 127)%nat.
Definition good_char (c : ascii) : bool :=
  negb (path_set c) && negb (is_slash true c) && negb (is_query_or_fragment c).
Definition not_char (p : ascii -> bool) (c : ascii) : bool := negb (p c).
Definition ipv4_char (c : ascii) : bool := is_digit c || is_dot c.

(** A path segment the path state reads back unchanged. *)
Definition good_chars (s : string) : Prop := forallb_string good_char s = true.
Definition good_segment (s : string) : Prop :=
  good_chars s /\ is_single_dot s = false /\ is_double_dot s = false.

(** A host the host parser reads back unchanged. *)
Definition canonical_host (h : string) : Prop :=
  host_parse_special h = Some h /\ forallb_string host_safe h = true /\ h <> "".

(** A port the port state leaves in a record: in range and not the default
    of the scheme. *)
Definition port_ok (scheme : string) (p : option N) : Prop :=
  match p with
  | None => True
  | Some p => (p <= 65535)%N /\ default_port scheme <> Some p
  end.

Definition canonical_record (r : url_record) : Prop :=
  (exists h, url_host r = Some h /\ canonical_host h) /\
  port_ok (url_scheme r) (url_port r) /\
  exists segs, url_path_of r = Segments segs /\ Forall good_segment segs.

(** The special schemes but [file]. *)
Definition special_scheme (scheme : string) : Prop :=
  scheme = "ftp" \/ scheme = "http" \/ scheme = "https" \/ scheme = "ws" \/ scheme = "wss".

(** The text [formatHost] assembles, before the trailing slash is taken off,
    and the port [formatHost] writes for the port of a record. *)
Definition target (scheme h port path : string) : string :=
  scheme ++ String ":" (String "/" (String "/" (h ++ String ":" (port ++ path)))).

Definition port_text (flag : bool) (scheme : string) (p : option N) : string :=
  effective_port flag
    {| protocol := scheme ++ ":"; username := ""; password := ""; hostname := "";
       port := from_option N_to_string "" p; pathname := ""; search := ""; hash := "" |}.

(** Resolving twice gives what resolving once gives, at one host and at
    every non-empty host. *)
Definition idempotent_at (local x : string) : Prop :=
  formatHost URL_new local x ≫= formatHost URL_new local = formatHost URL_new local x.

Definition idempotent_everywhere : Prop :=
  forall local x : string, x <> "" -> idempotent_at local x.

End CanonicalTarget.

(** ** The ambient environment: [getPlatform]

    What [getPlatform] reads: the globals [window], [navigator] and
    [process], and properties of their values. *)

#[global] Instance completion_ret : MRet completion := @Normal.
#[global] Instance completion_bind : MBind completion := fun A B k m =>
  match m with
  | Normal a => k a
  | Throw e => Throw e
  end.

Module Platform.

(** [window] and [process] are read under [typeof] first, which does not
    tell a global that is not declared from one that is [undefined]: both
    are [JSUndefined] here.  The global [navigator] is read as it is, which
    throws a [ReferenceError] when it is not declared: [None]. *)
Record Environment : Type := {
  window : JSValue;
  navigator : option JSValue;
  process : JSValue
}.

Section GetPlatform.

(** [s.toLowerCase()] on a string. *)
Variable toLowerCase : string -> string.

(** The string a template literal makes of a value that is not a string;
    the conversion of an object can throw. *)
Variable ToString : JSValue -> completion string.

(** [`${v}`] *)
Definition template_value (v : JSValue) : completion string :=
  match v with
  | JSString s => Normal s
  | _ => ToString v
  end.

(** [v.toLowerCase()]: the method of a string; no other value here has a
    method of that name, and calling what is not a function is a
    [TypeError], as is reading a property of [undefined] or [null]. *)
Definition call_toLowerCase (v : JSValue) : completion string :=
  match v with
  | JSString s => Normal (toLowerCase s)
  | _ => Throw ThrownTypeError
  end.

(** The identifier [navigator]. *)
Definition global_navigator (env : Environment) : completion JSValue :=
  match navigator env with
  | Some v => Normal v
  | None => Throw ThrownReferenceError
  end.

Definition getPlatform (env : Environment) : completion string :=
  browser ←
    (if negb (String.eqb (typeof (window env)) "undefined")
     then nav ← get_prop (window env) "navigator"; Normal (truthy nav)
     else Normal false);
  if browser : bool then
    nav ← get_prop (window env) "navigator";
    platform ← get_prop nav "platform";
    lower ← call_toLowerCase platform;
    global ← global_navigator env;
    userAgent ← get_prop global "userAgent";
    agent ← template_value userAgent;
    Normal (lower ++ " Browser/" ++ agent ++ ";")
  else if negb (String.eqb (typeof (process env)) "undefined") then
    arch ← get_prop (process env) "arch";
    arch ← template_value arch;
    platform ← get_prop (process env) "platform";
    platform ← template_value platform;
    version ← get_prop (process env) "version";
    version ← template_value version;
    Normal (arch ++ " " ++ platform ++ " Node.js/" ++ version)
  else Normal "".

End GetPlatform.

(** The test of the first branch of [getPlatform] holds, with this value of
    [window.navigator]. *)
Definition browses (env : Environment) (nav : JSValue) : Prop :=
  typeof (window env) <> "undefined" /\
  get_prop (window env) "navigator" = Normal nav /\
  truthy nav = true.

End Platform.

(** ** RequestDispatcher in its environment

    The dispatcher again, with the two calls it makes before the transport
    as they are in the source: [getPlatform()], which returns the platform
    string or throws, and [JSON.stringify], which returns a text or
    [undefined], or throws (on a cyclic object, on a [BigInt], from a
    [toJSON]). *)

Module Ambient.

Section RequestDispatcher.

Variable version : string.
Variable getPlatform : completion string.
Variable JSON_stringify : JSValue -> completion (option string).

(** [JSON.stringify(v)] as a value *)
Definition stringified (v : JSValue) : async JSValue :=
  (text ← lift (JSON_stringify v);
   ret (match text with
        | Some s => JSString s
        | None => JSUndefined
        end)).

Definition fetchWithHeaders (fetch : Fetch) (url : string) (options : RequestInit)
  : async Response :=
  (platform ← lift getPlatform;
   let defaultHeaders : gmap string string :=
     <["Content-Type" := "application/json"]>
     (<["Accept" := "application/json"]>
     (<["User-Agent" := "ollama-js/" ++ version ++ " (" ++ platform ++ ")"]> ∅)) in
   let options :=
     if bool_decide (headers options = None)
     then {| method := method options; body := body options;
             signal := signal options; headers := Some ∅ |}
     else options in
   let options :=
     {| method := method options; body := body options; signal := signal options;
        headers := Some (default ∅ (headers options) ∪ defaultHeaders) |} in
   settle (Transport url options) (fetch url options)).

Definition get (fetch : Fetch) (host : string) : async Response :=
  (response ← fetchWithHeaders fetch host no_options;
   checkOk response ;;
   ret response).

Definition head (fetch : Fetch) (host : string) : async Response :=
  (response ← fetchWithHeaders fetch host
     {| method := Some "HEAD"; body := JSUndefined; signal := None; headers := None |};
   checkOk response ;;
   ret response).

Definition post (fetch : Fetch) (host : string) (data : JSValue)
    (options : option PostOptions) : async Response :=
  (formattedData ← (if isRecord data then stringified data else ret data);
   response ← fetchWithHeaders fetch host
     {| method := Some "POST"; body := formattedData;
        signal := options_signal <$> options; headers := None |};
   checkOk response ;;
   ret response).

Definition del (fetch : Fetch) (host : string) (data : JSValue) : async Response :=
  (text ← stringified data;
   response ← fetchWithHeaders fetch host
     {| method := Some "DELETE"; body := text; signal := None; headers := None |};
   checkOk response ;;
   ret response).

Definition call (entry : entry_point) (fetch : Fetch) (host : string) (data : JSValue)
    (options : option PostOptions) : async Response :=
  match entry with
  | GET => get fetch host
  | HEAD => head fetch host
  | POST => post fetch host data options
  | DELETE => del fetch host data
  end.

End RequestDispatcher.

End Ambient.

(** A browser whose navigator has a platform and a user agent, a window
    whose navigator has neither, and an environment where [window] is
    [null]; a conversion that throws on every value. *)
Definition navigator_mac : JSValue :=
  JSObject PlainObject [("platform", JSString "MacIntel"); ("userAgent", JSString "Mozilla/5.0")].

Definition browser_env : Platform.Environment :=
  {| Platform.window := JSObject PlainObject [("navigator", navigator_mac)];
     Platform.navigator := Some navigator_mac;
     Platform.process := JSUndefined |}.

Definition bare_navigator_env : Platform.Environment :=
  {| Platform.window := JSObject PlainObject [("navigator", JSObject PlainObject [])];
     Platform.navigator := Some (JSObject PlainObject []);
     Platform.process := JSUndefined |}.

Definition null_window_env : Platform.Environment :=
  {| Platform.window := JSNull; Platform.navigator := None; Platform.process := JSUndefined |}.

Definition no_conversion : JSValue -> completion string := fun _ => Throw ThrownTypeError.

(** What [JSON.stringify] returns when it returns. *)
Definition returned (JSON_stringify : JSValue -> completion (option string)) (v : JSValue)
  : option string :=
  match JSON_stringify v with
  | Normal text => text
  | Throw _ => None
  end.

(** The entry point hands its data to [JSON.stringify]. *)
Definition serializes (entry : entry_point) (data : JSValue) : bool :=
  match entry with
  | GET | HEAD => false
  | POST => isRecord data
  | DELETE => true
  end.

(** ** File checks: [isFilePath], [fileExists] *)

Section FileChecks.

(** [await promises.access(path)]: fulfils, or rejects. *)
Variable access : string -> completion unit.

Definition isFilePath (path : string) : async bool :=
  try_catch (lift (access path) ;; ret true) (fun _ => ret false).

Definition fileExists (path : string) : async bool :=
  try_catch (lift (access path) ;; ret true) (fun _ => ret false).

End FileChecks.

(** ** Further observations on runs *)

(** The reads of a response body in a run, and its console lines, in
    order. *)
Definition reads {A} (run : async A) : list event :=
  List.filter (fun e => match e with ReadJson | ReadText => true | _ => false end) (fst run).

Definition logged {A} (run : async A) : list MESSAGES.t :=
  omap (fun e => match e with ConsoleLog m => Some m | _ => None end) (fst run).

(** The URLs of the transport calls of a run, in order. *)
Definition requested {A} (run : async A) : list string :=
  omap (fun e => match e with Transport url _ => Some url | _ => None end) (fst run).

(** The parts the generator warns about, in order. *)
Definition warned {T} (outs : list (output T)) : list codepoints :=
  omap (fun o => match o with ConsoleWarn part => Some part | Yield _ => None end) outs.

(** [JSON.parse] throws on a part. *)
Definition rejected {T} (JSON_parse : codepoints -> option T) (part : codepoints) : bool :=
  match JSON_parse part with
  | Some _ => false
  | None => true
  end.

(** The number of newlines of a text. *)
Definition newlines (s : codepoints) : nat :=
  List.length (List.filter (fun c => (c =? LF)%N) s).

(** What the UTF-8 decoder makes of a chunk read from its initial state,
    before the end of the queue is handled; a chunk is aligned when it ends
    where a character ends, leaving the decoder in its initial state. *)
Definition decoded (c : chunk) : codepoints := fst (Utf8.run Utf8.initial c).

Definition aligned (c : chunk) : Prop := snd (Utf8.run Utf8.initial c) = Utf8.initial.

Definition starts_with_BOM (s : codepoints) : bool :=
  match s with
  | cp :: _ => (cp =? Utf8.BOM)%N
  | [] => false
  end.

(** A chunk that ends where a character ends and whose text does not start
    with a byte order mark. *)
Definition clean (c : chunk) : Prop :=
  aligned c /\ starts_with_BOM (decoded c) = false.

(** The bytes of the byte order mark in UTF-8. *)
Definition BOM_bytes : chunk := [239; 187; 191]%N.

(** ** The specification's words on lines and records *)

(** Modelled from the spec: section 4.4 has the text split "on the newline
    character".  The segments of a text are the texts without newline that,
    joined by newlines, give the text back. *)
Fixpoint join_lines (ls : list codepoints) : codepoints :=
  match ls with
  | [] => []
  | [l] => l
  | l :: ls' => (l ++ LF :: join_lines ls')%list
  end.

Definition segments_of (s : codepoints) (ls : list codepoints) : Prop :=
  ls <> [] /\ Forall no_newline ls /\ join_lines ls = s.

(** Modelled from the spec: section 4.4, "All complete segments (all but the
    last) are candidate records", and at the end of the stream "each
    non-empty remaining segment" is one more. *)
Definition records_of (ls : list codepoints) : list codepoints :=
  (removelast ls ++
   match List.last ls [] with
   | [] => []
   | l => [l]
   end)%list.

(** Modelled from the spec: section 4.4, "on success, yield the parsed
    value", "on failure, skip the record and emit a non-fatal
    diagnostic". *)
Definition outcome {T} (JSON_parse : codepoints -> option T) (record : codepoints)
  : output T :=
  match JSON_parse record with
  | Some value => Yield value
  | None => ConsoleWarn record
  end.

(** The UTF-8 decoding of a byte sequence that is complete: the decoder run
    from its initial state to the end of the queue, the byte order mark
    kept. *)
Definition utf8_text (bytes : chunk) : codepoints :=
  (decoded bytes ++ fst (Utf8.flush (snd (Utf8.run Utf8.initial bytes))))%list.

(** The states the decoder can be in between two bytes: its initial state,
    or in the middle of a character, where the code point begun is not zero
    unless the lead byte was the first of its length. *)
Definition pending (st : Utf8.state) : Prop :=
  (Utf8.bytes_needed st <> 0 /\
   128 <= Utf8.lower_boundary st /\ Utf8.upper_boundary st <= 191 /\
   Utf8.bytes_seen st < Utf8.bytes_needed st /\
   (Utf8.code_point st <> 0 \/
    (144 <= Utf8.lower_boundary st /\ Utf8.bytes_seen st + 1 < Utf8.bytes_needed st)))%N.

Definition settled (st : Utf8.state) : Prop := st = Utf8.initial \/ pending st.

(** ** Resolving a target again

    What the statement on resolving a target again takes from the URL
    constructor: that it reads back what its getters gave.  For a URL [u]
    it has returned, with a host name and a scheme other than [file], the
    constructor accepts the text made of the protocol and the host name of
    [u], a port number and the path name of [u], with or without the slash
    the path name ends in, and returns a URL with the same protocol and host
    name, with that port, which reads as the empty string when it is the
    default of the scheme, and with that path, which reads as [/] when it is
    empty and the scheme is special.  A protocol is a scheme and a colon,
    and a port that is not empty is a number up to 65535 that is not the
    default of the scheme. *)
Record reads_back (new_URL : string -> option URL) : Prop := {
  rb_protocol : forall input u,
    new_URL input = Some u ->
    exists scheme,
      protocol u = scheme ++ ":" /\ scheme <> "" /\ JsString.startsWith scheme ":" = false;
  rb_port : forall input u scheme,
    new_URL input = Some u -> protocol u = scheme ++ ":" ->
    port u = "" \/
    exists n, port u = Whatwg.N_to_string n /\ (n <= 65535)%N /\
              Whatwg.default_port scheme <> Some n;
  rb_reparse : forall input u scheme n path,
    new_URL input = Some u -> protocol u = scheme ++ ":" ->
    hostname u <> "" -> scheme <> "file" -> (n <= 65535)%N ->
    pathname u = path \/ pathname u = path ++ "/" ->
    exists u',
      new_URL (target scheme (hostname u) (Whatwg.N_to_string n) path) = Some u' /\
      protocol u' = protocol u /\
      hostname u' = hostname u /\
      port u' = (if bool_decide (Whatwg.default_port scheme = Some n)
                 then "" else Whatwg.N_to_string n) /\
      pathname u' = (if String.eqb path "" && Whatwg.is_special scheme then "/" else path)
}.

(** The characters of a host that the opaque-host parser returns, the
    characters that the path state of a scheme that is not special keeps as
    they are, and a segment that it reads back unchanged. *)
Definition opaque_safe (c : ascii) : bool :=
  negb (Whatwg.forbidden_host c) && negb (Whatwg.c0_control_set c).

Definition kept_char (c : ascii) : bool :=
  negb (Whatwg.path_set c) && negb (Whatwg.is_slash false c) &&
  negb (Whatwg.is_query_or_fragment c).

Definition kept_chars (s : string) : Prop := Whatwg.forallb_string kept_char s = true.

Definition kept_segment (s : string) : Prop :=
  kept_chars s /\ Whatwg.is_single_dot s = false /\ Whatwg.is_double_dot s = false.

(** * Properties *)

(** ** The URL parser model

    No getter that [formatHost] reads holds a [?] or a [#], and the host name
    holds no [@] and no [/] either. *)

Section WhatwgFacts.

Import Whatwg.

Ltac ascii_cases c := destruct c as [[|] [|] [|] [|] [|] [|] [|] [|]].

Lemma forallb_string_app (P : ascii -> bool) (a b : string) :
  forallb_string P (a ++ b) = forallb_string P a && forallb_string P b.
Proof.
  induction a as [|c a IH]; [reflexivity|]. simpl. rewrite IH. now rewrite andb_assoc.
Qed.

Lemma forallb_string_impl (P Q : ascii -> bool) (s : string) :
  (forall c, P c = true -> Q c = true) ->
  forallb_string P s = true -> forallb_string Q s = true.
Proof.
  intros HPQ. induction s as [|c s IH]; [reflexivity|]. simpl.
  intros [Hc Hs]%andb_prop. now rewrite (HPQ c Hc), IH.
Qed.

Lemma host_char_plain c : host_char c = true -> plain c = true.
Proof. ascii_cases c; vm_compute; congruence. Qed.

Lemma is_digit_host_char c : is_digit c = true -> host_char c = true.
Proof. ascii_cases c; vm_compute; congruence. Qed.

Lemma scheme_char c : is_alnum c || one_of [43; 45; 46] c = true -> plain (to_lower c) = true.
Proof. ascii_cases c; vm_compute; congruence. Qed.

Lemma percent_encode_byte_host_char c : forallb_string host_char (percent_encode_byte c) = true.
Proof. ascii_cases c; vm_compute; congruence. Qed.

Lemma not_exists_forall (P : ascii -> bool) (s : string) :
  existsb_string P s = false -> forallb_string (fun c => negb (P c)) s = true.
Proof.
  induction s as [|c s IH]; [reflexivity|]. simpl.
  intros [Hc Hs]%orb_false_elim. now rewrite Hc, IH.
Qed.

Lemma scheme_state_plain (s sch rest : string) :
  scheme_state s = Some (sch, rest) -> forallb_string plain sch = true.
Proof.
  revert sch. induction s as [|c s IH]; intros sch; [discriminate|].
  cbn [scheme_state].
  destruct (is_alnum c || one_of [43; 45; 46] c) eqn:Hc.
  - destruct (scheme_state s) as [[sch' rest']|]; [|discriminate].
    intros [= <- <-]. cbn [forallb_string].
    now rewrite (scheme_char c Hc), (IH _ eq_refl).
  - destruct (is_code 58 c); [|discriminate]. now intros [= <- <-].
Qed.

Lemma uint_digits (d : Decimal.uint) :
  forallb_string is_digit (NilEmpty.string_of_uint d) = true.
Proof. induction d; simpl; auto. Qed.

Lemma N_to_string_digits (n : N) : forallb_string is_digit (N_to_string n) = true.
Proof.
  unfold N_to_string, NilZero.string_of_uint.
  pose proof (uint_digits (N.to_uint n)) as H.
  now destruct (N.to_uint n).
Qed.

Lemma ipv4_serialize_host_char (n : N) :
  forallb_string host_char (ipv4_serialize n) = true.
Proof.
  unfold ipv4_serialize.
  rewrite !forallb_string_app.
  rewrite !(forallb_string_impl _ _ _ is_digit_host_char (N_to_string_digits _)).
  reflexivity.
Qed.

Lemma forbidden_domain_host_char c : negb (forbidden_domain c) = true -> host_char c = true.
Proof. ascii_cases c; vm_compute; congruence. Qed.

Lemma forbidden_host_host_char c : negb (forbidden_host c) = true -> host_char c = true.
Proof. ascii_cases c; vm_compute; congruence. Qed.

Lemma percent_encode_host_char (set : ascii -> bool) (s : string) :
  forallb_string host_char s = true ->
  forallb_string host_char (percent_encode set s) = true.
Proof.
  induction s as [|c s IH]; [reflexivity|]. simpl.
  intros [Hc Hs]%andb_prop. rewrite forallb_string_app, (IH Hs), andb_true_r.
  unfold encode_char. destruct (set c).
  - apply percent_encode_byte_host_char.
  - simpl. now rewrite Hc.
Qed.

Lemma host_parse_host_char (special : bool) (input host : string) :
  host_parse special input = Some host -> forallb_string host_char host = true.
Proof.
  unfold host_parse, host_parse_special, host_parse_opaque.
  destruct special; (destruct (starts_with_bracket input); [discriminate|]).
  - destruct (existsb_string _ (percent_decode input)); [discriminate|]. cbv zeta.
    destruct (existsb _ _); [discriminate|].
    destruct (String.eqb _ _); [discriminate|].
    destruct (existsb_string forbidden_domain _) eqn:Hf; [discriminate|].
    destruct (ends_in_number _).
    + destruct (ipv4_parse _); [|discriminate]. intros [= <-].
      apply ipv4_serialize_host_char.
    + intros [= <-].
      apply (forallb_string_impl _ _ _ forbidden_domain_host_char).
      now apply not_exists_forall.
  - destruct (existsb_string forbidden_host _) eqn:Hf; [discriminate|].
    intros [= <-]. apply percent_encode_host_char.
    apply (forallb_string_impl _ _ _ forbidden_host_host_char).
    now apply not_exists_forall.
Qed.

Lemma Forall_removelast {A} (P : A -> Prop) (l : list A) :
  Forall P l -> Forall P (removelast l).
Proof.
  induction 1 as [|x l Hx Hl IH]; [constructor|].
  simpl. destruct l; [constructor|]. now constructor.
Qed.

Lemma end_segment_plain (path : list string) (buf : string) (slash : bool) :
  Forall plain_string path -> plain_string buf -> Forall plain_string (end_segment path buf slash).
Proof.
  intros Hp Hb. unfold end_segment.
  destruct (is_double_dot buf); [|destruct (is_single_dot buf)].
  - destruct slash.
    + now apply Forall_removelast.
    + apply Forall_app. split; [now apply Forall_removelast|]. now repeat constructor.
  - destruct slash; [assumption|]. apply Forall_app. split; [assumption|]. now repeat constructor.
  - apply Forall_app. split; [assumption|]. now repeat constructor.
Qed.

Lemma percent_encode_byte_plain c : forallb_string plain (percent_encode_byte c) = true.
Proof.
  apply (forallb_string_impl _ _ _ host_char_plain), percent_encode_byte_host_char.
Qed.

Lemma encode_char_plain (set : ascii -> bool) (c : ascii) :
  plain c = true -> plain_string (encode_char set c).
Proof.
  intros Hc. unfold plain_string, encode_char. destruct (set c).
  - apply percent_encode_byte_plain.
  - simpl. now rewrite Hc.
Qed.

Lemma path_state_plain (special : bool) (s : string) :
  forall path buf segments rest,
    path_state special path buf s = (segments, rest) ->
    Forall plain_string path -> plain_string buf -> Forall plain_string segments.
Proof.
  induction s as [|c s IH]; intros path buf segments rest; cbn [path_state].
  - intros [= <- <-] Hp Hb. now apply end_segment_plain.
  - destruct (is_slash special c).
    + intros H Hp Hb. apply (IH _ _ _ _ H); [now apply end_segment_plain|reflexivity].
    + destruct (is_query_or_fragment c) eqn:Hq.
      * intros [= <- <-] Hp Hb. now apply end_segment_plain.
      * intros H Hp Hb. apply (IH _ _ _ _ H); [assumption|].
        unfold plain_string. rewrite forallb_string_app, Hb. simpl.
        apply encode_char_plain. unfold plain. now rewrite Hq.
Qed.

Lemma serialize_segments_plain (l : list string) :
  Forall plain_string l -> plain_string (serialize_segments l).
Proof.
  induction 1 as [|x l Hx _ IH]; [reflexivity|].
  unfold plain_string in *. cbn [serialize_segments].
  rewrite !forallb_string_app, Hx, IH. reflexivity.
Qed.

Lemma break_plain (p : ascii -> bool) (s a b : string) :
  break p s = (a, b) -> forallb_string (fun c => negb (p c)) a = true.
Proof.
  revert a. induction s as [|c s IH]; intros a; cbn [break].
  - now intros [= <- <-].
  - destruct (p c) eqn:Hc; [now intros [= <- <-]|].
    destruct (break p s) as [a' b']. intros [= <- <-]. simpl.
    now rewrite Hc, (IH _ eq_refl).
Qed.

Lemma percent_encode_plain (set : ascii -> bool) (s : string) :
  plain_string s -> plain_string (percent_encode set s).
Proof.
  unfold plain_string. induction s as [|c s IH]; [reflexivity|]. simpl.
  intros [Hc Hs]%andb_prop. rewrite forallb_string_app, (IH Hs), andb_true_r.
  now apply encode_char_plain.
Qed.

Lemma authority_state_clean (scheme s : string) (u : url_record) :
  plain_string scheme -> authority_state scheme s = Some u -> record_plain u.
Proof.
  intros Hs. unfold authority_state.
  destruct (break (authority_end (is_special scheme)) s) as [authority rest].
  destruct (match split_last (is_code 64) authority with Some _ => _ | None => _ end)
    as [[[user pass] hostport]|]; [|discriminate].
  cbn [mbind option_bind].
  destruct (host_state false hostport) as [hostbuf porttext].
  destruct (_ && _); [discriminate|].
  destruct (host_parse (is_special scheme) hostbuf) as [host|] eqn:Hhost; [|discriminate].
  cbn [mbind option_bind].
  destruct (match porttext with Some _ => _ | None => _ end) as [port|]; [|discriminate].
  cbn [mbind option_bind].
  assert (Hpath : forall segments rest',
    match rest with
    | EmptyString =>
        if is_special scheme then path_state (is_special scheme) [] "" rest else ([], rest)
    | String c r =>
        if is_slash (is_special scheme) c then path_state (is_special scheme) [] "" r
        else if is_special scheme then path_state (is_special scheme) [] "" rest
        else ([], rest)
    end = (segments, rest') -> Forall plain_string segments).
  { intros segments rest'. destruct rest as [|c r].
    - destruct (is_special scheme).
      + intros H. apply (path_state_plain _ _ _ _ _ _ H); [constructor|reflexivity].
      + intros [= <- <-]. constructor.
    - destruct (is_slash _ c); [|destruct (is_special scheme)].
      + intros H. apply (path_state_plain _ _ _ _ _ _ H); [constructor|reflexivity].
      + intros H. apply (path_state_plain _ _ _ _ _ _ H); [constructor|reflexivity].
      + intros [= <- <-]. constructor. }
  destruct (match rest with EmptyString => _ | String _ _ => _ end) as [segments rest'].
  destruct (query_fragment _ rest') as [query fragment].
  intros [= <-]. repeat split; cbn.
  - exact Hs.
  - exact (host_parse_host_char _ _ _ Hhost).
  - apply serialize_segments_plain, (Hpath _ _ eq_refl).
Qed.

Lemma basic_url_parse_clean (input : string) (u : url_record) :
  basic_url_parse input = Some u -> record_plain u.
Proof.
  unfold basic_url_parse.
  set (s := filter_string _ _).
  destruct (scheme_start_state s) as [[scheme rest]|] eqn:Hscheme; [|discriminate].
  cbn [mbind option_bind].
  assert (Hs : plain_string scheme).
  { unfold scheme_start_state in Hscheme. destruct s as [|c s']; [discriminate|].
    destruct (is_alpha c); [|discriminate]. exact (scheme_state_plain _ _ _ Hscheme). }
  destruct (String.eqb scheme "file"); [discriminate|].
  destruct (is_special scheme); [apply authority_state_clean, Hs|].
  assert (Hpath : forall r,
    (let '(segments, rest') := path_state false [] "" r in
     let '(query, fragment) := query_fragment false rest' in
     Some {| url_scheme := scheme; url_username := ""; url_password := "";
             url_host := None; url_port := None;
             url_path_of := Segments segments;
             url_query := query; url_fragment := fragment |}) = Some u ->
    record_plain u).
  { intros r. destruct (path_state false [] "" r) as [segments rest'] eqn:E.
    destruct (query_fragment false rest') as [query fragment].
    intros [= <-]. repeat split; cbn; [exact Hs|].
    apply serialize_segments_plain, (path_state_plain _ _ _ _ _ _ E); [constructor|reflexivity]. }
  assert (Hopaque :
    (let '(opaque, rest') := break is_query_or_fragment rest in
     let '(query, fragment) := query_fragment false rest' in
     Some {| url_scheme := scheme; url_username := ""; url_password := "";
             url_host := None; url_port := None;
             url_path_of := Opaque (percent_encode c0_control_set opaque);
             url_query := query; url_fragment := fragment |}) = Some u ->
    record_plain u).
  { destruct (break is_query_or_fragment rest) as [opaque rest'] eqn:E.
    destruct (query_fragment false rest') as [query fragment].
    intros [= <-]. repeat split; cbn; [exact Hs|].
    apply percent_encode_plain. exact (break_plain _ _ _ _ E). }
  destruct rest as [|c r]; [exact Hopaque|].
  destruct (Ascii.eqb c "/"%char) eqn:Ec.
  - apply Ascii.eqb_eq in Ec as ->.
    destruct r as [|c' r']; [exact (Hpath "")|].
    destruct (Ascii.eqb c' "/"%char) eqn:Ec'.
    + apply Ascii.eqb_eq in Ec' as ->. apply authority_state_clean, Hs.
    + revert Ec'. ascii_cases c'; intros Ec'.
      all: try (vm_compute in Ec'; discriminate Ec').
      all: match goal with
           | |- context [path_state false [] "" ?x] => exact (Hpath x)
           end.
  - revert Ec. ascii_cases c; intros Ec;
      first [exact Hopaque | vm_compute in Ec; discriminate Ec].
Qed.

Lemma URL_new_clean (input : string) (u : URL) :
  URL_new input = Some u ->
  plain_string (protocol u) /\
  forallb_string host_char (hostname u) = true /\
  forallb_string is_digit (port u) = true /\
  plain_string (pathname u).
Proof.
  unfold URL_new. destruct (basic_url_parse input) as [r|] eqn:E; [|discriminate].
  intros [= <-]. destruct (basic_url_parse_clean _ _ E) as (Hs & Hh & Hp).
  cbn. repeat split; try assumption.
  - unfold plain_string in *. now rewrite forallb_string_app, Hs.
  - destruct (url_port r); [apply N_to_string_digits|reflexivity].
Qed.
End WhatwgFacts.

(** ** HostResolver *)

Section HostResolverFacts.

Variable new_URL : string -> option URL.
Variable OLLAMA_LOCAL_URL : string.

Lemma falsy_false (s : string) : s <> "" -> JsString.falsy s = false.
Proof.
  intros Hs. unfold JsString.falsy. now apply String.eqb_neq.
Qed.

(** [formatHost] through its stages: the flag, the string parsed, the port
    chosen and the assembly of the four getters it reads. *)
Lemma formatHost_stages (host : string) :
  host <> "" ->
  formatHost new_URL OLLAMA_LOCAL_URL host =
    (url ← new_URL (url_input host);
     Some (assemble (protocol url) (hostname url)
             (effective_port (isExplicitProtocol host) url) (pathname url))).
Proof.
  intros Hs. unfold formatHost, url_input, isExplicitProtocol.
  rewrite (falsy_false _ Hs).
  destruct (JsString.startsWith host ":"), (JsString.includes host "://"); reflexivity.
Qed.

(** A host that starts with [:] reaches [new URL] with the flag cleared and
    with both prefixes in front of it. *)
Lemma url_input_port_only (rest : string) :
  isExplicitProtocol (String ":" rest) = false /\
  url_input (String ":" rest) = "http://http://127.0.0.1:" ++ rest.
Proof.
  assert (Hp : String.prefix ":" (String ":" rest) = true) by (now destruct rest).
  unfold url_input, isExplicitProtocol, JsString.startsWith. rewrite Hp.
  rewrite andb_false_r. split; reflexivity.
Qed.

End HostResolverFacts.

(** C1 (the code departs from it).  A host that starts with [:] gets the
    default local hostname and the [http] scheme in front, and the flag is
    cleared; but with the flag cleared the scheme is put in front a second
    time, so the URL parsed is [http://http://127.0.0.1:...], whose host is
    [http].  For [":9999"] the resolver returns
    ["http://http:11434//127.0.0.1:9999"], not ["http://127.0.0.1:9999"]. *)
Theorem formatHost_port_only :
  (forall new_URL local rest,
      formatHost new_URL local (String ":" rest) =
        (url ← new_URL ("http://http://127.0.0.1:" ++ rest);
         Some (assemble (protocol url) (hostname url)
                 (effective_port false url) (pathname url)))) /\
  (forall local,
      formatHost Whatwg.URL_new local ":9999" = Some "http://http:11434//127.0.0.1:9999").
Proof.
  split.
  - intros new_URL local rest.
    rewrite formatHost_stages by discriminate.
    destruct (url_input_port_only rest) as [-> ->]. reflexivity.
  - intros local. vm_compute. reflexivity.
Qed.

(** C7.  When the parsed URL carries no port, the port is chosen by the
    [isExplicitProtocol] flag: 11434 when the flag is clear, whatever the
    scheme; when it is set, 443 for [https:] and 80 otherwise, so for
    [http:].  Hence ["example.com"] resolves to ["http://example.com:11434"]
    and ["https://example.com"] to ["https://example.com:443"]. *)
Theorem default_port_by_flag :
  (forall new_URL local host url,
      host <> "" ->
      new_URL (url_input host) = Some url ->
      port url = "" ->
      formatHost new_URL local host =
        Some (assemble (protocol url) (hostname url)
                (if isExplicitProtocol host
                 then if String.eqb (protocol url) "https:" then "443" else "80"
                 else "11434")
                (pathname url))) /\
  (forall local,
      formatHost Whatwg.URL_new local "example.com" = Some "http://example.com:11434") /\
  (forall local,
      formatHost Whatwg.URL_new local "https://example.com" = Some "https://example.com:443").
Proof.
  split; [|split].
  - intros new_URL local host url Hne Hurl Hport.
    rewrite formatHost_stages, Hurl by assumption. simpl.
    unfold effective_port. rewrite Hport. simpl.
    now destruct (isExplicitProtocol host).
  - intros local. vm_compute. reflexivity.
  - intros local. vm_compute. reflexivity.
Qed.

Lemma default_port_by_flag_witness :
  "http://example.com" <> "" /\
  Whatwg.URL_new (url_input "http://example.com") =
    Some (mkURL "http:" "" "" "example.com" "" "/" "" "") /\
  formatHost Whatwg.URL_new "" "http://example.com" = Some "http://example.com:80".
Proof.
  split; [discriminate|]. split; [vm_compute; reflexivity|].
  exact (proj1 default_port_by_flag Whatwg.URL_new "" "http://example.com"
           (mkURL "http:" "" "" "example.com" "" "/" "" "")
           ltac:(discriminate) ltac:(vm_compute; reflexivity) eq_refl).
Defined.

(** ** Resolving a target again

    The URL parser reads the text of a target with a special scheme back
    into the record it was assembled from. *)

Section CanonicalTargetFacts.
Import Whatwg.

Ltac ascii_cases c := destruct c as [[|] [|] [|] [|] [|] [|] [|] [|]].

Lemma append_cons (x : ascii) (a b : string) : String x a ++ b = String x (a ++ b).
Proof. reflexivity. Qed.

Lemma append_nil_l (a : string) : "" ++ a = a.
Proof. reflexivity. Qed.

Lemma append_assoc (a b c : string) : (a ++ b) ++ c = a ++ b ++ c.
Proof. induction a as [|x a IH]; [reflexivity|]. now rewrite !append_cons, IH. Qed.

Lemma append_nil_r (a : string) : a ++ "" = a.
Proof. induction a as [|x a IH]; [reflexivity|]. now rewrite append_cons, IH. Qed.

Lemma encode_char_good (c : ascii) :
  is_slash true c = false -> is_query_or_fragment c = false ->
  good_chars (encode_char path_set c).
Proof.
  unfold good_chars. revert c.
  assert (H : forall c, is_slash true c = false -> is_query_or_fragment c = false ->
                        forallb_string good_char (encode_char path_set c) = true).
  { intros c. ascii_cases c; vm_compute; congruence. }
  exact H.
Qed.

Lemma good_chars_app (a b : string) : good_chars a -> good_chars b -> good_chars (a ++ b).
Proof. unfold good_chars. intros Ha Hb. now rewrite forallb_string_app, Ha, Hb. Qed.

Lemma end_segment_good (path : list string) (buf : string) (slash : bool) :
  Forall good_segment path -> good_chars buf -> Forall good_segment (end_segment path buf slash).
Proof.
  intros Hp Hb. unfold end_segment.
  assert (He : good_segment "") by (repeat split).
  destruct (is_double_dot buf) eqn:Hdd; [|destruct (is_single_dot buf) eqn:Hsd].
  - destruct slash.
    + now apply Forall_removelast.
    + apply Forall_app. split; [now apply Forall_removelast|]. now repeat constructor.
  - destruct slash; [assumption|]. apply Forall_app. split; [assumption|]. now repeat constructor.
  - apply Forall_app. split; [assumption|]. repeat constructor; assumption.
Qed.

Lemma path_state_good (s : string) :
  forall path buf segments rest,
    path_state true path buf s = (segments, rest) ->
    Forall good_segment path -> good_chars buf -> Forall good_segment segments.
Proof.
  induction s as [|c s IH]; intros path buf segments rest; cbn [path_state].
  - intros [= <- <-] Hp Hb. now apply end_segment_good.
  - destruct (is_slash true c) eqn:Hs.
    + intros H Hp Hb. apply (IH _ _ _ _ H); [now apply end_segment_good|reflexivity].
    + destruct (is_query_or_fragment c) eqn:Hq.
      * intros [= <- <-] Hp Hb. now apply end_segment_good.
      * intros H Hp Hb. apply (IH _ _ _ _ H); [assumption|].
        apply good_chars_app; [assumption|]. now apply encode_char_good.
Qed.

(** Re-reading a serialized path. *)
Lemma good_char_step (c : ascii) :
  good_char c = true ->
  is_slash true c = false /\ is_query_or_fragment c = false /\
  encode_char path_set c = String c "".
Proof. ascii_cases c; vm_compute; intuition congruence. Qed.

Lemma path_state_chars (s r : string) :
  forall acc buf, good_chars s ->
    path_state true acc buf (s ++ r) = path_state true acc (buf ++ s) r.
Proof.
  induction s as [|c s IH]; intros acc buf Hs.
  - now rewrite append_nil_r.
  - unfold good_chars in Hs. cbn [forallb_string] in Hs.
    apply andb_prop in Hs as [Hc Hs].
    destruct (good_char_step c Hc) as (H1 & H2 & H3).
    rewrite append_cons. cbn [path_state]. rewrite H1, H2, H3, (IH _ _ Hs).
    now rewrite append_assoc.
Qed.

Lemma path_state_serialize (segs : list string) :
  forall acc s, Forall good_segment segs -> good_segment s ->
    path_state true acc "" (s ++ serialize_segments segs) = ((acc ++ s :: segs)%list, "").
Proof.
  induction segs as [|s' segs IH]; intros acc s Hsegs (Hs & Hsd & Hdd).
  - cbn [serialize_segments]. rewrite path_state_chars by assumption.
    rewrite append_nil_l. cbn [path_state]. unfold end_segment. now rewrite Hdd, Hsd.
  - cbn [serialize_segments]. rewrite path_state_chars by assumption.
    rewrite append_nil_l, append_cons. cbn [path_state].
    change (is_slash true "/"%char) with true. cbv iota.
    unfold end_segment at 1. rewrite Hdd, Hsd.
    inversion Hsegs as [|? ? Hs' Hsegs']; subst.
    rewrite (IH _ _ Hsegs' Hs'). now rewrite <- app_assoc.
Qed.

Lemma break_app (p : ascii -> bool) (a b : string) :
  forallb_string (not_char p) a = true ->
  (b = "" \/ exists c r, b = String c r /\ p c = true) ->
  break p (a ++ b) = (a, b).
Proof.
  intros Ha Hb. induction a as [|x a IH].
  - rewrite append_nil_l. destruct Hb as [->|(c & r & -> & Hc)]; [reflexivity|].
    cbn [break]. now rewrite Hc.
  - cbn [forallb_string] in Ha. apply andb_prop in Ha as [Hx Ha].
    rewrite append_cons. cbn [break]. unfold not_char in Hx.
    apply negb_true_iff in Hx. now rewrite Hx, (IH Ha).
Qed.

Lemma split_last_none (p : ascii -> bool) (a : string) :
  forallb_string (not_char p) a = true -> split_last p a = None.
Proof.
  induction a as [|x a IH]; [reflexivity|].
  cbn [forallb_string split_last]. intros [Hx Ha]%andb_prop.
  unfold not_char in Hx. apply negb_true_iff in Hx. now rewrite (IH Ha), Hx.
Qed.

Lemma host_state_app (h t : string) :
  forallb_string (not_char (one_of [58; 91; 93])) h = true ->
  host_state false (h ++ String ":" t) = (h, Some t).
Proof.
  induction h as [|x h IH].
  - reflexivity.
  - cbn [forallb_string]. intros [Hx Hh]%andb_prop.
    rewrite append_cons. cbn [host_state].
    assert (H : is_code 58 x = false /\ is_code 91 x = false /\ is_code 93 x = false).
    { revert Hx. clear. ascii_cases x; vm_compute; intuition congruence. }
    destruct H as (-> & -> & ->). cbn [andb]. now rewrite (IH Hh).
Qed.

Lemma strip_leading_visible (s : string) :
  forallb_string visible s = true -> strip_leading s = s.
Proof.
  destruct s as [|c s]; [reflexivity|]. cbn [forallb_string strip_leading].
  intros [Hc _]%andb_prop.
  assert (H : is_c0_or_space c = false).
  { revert Hc. clear. ascii_cases c; vm_compute; congruence. }
  now rewrite H.
Qed.

Lemma strip_trailing_visible (s : string) :
  forallb_string visible s = true -> strip_trailing s = s.
Proof.
  induction s as [|c s IH]; [reflexivity|]. cbn [forallb_string strip_trailing].
  intros [Hc Hs]%andb_prop.
  assert (H : is_c0_or_space c = false).
  { revert Hc. clear. ascii_cases c; vm_compute; congruence. }
  now rewrite H, (IH Hs).
Qed.

Lemma filter_visible (s : string) :
  forallb_string visible s = true ->
  filter_string (fun c => negb (is_tab_or_newline c)) s = s.
Proof.
  induction s as [|c s IH]; [reflexivity|]. cbn [forallb_string filter_string].
  intros [Hc Hs]%andb_prop.
  assert (H : is_tab_or_newline c = false).
  { revert Hc. clear. ascii_cases c; vm_compute; congruence. }
  now rewrite H, (IH Hs).
Qed.

(** Decimal numerals read back. *)
Lemma digits_value_uint_acc (d : Decimal.uint) (acc : positive) :
  digits_value 10 (NilEmpty.string_of_uint d) (Npos acc) = Npos (Pos.of_uint_acc d acc).
Proof.
  revert acc. induction d; intros acc; cbn [NilEmpty.string_of_uint digits_value Pos.of_uint_acc];
    [reflexivity|..]; rewrite <- IHd; f_equal; vm_compute hex_value; lia.
Qed.

Lemma digits_value_uint (d : Decimal.uint) :
  digits_value 10 (NilEmpty.string_of_uint d) 0 = N.of_uint d.
Proof.
  induction d; cbn [NilEmpty.string_of_uint digits_value]; [reflexivity|exact IHd|..];
    unfold N.of_uint; cbn [Pos.of_uint]; rewrite <- digits_value_uint_acc; reflexivity.
Qed.

Lemma N_to_uint_nonnil (n : N) : N.to_uint n <> Decimal.Nil.
Proof.
  destruct n as [|p]; [discriminate|]. apply DecimalPos.Unsigned.to_uint_nonnil.
Qed.

Lemma N_to_string_value (n : N) : digits_value 10 (N_to_string n) 0 = n.
Proof.
  unfold N_to_string, NilZero.string_of_uint.
  pose proof (N_to_uint_nonnil n) as Hn.
  pose proof (digits_value_uint (N.to_uint n)) as Hd.
  rewrite DecimalN.Unsigned.of_to in Hd.
  destruct (N.to_uint n); [contradiction|..]; exact Hd.
Qed.

Lemma N_to_string_nonempty (n : N) : N_to_string n <> "".
Proof.
  unfold N_to_string, NilZero.string_of_uint.
  pose proof (N_to_uint_nonnil n) as Hn.
  destruct (N.to_uint n); [contradiction|..]; discriminate.
Qed.

Lemma port_state_inv (scheme t : string) (p : N) :
  port_state scheme t = Some (Some p) ->
  (p <= 65535)%N /\ default_port scheme <> Some p.
Proof.
  unfold port_state. destruct (negb _); [discriminate|].
  destruct (String.eqb t ""); [discriminate|]. cbv zeta.
  destruct (65535 <? digits_value 10 t 0)%N eqn:Hle; [discriminate|].
  destruct (bool_decide _) eqn:Hd; [discriminate|]. intros [= <-].
  split; [apply N.ltb_ge in Hle; exact Hle|].
  now apply bool_decide_eq_false in Hd.
Qed.

Lemma port_state_reparse (scheme : string) (p : N) :
  (p <= 65535)%N -> default_port scheme <> Some p ->
  port_state scheme (N_to_string p) = Some (Some p).
Proof.
  intros Hle Hd. unfold port_state.
  rewrite N_to_string_digits. cbn [negb].
  destruct (String.eqb (N_to_string p) "") eqn:He.
  { apply String.eqb_eq in He. now destruct (N_to_string_nonempty p). }
  cbv zeta. rewrite N_to_string_value.
  apply N.ltb_ge in Hle. rewrite Hle.
  now rewrite bool_decide_eq_false_2.
Qed.

(** Canonical hosts. *)

Lemma percent_decode_id (s : string) :
  forallb_string (not_char (is_code 37)) s = true -> percent_decode s = s.
Proof.
  induction s as [|c s IH]; [reflexivity|]. cbn [forallb_string percent_decode].
  intros [Hc Hs]%andb_prop. unfold not_char in Hc. apply negb_true_iff in Hc.
  now rewrite Hc, (IH Hs).
Qed.

Lemma to_lower_idem (c : ascii) : to_lower (to_lower c) = to_lower c.
Proof. ascii_cases c; reflexivity. Qed.

Lemma lowercase_idem (s : string) : lowercase (lowercase s) = lowercase s.
Proof.
  induction s as [|c s IH]; [reflexivity|]. cbn [lowercase]. now rewrite to_lower_idem, IH.
Qed.

Lemma lowercase_ascii (s : string) :
  existsb_string (fun c => 127 <? code c)%nat s = false ->
  existsb_string (fun c => 127 <? code c)%nat (lowercase s) = false.
Proof.
  induction s as [|c s IH]; [reflexivity|]. cbn [lowercase existsb_string].
  intros [Hc Hs]%orb_false_elim. rewrite (IH Hs), orb_false_r.
  revert Hc. clear. ascii_cases c; vm_compute; congruence.
Qed.

Lemma host_safe_of (s : string) :
  existsb_string forbidden_domain s = false ->
  existsb_string (fun c => 127 <? code c)%nat s = false ->
  forallb_string host_safe s = true.
Proof.
  induction s as [|c s IH]; [reflexivity|]. cbn [existsb_string forallb_string].
  intros [Hc Hs]%orb_false_elim [Hc' Hs']%orb_false_elim.
  rewrite (IH Hs Hs'), andb_true_r. unfold host_safe. rewrite Hc. cbn [negb andb].
  apply Nat.leb_le. apply Nat.ltb_ge in Hc'. exact Hc'.
Qed.

Lemma host_safe_facts (c : ascii) :
  host_safe c = true ->
  is_code 37 c = false /\ is_code 91 c = false /\ forbidden_domain c = false /\
  (127 <? code c)%nat = false /\ visible c = true /\
  one_of [58; 91; 93] c = false /\ authority_end true c = false /\
  is_code 64 c = false /\ one_of [47; 92] c = false.
Proof. ascii_cases c; vm_compute; intuition congruence. Qed.

Lemma host_safe_all (P : ascii -> bool) (s : string) :
  (forall c, host_safe c = true -> P c = true) ->
  forallb_string host_safe s = true -> forallb_string P s = true.
Proof. apply forallb_string_impl. Qed.

Lemma forall_not_exists (P : ascii -> bool) (s : string) :
  forallb_string (not_char P) s = true -> existsb_string P s = false.
Proof.
  induction s as [|c s IH]; [reflexivity|]. cbn [forallb_string existsb_string].
  intros [Hc Hs]%andb_prop. unfold not_char in Hc. apply negb_true_iff in Hc.
  now rewrite Hc, (IH Hs).
Qed.

Lemma canonical_domain (domain : string) :
  let ad := lowercase domain in
  existsb_string (fun c => 127 <? code c)%nat domain = false ->
  existsb (String.prefix "xn--") (split_on is_dot ad) = false ->
  String.eqb ad "" = false ->
  existsb_string forbidden_domain ad = false ->
  ends_in_number ad = false ->
  canonical_host ad.
Proof.
  intros ad Hascii Hxn Hne Hforb Hnum.
  assert (Hascii' : existsb_string (fun c => 127 <? code c)%nat ad = false)
    by now apply lowercase_ascii.
  assert (Hsafe : forallb_string host_safe ad = true) by now apply host_safe_of.
  split; [|split; [exact Hsafe|now apply String.eqb_neq]].
  unfold host_parse_special.
  assert (Hb : starts_with_bracket ad = false).
  { destruct ad as [|c r]; [reflexivity|]. cbn [starts_with_bracket].
    cbn [forallb_string] in Hsafe. apply andb_prop in Hsafe as [Hc _].
    now destruct (host_safe_facts c Hc) as (_ & -> & _). }
  rewrite Hb.
  rewrite percent_decode_id.
  2:{ apply (host_safe_all _ _) with (2 := Hsafe). intros c H.
      unfold not_char. now destruct (host_safe_facts c H) as (-> & _). }
  rewrite Hascii'. cbv zeta.
  unfold ad. rewrite lowercase_idem. fold ad.
  now rewrite Hxn, Hne, Hforb, Hnum.
Qed.

(** IPv4 addresses read back. *)
Lemma ipv4_parse_bound (s : string) (n : N) :
  ipv4_parse s = Some n -> (n < 4294967296)%N.
Proof.
  unfold ipv4_parse.
  destruct (4 <? List.length (ipv4_parts s))%nat eqn:Hlen; [discriminate|].
  destruct (mapM ipv4_number (ipv4_parts s)) as [numbers|] eqn:Hm; [|discriminate].
  apply length_mapM in Hm. apply Nat.ltb_ge in Hlen. rewrite Hm in Hlen.
  clear Hm. cbv zeta.
  destruct (existsb _ (removelast numbers)) eqn:Hfront; [discriminate|].
  destruct (_ <=? _)%N eqn:Hfinal; [discriminate|].
  intros [= <-]. apply N.leb_gt in Hfinal.
  destruct numbers as [|a [|b [|c [|d [|e rest]]]]].
  - reflexivity.
  - change (a < 4294967296)%N in Hfinal.
    change ((a + 0 < 4294967296)%N). lia.
  - change (b < 16777216)%N in Hfinal.
    cbn [removelast existsb] in Hfront. apply orb_false_elim in Hfront as [Ha _].
    apply N.ltb_ge in Ha.
    change ((b + (0 + a * 16777216) < 4294967296)%N). lia.
  - change (c < 65536)%N in Hfinal.
    cbn [removelast existsb] in Hfront.
    apply orb_false_elim in Hfront as [Ha Hfront].
    apply orb_false_elim in Hfront as [Hb _].
    apply N.ltb_ge in Ha. apply N.ltb_ge in Hb.
    change ((c + (0 + a * 16777216 + b * 65536) < 4294967296)%N). lia.
  - change (d < 256)%N in Hfinal.
    cbn [removelast existsb] in Hfront.
    apply orb_false_elim in Hfront as [Ha Hfront].
    apply orb_false_elim in Hfront as [Hb Hfront].
    apply orb_false_elim in Hfront as [Hc _].
    apply N.ltb_ge in Ha. apply N.ltb_ge in Hb. apply N.ltb_ge in Hc.
    change ((d + (0 + a * 16777216 + b * 65536 + c * 256) < 4294967296)%N). lia.
  - cbn [List.length] in Hlen. lia.
Qed.

Lemma byte_number (a : N) :
  (a < 256)%N -> ipv4_number (N_to_string a) = Some a.
Proof.
  intros Ha.
  assert (Hall : forallb (fun k => bool_decide (ipv4_number (N_to_string k) = Some k))
                   (N.of_nat <$> seq 0 256) = true) by (vm_compute; reflexivity).
  rewrite forallb_forall in Hall.
  eapply bool_decide_eq_true_1, Hall. apply list_elem_of_In.
  apply list_elem_of_fmap. exists (N.to_nat a). split; [now rewrite N2Nat.id|].
  apply list_elem_of_In, in_seq. lia.
Qed.

Lemma ipv4_char_facts (c : ascii) :
  ipv4_char c = true ->
  host_safe c = true /\ is_upper c = false.
Proof. ascii_cases c; vm_compute; intuition congruence. Qed.

Lemma digit_facts (c : ascii) :
  is_digit c = true ->
  ipv4_char c = true /\ is_dot c = false /\ is_code 91 c = false /\ c <> "x"%char.
Proof. ascii_cases c; vm_compute; intuition congruence. Qed.

Lemma lowercase_id (s : string) :
  forallb_string (not_char is_upper) s = true -> lowercase s = s.
Proof.
  induction s as [|c s IH]; [reflexivity|]. cbn [forallb_string lowercase].
  intros [Hc Hs]%andb_prop. unfold not_char in Hc. apply negb_true_iff in Hc.
  unfold to_lower. now rewrite Hc, (IH Hs).
Qed.

Lemma split_on_free (p : ascii -> bool) (s : string) :
  forallb_string (not_char p) s = true -> split_on p s = [s].
Proof.
  induction s as [|c s IH]; [reflexivity|]. cbn [forallb_string split_on].
  intros [Hc Hs]%andb_prop. unfold not_char in Hc. apply negb_true_iff in Hc.
  now rewrite Hc, (IH Hs).
Qed.

Lemma split_on_app (p : ascii -> bool) (a r : string) (d : ascii) :
  forallb_string (not_char p) a = true -> p d = true ->
  split_on p (a ++ String d r) = a :: split_on p r.
Proof.
  intros Ha Hd. induction a as [|c a IH].
  - rewrite append_nil_l. cbn [split_on]. now rewrite Hd.
  - cbn [forallb_string] in Ha. apply andb_prop in Ha as [Hc Ha].
    unfold not_char in Hc. apply negb_true_iff in Hc.
    rewrite append_cons. cbn [split_on]. now rewrite Hc, (IH Ha).
Qed.

Lemma digits_dot_free (s : string) :
  forallb_string is_digit s = true -> forallb_string (not_char is_dot) s = true.
Proof.
  apply forallb_string_impl. intros c Hc. unfold not_char.
  now destruct (digit_facts c Hc) as (_ & -> & _).
Qed.

Lemma digits_no_xn (s : string) :
  forallb_string is_digit s = true -> String.prefix "xn--" s = false.
Proof.
  destruct s as [|c s]; [reflexivity|]. cbn [forallb_string].
  intros [Hc _]%andb_prop. destruct (digit_facts c Hc) as (_ & _ & _ & Hx).
  cbn [String.prefix]. destruct (ascii_dec "x" c) as [<-|]; [contradiction|reflexivity].
Qed.

Lemma canonical_ipv4 (n : N) : (n < 4294967296)%N -> canonical_host (ipv4_serialize n).
Proof.
  intros Hn. unfold ipv4_serialize.
  remember (n / 256 ^ 3)%N as a eqn:Ea. remember (n / 256 ^ 2 mod 256)%N as b eqn:Eb.
  remember (n / 256 mod 256)%N as c eqn:Ec. remember (n mod 256)%N as d eqn:Ed.
  assert (Ha : (a < 256)%N).
  { rewrite Ea. revert Hn. clear. change (256 ^ 3)%N with 16777216%N. intros.
    zify. Z.to_euclidean_division_equations. lia. }
  assert (Hb : (b < 256)%N) by (rewrite Eb; now apply N.mod_lt).
  assert (Hc : (c < 256)%N) by (rewrite Ec; now apply N.mod_lt).
  assert (Hd : (d < 256)%N) by (rewrite Ed; now apply N.mod_lt).
  assert (Hsum : (d + (0 + a * 256 ^ (3 - 0) + b * 256 ^ (3 - (0 + 1))
                        + c * 256 ^ (3 - (0 + 1 + 1))) = n)%N).
  { rewrite Ea, Eb, Ec, Ed. clear. change (256 ^ (3 - 0))%N with 16777216%N.
    change (256 ^ (3 - (0 + 1)))%N with 65536%N.
    change (256 ^ (3 - (0 + 1 + 1)))%N with 256%N.
    change (256 ^ 3)%N with 16777216%N. change (256 ^ 2)%N with 65536%N.
    zify. Z.to_euclidean_division_equations. lia. }
  pose proof (byte_number a Ha) as Na. pose proof (byte_number b Hb) as Nb.
  pose proof (byte_number c Hc) as Nc. pose proof (byte_number d Hd) as Nd.
  pose proof (N_to_string_digits a) as Da. pose proof (N_to_string_digits b) as Db.
  pose proof (N_to_string_digits c) as Dc. pose proof (N_to_string_digits d) as Dd.
  pose proof (N_to_string_nonempty a) as Ea'. pose proof (N_to_string_nonempty d) as Ed'.
  remember (N_to_string a) as A eqn:EA. remember (N_to_string b) as B eqn:EB.
  remember (N_to_string c) as C eqn:EC. remember (N_to_string d) as D eqn:ED.
  change ("." ++ B ++ "." ++ C ++ "." ++ D) with (String "." (B ++ String "." (C ++ String "." D))).
  set (S := A ++ String "." (B ++ String "." (C ++ String "." D))).
  assert (Hsplit : split_on is_dot S = [A; B; C; D]).
  { unfold S. rewrite !split_on_app by (auto using digits_dot_free).
    now rewrite split_on_free by (auto using digits_dot_free). }
  assert (Hchars : forallb_string ipv4_char S = true).
  { unfold S. rewrite !forallb_string_app. cbn [forallb_string].
    rewrite !forallb_string_app. cbn [forallb_string].
    rewrite !forallb_string_app. cbn [forallb_string].
    assert (Hdig : forall s, forallb_string is_digit s = true ->
                             forallb_string ipv4_char s = true).
    { intros s. apply forallb_string_impl. intros x Hx. now destruct (digit_facts x Hx). }
    now rewrite (Hdig A), (Hdig B), (Hdig C), (Hdig D). }
  assert (Hsafe : forallb_string host_safe S = true).
  { revert Hchars. apply forallb_string_impl. intros x Hx. now destruct (ipv4_char_facts x Hx). }
  assert (Hne : S <> "").
  { unfold S. clear -Ea'. destruct A; [contradiction|discriminate]. }
  split; [|split; assumption].
  unfold host_parse_special.
  assert (Hbr : starts_with_bracket S = false).
  { unfold S. clear -Ea' Da. destruct A as [|x A']; [contradiction|]. rewrite append_cons.
    cbn [starts_with_bracket]. cbn [forallb_string] in Da.
    apply andb_prop in Da as [Hx _]. now destruct (digit_facts x Hx) as (_ & _ & -> & _). }
  rewrite Hbr. rewrite percent_decode_id.
  2:{ revert Hsafe. apply forallb_string_impl. intros x Hx. unfold not_char.
      now destruct (host_safe_facts x Hx) as (-> & _). }
  assert (Hascii : existsb_string (fun c => 127 <? code c)%nat S = false).
  { apply forall_not_exists. revert Hsafe. apply forallb_string_impl. intros x Hx.
    unfold not_char. now destruct (host_safe_facts x Hx) as (_ & _ & _ & -> & _). }
  rewrite Hascii. cbv zeta. rewrite lowercase_id.
  2:{ revert Hchars. apply forallb_string_impl. intros x Hx. unfold not_char.
      now destruct (ipv4_char_facts x Hx) as (_ & ->). }
  rewrite Hsplit. cbn [existsb]. rewrite !digits_no_xn by assumption. cbn [orb].
  apply String.eqb_neq in Hne. rewrite Hne.
  assert (Hforb : existsb_string forbidden_domain S = false).
  { apply forall_not_exists. revert Hsafe. apply forallb_string_impl. intros x Hx.
    unfold not_char. now destruct (host_safe_facts x Hx) as (_ & _ & -> & _). }
  rewrite Hforb.
  assert (Hlast : List.last [A; B; C; D] "x" = D) by reflexivity.
  assert (Hend : ends_in_number S = true).
  { unfold ends_in_number. rewrite Hsplit, Hlast. clear -Ed' Dd.
    destruct D as [|x D'] eqn:ED'; [contradiction|]. rewrite <- ED' in *.
    apply String.eqb_neq in Ed'. now rewrite Ed', Dd. }
  rewrite Hend.
  assert (Hparts : ipv4_parts S = [A; B; C; D]).
  { unfold ipv4_parts. rewrite Hsplit, Hlast. clear -Ed'.
    destruct D; [contradiction|reflexivity]. }
  unfold ipv4_parse. rewrite Hparts. cbn [List.length Nat.ltb Nat.leb].
  cbn [mapM]. rewrite Na, Nb, Nc, Nd. cbn [mbind option_bind mret option_ret].
  cbn [List.last removelast existsb List.length].
  assert (Ha'' : (255 <? a)%N = false) by (apply N.ltb_ge; lia).
  assert (Hb'' : (255 <? b)%N = false) by (apply N.ltb_ge; lia).
  assert (Hc'' : (255 <? c)%N = false) by (apply N.ltb_ge; lia).
  rewrite Ha'', Hb'', Hc''. cbn [orb].
  assert (Hd'' : (256 ^ (5 - N.of_nat 4) <=? d)%N = false).
  { apply N.leb_gt. exact Hd. }
  rewrite Hd''. cbn [fold_left snd]. rewrite Hsum.
  unfold S. rewrite EA, EB, EC, ED, Ea, Eb, Ec, Ed. reflexivity.
Qed.

Lemma host_parse_special_canonical (input h : string) :
  host_parse_special input = Some h -> canonical_host h.
Proof.
  unfold host_parse_special.
  destruct (starts_with_bracket input); [discriminate|].
  destruct (existsb_string _ (percent_decode input)) eqn:Hascii; [discriminate|]. cbv zeta.
  destruct (existsb _ _) eqn:Hxn; [discriminate|].
  destruct (String.eqb _ _) eqn:Hne; [discriminate|].
  destruct (existsb_string forbidden_domain _) eqn:Hforb; [discriminate|].
  destruct (ends_in_number _) eqn:Hnum.
  - destruct (ipv4_parse _) as [n|] eqn:Hn; [|discriminate]. intros [= <-].
    apply canonical_ipv4, (ipv4_parse_bound _ _ Hn).
  - intros [= <-]. now apply canonical_domain.
Qed.

(** What the parser leaves in the record of a URL with a special scheme. *)

Lemma authority_state_scheme (scheme s : string) (r : url_record) :
  authority_state scheme s = Some r -> url_scheme r = scheme.
Proof.
  unfold authority_state.
  destruct (break _ s) as [authority rest].
  destruct (match split_last (is_code 64) authority with Some _ => _ | None => _ end)
    as [[[user pass] hostport]|]; [|discriminate].
  cbn [mbind option_bind].
  destruct (host_state false hostport) as [hostbuf porttext].
  destruct (_ && _); [discriminate|].
  destruct (host_parse _ hostbuf) as [host|]; [|discriminate].
  cbn [mbind option_bind].
  destruct (match porttext with Some _ => _ | None => _ end) as [port|]; [|discriminate].
  cbn [mbind option_bind].
  destruct (match rest with EmptyString => _ | String _ _ => _ end) as [segments rest'].
  destruct (query_fragment _ rest') as [query fragment].
  now intros [= <-].
Qed.

Lemma authority_state_canonical (scheme s : string) (r : url_record) :
  is_special scheme = true -> authority_state scheme s = Some r -> canonical_record r.
Proof.
  intros Hsp H. pose proof (authority_state_scheme _ _ _ H) as Hscheme.
  revert H. unfold authority_state. rewrite Hsp.
  destruct (break _ s) as [authority rest].
  destruct (match split_last (is_code 64) authority with Some _ => _ | None => _ end)
    as [[[user pass] hostport]|]; [|discriminate].
  cbn [mbind option_bind].
  destruct (host_state false hostport) as [hostbuf porttext].
  destruct (_ && _); [discriminate|].
  cbn [host_parse].
  destruct (host_parse_special hostbuf) as [host|] eqn:Hhost; [|discriminate].
  cbn [mbind option_bind].
  destruct (match porttext with Some _ => _ | None => _ end) as [port|] eqn:Hport; [|discriminate].
  cbn [mbind option_bind].
  assert (Hpath : forall segments rest',
    match rest with
    | EmptyString => path_state true [] "" rest
    | String c rest0 =>
        if is_slash true c then path_state true [] "" rest0
        else path_state true [] "" rest
    end = (segments, rest') -> Forall good_segment segments).
  { intros segments rest'. destruct rest as [|c rest0].
    - intros H. apply (path_state_good _ _ _ _ _ H); [constructor|reflexivity].
    - destruct (is_slash true c);
        intros H; apply (path_state_good _ _ _ _ _ H); constructor || reflexivity. }
  destruct (match rest with EmptyString => _ | String _ _ => _ end) as [segments rest'].
  destruct (query_fragment _ rest') as [query fragment].
  intros [= <-]. unfold canonical_record. cbn. repeat split.
  - exists host. split; [reflexivity|]. exact (host_parse_special_canonical _ _ Hhost).
  - destruct port as [p|]; [|exact I]. destruct porttext as [t|]; [|discriminate].
    exact (port_state_inv _ _ _ Hport).
  - exists segments. split; [reflexivity|]. exact (Hpath _ _ eq_refl).
Qed.

Lemma basic_url_parse_scheme (input : string) (r : url_record) :
  basic_url_parse input = Some r ->
  exists rest,
    scheme_start_state
      (filter_string (fun c => negb (is_tab_or_newline c))
         (strip_trailing (strip_leading input))) = Some (url_scheme r, rest) /\
    String.eqb (url_scheme r) "file" = false /\
    (is_special (url_scheme r) = true ->
     authority_state (url_scheme r) (skip_slashes rest) = Some r).
Proof.
  unfold basic_url_parse.
  set (s := filter_string _ _).
  destruct (scheme_start_state s) as [[scheme rest]|] eqn:Hscheme; [|discriminate].
  cbn [mbind option_bind].
  destruct (String.eqb scheme "file") eqn:Hfile; [discriminate|].
  destruct (is_special scheme) eqn:Hsp.
  - intros H. pose proof (authority_state_scheme _ _ _ H) as ->.
    exists rest. now rewrite Hsp.
  - assert (Hgoal : url_scheme r = scheme ->
                    exists rest0,
                      Some (scheme, rest) = Some (url_scheme r, rest0) /\
                      String.eqb (url_scheme r) "file" = false /\
                      (is_special (url_scheme r) = true ->
                       authority_state (url_scheme r) (skip_slashes rest0) = Some r)).
    { intros ->. exists rest. rewrite Hsp, Hfile. repeat split. discriminate. }
    assert (Hpath : forall r0,
      (let '(segments, rest') := path_state false [] "" r0 in
       let '(query, fragment) := query_fragment false rest' in
       Some {| url_scheme := scheme; url_username := ""; url_password := "";
               url_host := None; url_port := None;
               url_path_of := Segments segments;
               url_query := query; url_fragment := fragment |}) = Some r ->
      url_scheme r = scheme).
    { intros r0. destruct (path_state false [] "" r0) as [segments rest'].
      destruct (query_fragment false rest') as [query fragment]. now intros [= <-]. }
    assert (Hopaque :
      (let '(opaque, rest') := break is_query_or_fragment rest in
       let '(query, fragment) := query_fragment false rest' in
       Some {| url_scheme := scheme; url_username := ""; url_password := "";
               url_host := None; url_port := None;
               url_path_of := Opaque (percent_encode c0_control_set opaque);
               url_query := query; url_fragment := fragment |}) = Some r ->
      url_scheme r = scheme).
    { destruct (break is_query_or_fragment rest) as [opaque rest'].
      destruct (query_fragment false rest') as [query fragment]. now intros [= <-]. }
    intros H. apply Hgoal. revert H.
    destruct rest as [|c r1]; [exact Hopaque|].
    destruct (Ascii.eqb c "/"%char) eqn:Ec.
    + apply Ascii.eqb_eq in Ec as ->.
      destruct r1 as [|c' r'].
      { exact (Hpath ""). }
      destruct (Ascii.eqb c' "/"%char) eqn:Ec'.
      * apply Ascii.eqb_eq in Ec' as ->. apply authority_state_scheme.
      * revert Ec'. ascii_cases c'; intros Ec'.
        all: try (vm_compute in Ec'; discriminate Ec').
        all: match goal with
             | |- context [path_state false [] "" ?x] => exact (Hpath x)
             end.
    + revert Ec. ascii_cases c; intros Ec;
        first [exact Hopaque | vm_compute in Ec; discriminate Ec].
Qed.

Lemma special_schemes (scheme : string) :
  is_special scheme = true -> String.eqb scheme "file" = false -> special_scheme scheme.
Proof.
  unfold is_special, default_port, special_scheme. intros H Hfile. rewrite Hfile in H.
  destruct (String.eqb scheme "ftp") eqn:E1; [apply String.eqb_eq in E1; auto|].
  destruct (String.eqb scheme "http") eqn:E2; [apply String.eqb_eq in E2; auto|].
  destruct (String.eqb scheme "https") eqn:E3; [apply String.eqb_eq in E3; auto|].
  destruct (String.eqb scheme "ws") eqn:E4; [apply String.eqb_eq in E4; auto|].
  destruct (String.eqb scheme "wss") eqn:E5; [apply String.eqb_eq in E5; auto 6|].
  discriminate H.
Qed.

(** The text of a target. *)

Lemma target_eq (scheme h port path : string) :
  (scheme ++ ":") ++ "//" ++ h ++ ":" ++ port ++ path = target scheme h port path.
Proof. unfold target. now rewrite append_assoc. Qed.

Lemma forallb_string_cons (P : ascii -> bool) (c : ascii) (s : string) :
  forallb_string P (String c s) = P c && forallb_string P s.
Proof. reflexivity. Qed.

Lemma digits_visible (s : string) :
  forallb_string is_digit s = true -> forallb_string visible s = true.
Proof.
  apply forallb_string_impl. intros c. ascii_cases c; vm_compute; congruence.
Qed.

Lemma good_char_visible (c : ascii) : good_char c = true -> visible c = true.
Proof. ascii_cases c; vm_compute; congruence. Qed.

Lemma serialize_visible (segs : list string) :
  Forall good_segment segs -> forallb_string visible (serialize_segments segs) = true.
Proof.
  induction 1 as [|x segs (Hx & _) _ IH]; [reflexivity|].
  cbn [serialize_segments]. rewrite !forallb_string_app, IH.
  rewrite (forallb_string_impl _ _ _ good_char_visible Hx). reflexivity.
Qed.

Lemma target_visible (scheme h port : string) (segs : list string) :
  special_scheme scheme -> forallb_string host_safe h = true ->
  forallb_string is_digit port = true -> Forall good_segment segs ->
  forallb_string visible (target scheme h port (serialize_segments segs)) = true.
Proof.
  intros Hscheme Hh Hp Hsegs. unfold target.
  rewrite forallb_string_app, !forallb_string_cons, forallb_string_app,
    forallb_string_cons, forallb_string_app.
  rewrite (digits_visible _ Hp), (serialize_visible _ Hsegs).
  assert (Hh' : forallb_string visible h = true).
  { revert Hh. apply forallb_string_impl. intros c Hc.
    now destruct (host_safe_facts c Hc) as (_ & _ & _ & _ & -> & _). }
  rewrite Hh'.
  destruct Hscheme as [->|[->|[->|[->| ->]]]]; reflexivity.
Qed.

Lemma scheme_start_target (scheme rest : string) :
  special_scheme scheme ->
  scheme_start_state (scheme ++ String ":" rest) = Some (scheme, rest) /\
  String.eqb scheme "file" = false /\ is_special scheme = true.
Proof. intros [->|[->|[->|[->| ->]]]]; repeat split. Qed.

Lemma reparse (scheme h port : string) (segs : list string) :
  special_scheme scheme -> canonical_host h ->
  forallb_string is_digit port = true ->
  Forall good_segment segs ->
  basic_url_parse (target scheme h port (serialize_segments segs)) =
    (p ← port_state scheme port;
     Some {| url_scheme := scheme; url_username := ""; url_password := "";
             url_host := Some h; url_port := p;
             url_path_of := Segments (match segs with [] => [""] | _ => segs end);
             url_query := None; url_fragment := None |}).
Proof.
  intros Hscheme (Hparse & Hsafe & Hne) Hport Hsegs.
  unfold basic_url_parse.
  pose proof (target_visible scheme h port segs Hscheme Hsafe Hport Hsegs) as Hvis.
  rewrite (strip_leading_visible _ Hvis), (strip_trailing_visible _ Hvis),
    (filter_visible _ Hvis).
  unfold target.
  destruct (scheme_start_target scheme
              (String "/" (String "/" (h ++ String ":" (port ++ serialize_segments segs))))
              Hscheme) as (Hss & Hfile & Hsp).
  rewrite Hss. cbn [mbind option_bind]. rewrite Hfile, Hsp.
  (* the two slashes, then the host *)
  destruct h as [|c h'] eqn:Eh; [contradiction|]. rewrite <- Eh in *.
  assert (Hskip : skip_slashes
            (String "/" (String "/" (h ++ String ":" (port ++ serialize_segments segs))))
          = h ++ String ":" (port ++ serialize_segments segs)).
  { rewrite Eh, append_cons. cbn [skip_slashes].
    change (one_of [47; 92] "/"%char) with true. cbv iota.
    rewrite Eh in Hsafe. cbn [forallb_string] in Hsafe.
    apply andb_prop in Hsafe as [Hc _].
    now destruct (host_safe_facts c Hc) as (_ & _ & _ & _ & _ & _ & _ & _ & ->). }
  rewrite Hskip. clear Hskip.
  unfold authority_state. rewrite Hsp.
  assert (Hassoc : h ++ String ":" (port ++ serialize_segments segs)
                   = (h ++ String ":" port) ++ serialize_segments segs).
  { rewrite append_assoc. now rewrite append_cons. }
  rewrite Hassoc.
  assert (Hauth : forallb_string (not_char (authority_end true)) (h ++ String ":" port) = true).
  { rewrite forallb_string_app, forallb_string_cons.
    assert (H1 : forallb_string (not_char (authority_end true)) h = true).
    { revert Hsafe. apply forallb_string_impl. intros x Hx. unfold not_char.
      now destruct (host_safe_facts x Hx) as (_ & _ & _ & _ & _ & _ & -> & _). }
    assert (H2 : forallb_string (not_char (authority_end true)) port = true).
    { revert Hport. apply forallb_string_impl. intros x.
      ascii_cases x; vm_compute; congruence. }
    now rewrite H1, H2. }
  rewrite (break_app _ _ _ Hauth).
  2:{ destruct Hsegs as [|s1 segs' _ _]; [now left|]. right.
      cbn [serialize_segments]. eexists _, _. split; [reflexivity|reflexivity]. }
  assert (Hat : forallb_string (not_char (is_code 64)) (h ++ String ":" port) = true).
  { rewrite forallb_string_app, forallb_string_cons.
    assert (H1 : forallb_string (not_char (is_code 64)) h = true).
    { revert Hsafe. apply forallb_string_impl. intros x Hx. unfold not_char.
      now destruct (host_safe_facts x Hx) as (_ & _ & _ & _ & _ & _ & _ & -> & _). }
    assert (H2 : forallb_string (not_char (is_code 64)) port = true).
    { revert Hport. apply forallb_string_impl. intros x.
      ascii_cases x; vm_compute; congruence. }
    now rewrite H1, H2. }
  rewrite (split_last_none _ _ Hat). cbn [mbind option_bind].
  rewrite host_state_app.
  2:{ revert Hsafe. apply forallb_string_impl. intros x Hx. unfold not_char.
      now destruct (host_safe_facts x Hx) as (_ & _ & _ & _ & _ & -> & _). }
  apply String.eqb_neq in Hne. rewrite Hne. cbn [andb].
  cbn [host_parse]. rewrite Hparse. cbn [mbind option_bind].
  destruct (port_state scheme port) as [p|]; [|reflexivity].
  cbn [mbind option_bind].
  destruct Hsegs as [|s1 segs' Hs1 Hsegs'].
  - reflexivity.
  - cbn [serialize_segments]. rewrite append_cons.
    change (is_slash true "/"%char) with true. cbv iota.
    rewrite (path_state_serialize _ _ _ Hsegs' Hs1). reflexivity.
Qed.

(** Trailing slashes. *)
Lemma endsWith_cons (c : ascii) (s : string) :
  JsString.endsWith (String c s) "/" =
    match s with
    | EmptyString => is_code 47 c
    | _ => JsString.endsWith s "/"
    end.
Proof.
  cbn [JsString.endsWith]. destruct s as [|c' s'].
  - cbn [JsString.endsWith]. rewrite orb_false_r. clear. ascii_cases c; reflexivity.
  - replace (String.eqb (String c (String c' s')) "/") with false; [reflexivity|].
    symmetry. apply String.eqb_neq. discriminate.
Qed.

Lemma endsWith_app (a b : string) :
  b <> "" -> JsString.endsWith (a ++ b) "/" = JsString.endsWith b "/".
Proof.
  intros Hb. induction a as [|c a IH]; [reflexivity|].
  rewrite append_cons, endsWith_cons, IH.
  destruct (a ++ b) eqn:E; [|reflexivity].
  destruct a; [rewrite append_nil_l in E; contradiction|discriminate].
Qed.

Lemma endsWith_no_slash (s : string) :
  forallb_string (not_char (is_code 47)) s = true -> JsString.endsWith s "/" = false.
Proof.
  induction s as [|c s IH]; [reflexivity|]. cbn [forallb_string].
  intros [Hc Hs]%andb_prop. rewrite endsWith_cons, (IH Hs).
  unfold not_char in Hc. apply negb_true_iff in Hc. rewrite Hc. now destruct s.
Qed.

Lemma slice_snoc (s : string) (c : ascii) : JsString.slice_0_neg1 (s ++ String c "") = s.
Proof.
  induction s as [|x s IH]; [reflexivity|].
  rewrite append_cons.
  destruct (s ++ String c "") as [|a t] eqn:E.
  { destruct s; discriminate. }
  change (JsString.slice_0_neg1 (String x (String a t)))
    with (String x (JsString.slice_0_neg1 (String a t))).
  now rewrite IH.
Qed.

Lemma strip_slash_snoc (s : string) : strip_slash (s ++ "/") = s.
Proof.
  unfold strip_slash. rewrite endsWith_app by discriminate.
  change (JsString.endsWith "/" "/") with true. cbv iota. apply slice_snoc.
Qed.

Lemma target_app (scheme h port a b : string) :
  target scheme h port (a ++ b) = target scheme h port a ++ b.
Proof.
  unfold target. rewrite append_assoc, !append_cons, append_assoc, append_cons, append_assoc.
  reflexivity.
Qed.

Lemma target_split (scheme h port path : string) :
  target scheme h port path =
    (scheme ++ String ":" (String "/" (String "/" (h ++ ":")))) ++ port ++ path.
Proof.
  unfold target. rewrite append_assoc, !append_cons, append_assoc, append_cons, append_nil_l.
  reflexivity.
Qed.

Lemma target_nonempty (scheme h port path : string) : target scheme h port path <> "".
Proof. unfold target. destruct scheme; discriminate. Qed.

Lemma serialize_snoc (segs : list string) (s : string) :
  serialize_segments (segs ++ [s])%list = serialize_segments segs ++ "/" ++ s.
Proof.
  induction segs as [|x segs IH].
  - cbn [app serialize_segments]. now rewrite append_nil_r, append_nil_l.
  - cbn [app serialize_segments]. rewrite IH, !append_assoc. reflexivity.
Qed.

Lemma digit_no_slash (c : ascii) : is_digit c = true -> not_char (is_code 47) c = true.
Proof. ascii_cases c; vm_compute; congruence. Qed.

Lemma good_char_no_slash (c : ascii) : good_char c = true -> not_char (is_code 47) c = true.
Proof. ascii_cases c; vm_compute; congruence. Qed.

Lemma includes_app (a b sub : string) :
  String.prefix sub b = true -> JsString.includes (a ++ b) sub = true.
Proof.
  intros H. induction a as [|c a IH].
  - rewrite append_nil_l. destruct b; cbn [JsString.includes]; now rewrite H.
  - rewrite append_cons. cbn [JsString.includes]. now rewrite IH, orb_true_r.
Qed.

Lemma target_flags (scheme h port path : string) :
  special_scheme scheme ->
  isExplicitProtocol (target scheme h port path) = true /\
  url_input (target scheme h port path) = target scheme h port path.
Proof.
  intros Hscheme.
  assert (Hinc : JsString.includes (target scheme h port path) "://" = true).
  { unfold target. apply includes_app. cbn [String.prefix].
    now destruct (h ++ String ":" (port ++ path)). }
  assert (Hst : JsString.startsWith (target scheme h port path) ":" = false).
  { destruct Hscheme as [->|[->|[->|[->| ->]]]]; vm_compute; reflexivity. }
  unfold url_input, isExplicitProtocol. now rewrite Hinc, Hst.
Qed.

(** C8 as stated fails.  The resolver takes one trailing slash off, so a path
    that ends in two slashes keeps one: the host ["http://example.com//"]
    resolves to ["http://example.com:80/"], and that string resolves to
    ["http://example.com:80"].  And a URL with another scheme and an empty
    host resolves to a string that the URL parser rejects. *)
Lemma formatHost_not_idempotent :
  formatHost URL_new "http://127.0.0.1:11434" "http://example.com//"
    = Some "http://example.com:80/" /\
  formatHost URL_new "http://127.0.0.1:11434" "http://example.com:80/"
    = Some "http://example.com:80" /\
  formatHost URL_new "http://127.0.0.1:11434" "foo:///p" = Some "foo://:80/p" /\
  formatHost URL_new "http://127.0.0.1:11434" "foo://:80/p" = None /\
  ~ idempotent_everywhere.
Proof.
  split; [vm_compute; reflexivity|]. split; [vm_compute; reflexivity|].
  split; [vm_compute; reflexivity|]. split; [vm_compute; reflexivity|].
  intros H.
  specialize (H "http://127.0.0.1:11434" "http://example.com//" ltac:(discriminate)).
  vm_compute in H. discriminate H.
Qed.

End CanonicalTargetFacts.

Lemma slice_0_neg1_forallb (P : ascii -> bool) (s : string) :
  Whatwg.forallb_string P s = true ->
  Whatwg.forallb_string P (JsString.slice_0_neg1 s) = true.
Proof.
  induction s as [|c s IH]; [reflexivity|].
  cbn [Whatwg.forallb_string]. intros [Hc Hs]%andb_prop.
  destruct s as [|c' s']; [reflexivity|].
  change (JsString.slice_0_neg1 (String c (String c' s')))
    with (String c (JsString.slice_0_neg1 (String c' s'))).
  cbn [Whatwg.forallb_string]. now rewrite Hc, (IH Hs).
Qed.

Lemma effective_port_digits (explicit : bool) (url : URL) :
  Whatwg.forallb_string Whatwg.is_digit (port url) = true ->
  Whatwg.forallb_string Whatwg.is_digit (effective_port explicit url) = true.
Proof.
  intros Hp. unfold effective_port.
  destruct (JsString.falsy (port url)); [|exact Hp].
  destruct explicit; [|reflexivity].
  now destruct (String.eqb (protocol url) "https:").
Qed.

(** The target assembled from a URL of the parser model holds no [?] and no
    [#]. *)
Lemma assemble_plain (explicit : bool) (input : string) (url : URL) :
  Whatwg.URL_new input = Some url ->
  plain_string
    (assemble (protocol url) (hostname url) (effective_port explicit url) (pathname url)).
Proof.
  intros Hurl. destruct (URL_new_clean _ _ Hurl) as (Hprot & Hhost & Hport & Hpath).
  pose proof (effective_port_digits explicit url Hport) as Hport'.
  assert (Hall : plain_string
            (protocol url ++ "//" ++ hostname url ++ ":" ++
             effective_port explicit url ++ pathname url)).
  { unfold plain_string in *. rewrite !forallb_string_app, Hprot, Hpath.
    rewrite (forallb_string_impl _ _ _ host_char_plain Hhost).
    rewrite (forallb_string_impl _ _ _
               (fun c H => host_char_plain c (is_digit_host_char c H)) Hport').
    reflexivity. }
  unfold assemble, strip_slash. destruct (JsString.endsWith _ "/"); [|exact Hall].
  now apply slice_0_neg1_forallb.
Qed.

(** C10.  The resolved target is assembled from the [protocol], [hostname],
    [port] and [pathname] of the parsed URL only.  So two hosts with the
    same flag whose URLs agree on these four getters resolve to the same
    target, whatever their user name, password, query and fragment; and
    with the URL parser of the platform model the target holds no [?] and
    no [#], and between the scheme and the path only the host name and the
    port, which hold no [@]. *)
Theorem formatHost_four_getters :
  (forall (new_URL : string -> option URL) (local h1 h2 : string) (u1 u2 : URL),
      h1 <> "" -> h2 <> "" ->
      isExplicitProtocol h1 = isExplicitProtocol h2 ->
      new_URL (url_input h1) = Some u1 ->
      new_URL (url_input h2) = Some u2 ->
      protocol u1 = protocol u2 ->
      hostname u1 = hostname u2 ->
      port u1 = port u2 ->
      pathname u1 = pathname u2 ->
      formatHost new_URL local h1 = formatHost new_URL local h2) /\
  (forall (local host target : string),
      host <> "" ->
      formatHost Whatwg.URL_new local host = Some target ->
      exists (url : URL) (port' : string),
        Whatwg.URL_new (url_input host) = Some url /\
        target = assemble (protocol url) (hostname url) port' (pathname url) /\
        Whatwg.forallb_string host_char (hostname url) = true /\
        Whatwg.forallb_string Whatwg.is_digit port' = true /\
        plain_string target).
Proof.
  split.
  - intros new_URL local h1 h2 u1 u2 Hn1 Hn2 Hflag Hu1 Hu2 Hprot Hhost Hport Hpath.
    rewrite !formatHost_stages, Hu1, Hu2 by assumption. simpl.
    unfold effective_port. now rewrite Hflag, Hprot, Hhost, Hport, Hpath.
  - intros local host target Hne. rewrite formatHost_stages by assumption.
    destruct (Whatwg.URL_new (url_input host)) as [url|] eqn:Hurl; [|discriminate].
    intros [= <-]. exists url, (effective_port (isExplicitProtocol host) url).
    destruct (URL_new_clean _ _ Hurl) as (_ & Hhost & Hport & _).
    repeat split; try assumption.
    + now apply effective_port_digits.
    + exact (assemble_plain _ _ _ Hurl).
Qed.

Lemma formatHost_four_getters_witness :
  Whatwg.URL_new "http://user:pw@example.com:8080/a?x=1#frag" =
    Some (mkURL "http:" "user" "pw" "example.com" "8080" "/a" "?x=1" "#frag") /\
  Whatwg.URL_new "http://example.com:8080/a" =
    Some (mkURL "http:" "" "" "example.com" "8080" "/a" "" "") /\
  formatHost Whatwg.URL_new "" "http://user:pw@example.com:8080/a?x=1#frag" =
    formatHost Whatwg.URL_new "" "http://example.com:8080/a" /\
  formatHost Whatwg.URL_new "" "http://example.com:8080/a" =
    Some "http://example.com:8080/a" /\
  plain_string "http://example.com:8080/a".
Proof.
  split; [vm_compute; reflexivity|]. split; [vm_compute; reflexivity|].
  split; [|split; [vm_compute; reflexivity|]].
  - exact (proj1 formatHost_four_getters Whatwg.URL_new ""
             "http://user:pw@example.com:8080/a?x=1#frag" "http://example.com:8080/a"
             (mkURL "http:" "user" "pw" "example.com" "8080" "/a" "?x=1" "#frag")
             (mkURL "http:" "" "" "example.com" "8080" "/a" "" "")
             ltac:(discriminate) ltac:(discriminate) eq_refl
             ltac:(vm_compute; reflexivity) ltac:(vm_compute; reflexivity)
             eq_refl eq_refl eq_refl eq_refl).
  - destruct (proj2 formatHost_four_getters ""
                "http://user:pw@example.com:8080/a?x=1#frag" "http://example.com:8080/a"
                ltac:(discriminate) ltac:(vm_compute; reflexivity))
      as (url & port' & _ & _ & _ & _ & Hplain).
    exact Hplain.
Defined.

(** ** ResponseValidator *)

Lemma checkOk_not_ok (response : Response) :
  ok response = false ->
  checkOk response =
    if indicatesJSON response then
      match json response with
      | Normal errorData =>
          match get_prop errorData "error" with
          | Normal field =>
              ([ReadJson],
               Throw (ThrownResponseError
                        (mkResponseError (js_or field (default_message response))
                           (status response))))
          | Throw _ =>
              ([ReadJson; ConsoleLog MESSAGES.ERROR_JSON_PARSE],
               Throw (ThrownResponseError
                        (mkResponseError (default_message response) (status response))))
          end
      | Throw _ =>
          ([ReadJson; ConsoleLog MESSAGES.ERROR_JSON_PARSE],
           Throw (ThrownResponseError
                    (mkResponseError (default_message response) (status response))))
      end
    else
      match text response with
      | Normal textResponse =>
          ([ConsoleLog MESSAGES.FETCHING_TEXT; ReadText],
           Throw (ThrownResponseError
                    (mkResponseError (js_or (JSString textResponse) (default_message response))
                       (status response))))
      | Throw _ =>
          ([ConsoleLog MESSAGES.FETCHING_TEXT; ReadText;
            ConsoleLog MESSAGES.ERROR_FETCHING_TEXT],
           Throw (ThrownResponseError
                    (mkResponseError (default_message response) (status response))))
      end.
Proof.
  intros Hok. unfold checkOk, indicatesJSON, default_message. rewrite Hok.
  destruct (headers_get response "content-type") as [contentType|];
    [destruct (JsString.includes contentType "application/json")|].
  - unfold await_json, settle. destruct (json response) as [errorData|e]; [|reflexivity].
    simpl. destruct (get_prop errorData "error"); reflexivity.
  - unfold await_text, settle. destruct (text response); reflexivity.
  - unfold await_text, settle. destruct (text response); reflexivity.
Qed.

(** C4.  [checkOk] returns normally exactly when the response is [ok], and
    then without reading the body or logging; otherwise it throws a
    [ResponseError] whose [status_code] is the response's [status], whatever
    awaiting [json()] or [text()] gives, a rejection included. *)
Theorem checkOk_contract (response : Response) :
  (ok response = true -> checkOk response = ([], Normal tt)) /\
  (ok response = false ->
   exists message,
     snd (checkOk response) =
       Throw (ThrownResponseError (mkResponseError message (status response)))) /\
  (snd (checkOk response) = Normal tt <-> ok response = true).
Proof.
  assert (Hthrows : ok response = false ->
     exists message,
       snd (checkOk response) =
         Throw (ThrownResponseError (mkResponseError message (status response)))).
  { intros Hok. rewrite (checkOk_not_ok _ Hok).
    destruct (indicatesJSON response).
    - destruct (json response) as [errorData|]; [|eauto].
      destruct (get_prop errorData "error"); eauto.
    - destruct (text response); eauto. }
  split; [|split]; [|exact Hthrows|].
  - intros Hok. unfold checkOk. now rewrite Hok.
  - destruct (ok response) eqn:Hok.
    + split; [reflexivity|]. intros _. unfold checkOk. now rewrite Hok.
    + split; [|discriminate]. intros Hn.
      destruct (Hthrows eq_refl) as [message Hm]. congruence.
Qed.

Lemma checkOk_contract_witness :
  checkOk response_200 = ([], Normal tt) /\
  (exists message,
     snd (checkOk (response_500 (Throw ThrownTypeError))) =
       Throw (ThrownResponseError (mkResponseError message 500))).
Proof.
  split.
  - exact (proj1 (checkOk_contract response_200) eq_refl).
  - exact (proj1 (proj2 (checkOk_contract (response_500 (Throw ThrownTypeError)))) eq_refl).
Defined.

(** C5.  On a response that is not [ok] the message of the error is: with a
    JSON content type, the [error] field of the parsed body when that field
    is truthy (a non-empty string), and the default
    ["Error {status}: {statusText}"] when the field is absent or empty, when
    reading it throws, or when the body does not parse; without a JSON
    content type, the body text when it is non-empty, and the default when
    it is empty or cannot be read.  The status code is the response's. *)
Theorem checkOk_message (response : Response) :
  ok response = false ->
  let message := error <$> response_error (checkOk response) in
  (forall errorData field,
      indicatesJSON response = true ->
      json response = Normal errorData ->
      get_prop errorData "error" = Normal field ->
      truthy field = true ->
      message = Some field) /\
  (forall errorData field,
      indicatesJSON response = true ->
      json response = Normal errorData ->
      get_prop errorData "error" = Normal field ->
      truthy field = false ->
      message = Some (default_message response)) /\
  (forall errorData e,
      indicatesJSON response = true ->
      json response = Normal errorData ->
      get_prop errorData "error" = Throw e ->
      message = Some (default_message response)) /\
  (forall e,
      indicatesJSON response = true ->
      json response = Throw e ->
      message = Some (default_message response)) /\
  (forall textResponse,
      indicatesJSON response = false ->
      text response = Normal textResponse ->
      textResponse <> "" ->
      message = Some (JSString textResponse)) /\
  (indicatesJSON response = false ->
   text response = Normal "" ->
   message = Some (default_message response)) /\
  (forall e,
      indicatesJSON response = false ->
      text response = Throw e ->
      message = Some (default_message response)) /\
  status_code <$> response_error (checkOk response) = Some (status response).
Proof.
  intros Hok message. subst message. rewrite (checkOk_not_ok _ Hok).
  repeat split.
  - intros errorData field -> -> -> Ht. unfold response_error, js_or. simpl. now rewrite Ht.
  - intros errorData field -> -> -> Ht. unfold response_error, js_or. simpl. now rewrite Ht.
  - intros errorData e -> -> ->. reflexivity.
  - intros e -> ->. reflexivity.
  - intros textResponse -> -> Hne. unfold response_error, js_or. simpl.
    now rewrite (falsy_false _ Hne).
  - intros -> ->. reflexivity.
  - intros e -> ->. reflexivity.
  - destruct (indicatesJSON response).
    + destruct (json response) as [errorData|]; [|reflexivity].
      destruct (get_prop errorData "error"); reflexivity.
    + destruct (text response); reflexivity.
Qed.

Lemma checkOk_message_witness :
  ok response_404 = false /\
  error <$> response_error (checkOk response_404) = Some (JSString "model not found") /\
  status_code <$> response_error (checkOk response_404) = Some 404%Z /\
  error <$> response_error (checkOk (response_500 (Normal ""))) =
    Some (JSString "Error 500: Internal Server Error").
Proof.
  split; [reflexivity|]. split; [|split].
  - exact (proj1 (checkOk_message response_404 eq_refl)
             (JSObject PlainObject [("error", JSString "model not found")])
             (JSString "model not found") eq_refl eq_refl eq_refl eq_refl).
  - exact (proj2 (proj2 (proj2 (proj2 (proj2 (proj2 (proj2
             (checkOk_message response_404 eq_refl)))))))).
  - exact (proj1 (proj2 (proj2 (proj2 (proj2 (proj2
             (checkOk_message (response_500 (Normal "")) eq_refl))))))
             eq_refl eq_refl).
Defined.

(** ** RequestDispatcher *)

Section RequestDispatcherFacts.

Variable version getPlatform : string.
Variable JSON_stringify : JSValue -> option string.

Lemma fetchWithHeaders_sent (fetch : Fetch) (url : string) (options : RequestInit) :
  fetchWithHeaders version getPlatform fetch url options =
    settle (Transport url (sent version getPlatform options))
      (fetch url (sent version getPlatform options)).
Proof.
  unfold fetchWithHeaders, sent. destruct options as [m b sg [h|]]; reflexivity.
Qed.

Lemma transported_checkOk (response : Response) :
  transported (checkOk response ;; ret response) = [].
Proof.
  destruct (ok response) eqn:Hok.
  - unfold checkOk. rewrite Hok. reflexivity.
  - rewrite (checkOk_not_ok _ Hok).
    destruct (indicatesJSON response).
    + destruct (json response) as [errorData|]; [|reflexivity].
      destruct (get_prop errorData "error"); reflexivity.
    + destruct (text response); reflexivity.
Qed.

Lemma transported_bind {A B} (m : async A) (k : A -> async B) :
  transported (m ≫= k) =
    (transported m ++
     match snd m with
     | Normal a => transported (k a)
     | Throw _ => []
     end)%list.
Proof.
  destruct m as [t [a|e]]; unfold mbind, async_bind, bind, transported; simpl.
  - destruct (k a) as [t' r]. simpl. apply omap_app.
  - now rewrite app_nil_r.
Qed.

(** Every entry point makes one transport call, with the options it built
    and the default headers merged in. *)
Lemma transported_dispatch (fetch : Fetch) (url : string) (options : RequestInit) :
  transported
    (response ← fetchWithHeaders version getPlatform fetch url options;
     checkOk response ;; ret response)
  = [sent version getPlatform options].
Proof.
  rewrite transported_bind, fetchWithHeaders_sent. unfold settle. simpl.
  destruct (fetch url (sent version getPlatform options)) as [response|e]; [|reflexivity].
  now rewrite transported_checkOk.
Qed.

(** The headers of a request: those of the caller win over the defaults,
    and the defaults are there for the names the caller does not set. *)
Lemma sent_headers (options : RequestInit) (name : string) :
  headers (sent version getPlatform options) ≫= (.!! name) =
    match headers options ≫= (.!! name) with
    | Some value => Some value
    | None => defaultHeaders version getPlatform !! name
    end.
Proof.
  unfold sent. destruct (headers options) as [h|]; simpl; rewrite lookup_union.
  - now destruct (h !! name), (defaultHeaders version getPlatform !! name).
  - rewrite lookup_empty.
    now destruct (defaultHeaders version getPlatform !! name).
Qed.

(** The entry points set no header of their own, so every request carries
    the defaults: the JSON content type among them. *)
Lemma dispatch_content_type (options : RequestInit) :
  headers options = None ->
  headers (sent version getPlatform options) ≫= (.!! "Content-Type")
  = Some "application/json".
Proof.
  intros Hh. rewrite sent_headers, Hh. cbn [mbind option_bind].
  unfold defaultHeaders. apply lookup_insert_eq.
Qed.

End RequestDispatcherFacts.

Lemma isRecord_object (cls : object_class) (props : list (string * JSValue)) :
  isRecord (JSObject cls props) = true.
Proof. reflexivity. Qed.

Lemma isRecord_not_object (data : JSValue) :
  (forall cls props, data <> JSObject cls props) -> isRecord data = false.
Proof.
  intros Hd. destruct data; try reflexivity. now destruct (Hd cls props).
Qed.

(** C2 (the code departs from it).  [post] sends [JSON.stringify(data)] when
    [isRecord(data)] holds and [data] itself otherwise.  The test holds for
    every object that is not an array, whatever its class, and fails for
    every other value; so a string, an array, [null] or no body at all is
    sent as it is, but a byte array is an object too: for
    [new Uint8Array([1, 2])] the transport receives the JSON text
    [{"0":1,"1":2}], not the bytes. *)
Theorem post_body :
  (forall version getPlatform JSON_stringify fetch host data options,
      body <$> transported (post version getPlatform JSON_stringify fetch host data options)
      = [if isRecord data then stringified JSON_stringify data else data]) /\
  (forall data, isRecord data = true <-> exists cls props, data = JSObject cls props) /\
  (forall version getPlatform fetch host options,
      body <$> transported (post version getPlatform Json.stringify fetch host bytes_1_2 options)
      = [JSString ("{" ++ Json.quote "0" ++ ":1," ++ Json.quote "1" ++ ":2}")]) /\
  (forall JSON_stringify cls props,
      stringified JSON_stringify (JSObject cls props) <> JSObject cls props).
Proof.
  split; [|split; [|split]].
  - intros. unfold post. now rewrite transported_dispatch.
  - intros data. split.
    + destruct data; try discriminate. eauto.
    + intros (cls & props & ->). reflexivity.
  - intros. unfold post. now rewrite transported_dispatch.
  - intros JSON_stringify cls props. unfold stringified.
    destruct (JSON_stringify _); discriminate.
Qed.

(** C9 (amended).  Of the four entry points only [post] has a parameter for
    the cancellation token: its transport call carries the token as
    [signal] when options are supplied, and no signal otherwise.  [get],
    [head] and [del] have no such parameter, and their transport calls never
    carry a signal. *)
Theorem signal_forwarded_by_post_only
    (version getPlatform : string) (JSON_stringify : JSValue -> option string)
    (fetch : Fetch) (host : string) (data : JSValue) :
  (forall token,
      signal <$> transported
        (post version getPlatform JSON_stringify fetch host data
           (Some {| options_signal := token |}))
      = [Some token]) /\
  signal <$> transported (post version getPlatform JSON_stringify fetch host data None)
    = [None] /\
  signal <$> transported (get version getPlatform fetch host) = [None] /\
  signal <$> transported (head version getPlatform fetch host) = [None] /\
  signal <$> transported (del version getPlatform JSON_stringify fetch host data) = [None].
Proof.
  repeat split; intros; unfold post, get, head, del;
    now rewrite transported_dispatch.
Qed.

(** C9 as stated fails: [get] called with a token makes its transport call
    without a signal. *)
Lemma get_drops_token : ~ every_entry_point_forwards_token.
Proof.
  intros H.
  specialize (H "" "" Json.stringify GET (respond response_200) "http://127.0.0.1:11434"
                JSUndefined (Signal 1)).
  unfold call, get in H. rewrite transported_dispatch in H. discriminate H.
Qed.

(** ** StreamDecoder *)

Section StreamDecoderFacts.

Local Open Scope list_scope.

Context {T : Type}.
Variable JSON_parse : codepoints -> option T.

Lemma split_lines_nonempty (s : codepoints) : split_lines s <> [].
Proof.
  destruct s as [|c r]; simpl; [discriminate|].
  destruct (c =? LF)%N; [discriminate|].
  destruct (split_lines r); discriminate.
Qed.

Lemma last_app_nonempty {A} (l l' : list A) (d : A) :
  l' <> [] -> List.last (l ++ l') d = List.last l' d.
Proof.
  intros Hl'. induction l as [|x l IH]; [reflexivity|].
  simpl. destruct (l ++ l')%list eqn:E; [|exact IH].
  apply app_eq_nil in E as [_ ?]. contradiction.
Qed.

(** Lines of a text read in two pieces: the lines complete in the first
    piece, then the lines of the unfinished one followed by the second
    piece. *)
Lemma split_lines_app (a b : codepoints) :
  split_lines (a ++ b) =
    (removelast (split_lines a) ++ split_lines (List.last (split_lines a) [] ++ b))%list.
Proof.
  induction a as [|c a IH]; [reflexivity|].
  pose proof (split_lines_nonempty a) as Hne.
  simpl. destruct (c =? LF)%N eqn:Ec.
  - destruct (split_lines a) as [|x xs] eqn:E; [contradiction|].
    rewrite IH. reflexivity.
  - rewrite IH. destruct (split_lines a) as [|x [|x' xs]] eqn:E; [contradiction| |].
    + simpl. now rewrite Ec.
    + reflexivity.
Qed.

Lemma split_lines_no_newline (s : codepoints) :
  no_newline s -> split_lines s = [s].
Proof.
  induction 1 as [|c r Hc _ IH]; [reflexivity|].
  simpl. now rewrite Hc, IH.
Qed.

Lemma last_split_lines_no_newline (s : codepoints) :
  no_newline (List.last (split_lines s) []).
Proof.
  induction s as [|c r IH]; [constructor|].
  pose proof (split_lines_nonempty r) as Hne.
  simpl. destruct (c =? LF)%N eqn:Ec.
  - destruct (split_lines r); [contradiction|exact IH].
  - destruct (split_lines r) as [|x [|x' xs]]; [contradiction| |exact IH].
    constructor; assumption.
Qed.

(** A call [decode(chunk)] without the [stream] option starts from a fresh
    decoder, whatever the calls before it left, and leaves the decoder to be
    reset again. *)
Lemma decode_without_stream (d : Utf8.TextDecoder) (c : chunk) :
  Utf8.do_not_flush d = false ->
  exists d', Utf8.decode d c false = (decode_chunk c, d') /\ Utf8.do_not_flush d' = false.
Proof.
  intros Hd. unfold decode_chunk, Utf8.decode. rewrite Hd.
  cbv beta iota zeta delta
    [Utf8.new_TextDecoder Utf8.fresh Utf8.decoder Utf8.BOM_seen Utf8.do_not_flush].
  destruct (Utf8.run Utf8.initial c) as [out st].
  destruct (Utf8.flush st) as [final st'].
  destruct (Utf8.serialize false (out ++ final)) as [s' bom].
  eexists. split; reflexivity.
Qed.

Lemma candidate_records_app (a b : codepoints) :
  candidate_records (a ++ b) =
    removelast (split_lines a) ++ candidate_records (List.last (split_lines a) [] ++ b).
Proof.
  unfold candidate_records. rewrite split_lines_app.
  set (rest := split_lines (List.last (split_lines a) [] ++ b)).
  assert (Hrest : rest <> []) by apply split_lines_nonempty.
  rewrite removelast_app, last_app_nonempty by assumption.
  now rewrite <- app_assoc.
Qed.

(** The loop, from any buffer it can hold between two reads. *)
Lemma read_loop_records (itr : list chunk) :
  forall (d : Utf8.TextDecoder) (buffer : codepoints),
    Utf8.do_not_flush d = false ->
    no_newline buffer ->
    read_loop JSON_parse d buffer itr =
      try_yield JSON_parse <$> candidate_records (buffer ++ stream_text itr).
Proof.
  induction itr as [|c itr IH]; intros d buffer Hd Hbuf.
  - simpl. unfold stream_text, candidate_records. simpl. rewrite app_nil_r.
    now rewrite (split_lines_no_newline _ Hbuf).
  - simpl. destruct (decode_without_stream d c Hd) as (d' & -> & Hd').
    rewrite (IH d' _ Hd' (last_split_lines_no_newline _)).
    rewrite <- fmap_app. f_equal.
    unfold stream_text. simpl. rewrite app_assoc.
    symmetry. apply candidate_records_app.
Qed.

(** What the generator produces: the outcome of parsing each candidate
    record of the decoded text, in order. *)
Lemma parseJSON_candidate_records (itr : list chunk) :
  parseJSON JSON_parse itr =
    try_yield JSON_parse <$> candidate_records (stream_text itr).
Proof.
  unfold parseJSON. now rewrite read_loop_records by (reflexivity || constructor).
Qed.

End StreamDecoderFacts.

Section ChunkingFacts.

Local Open Scope list_scope.
Local Open Scope N_scope.

Context {T : Type}.
Variable JSON_parse : codepoints -> option T.

(** C3 (the code departs from it).  The decoder is created once, but every
    call [decoder.decode(chunk)] is made without the [stream] option and so
    flushes and resets it.  A character whose bytes fall in two chunks is
    therefore decoded as replacement characters: the stream [{"a":"é"}],
    read in one chunk, hands [{"a":"é"}] to [JSON.parse]; cut between the
    two bytes of [é] it hands over the same text with two replacement
    characters (65533) in the place of [é] (233). *)
Theorem parseJSON_split_character :
  List.concat e_acute_chunks = e_acute_stream /\
  parseJSON JSON_parse [e_acute_stream] =
    [try_yield JSON_parse [123; 34; 97; 34; 58; 34; 233; 34; 125]] /\
  parseJSON JSON_parse e_acute_chunks =
    [try_yield JSON_parse [123; 34; 97; 34; 58; 34; 65533; 65533; 34; 125]].
Proof.
  split; [reflexivity|]. split; reflexivity.
Qed.

(** With the [stream] option the same decoder carries the pending byte over
    to the next call, and the two chunks decode to the text of the whole. *)
Lemma decode_stream_carries_over :
  let '(s1, d1) :=
    Utf8.decode (Utf8.new_TextDecoder ENCODING.UTF8) [123; 34; 97; 34; 58; 34; 195] true in
  let '(s2, _) := Utf8.decode d1 [169; 34; 125; 10] true in
  s1 ++ s2 = decode_chunk e_acute_stream.
Proof. reflexivity. Qed.

(** Bytes below 128 decode to themselves. *)
Lemma run_ascii (c : chunk) :
  Forall (fun b => b < 128) c -> Utf8.run Utf8.initial c = (c, Utf8.initial).
Proof.
  induction 1 as [|b c Hb _ IH]; [reflexivity|].
  assert (Hh : Utf8.handler Utf8.initial b = (Utf8.initial, Utf8.CodePoint b)).
  { unfold Utf8.handler, Utf8.between.
    change (Utf8.bytes_needed Utf8.initial =? 0) with true. cbv iota.
    assert (H0 : (0 <=? b) = true) by (apply N.leb_le; lia).
    assert (H1 : (b <=? 127) = true) by (apply N.leb_le; lia).
    now rewrite H0, H1. }
  cbn [Utf8.run]. rewrite Hh, IH. reflexivity.
Qed.

Lemma decode_chunk_ascii (c : chunk) :
  Forall (fun b => b < 128) c -> decode_chunk c = c.
Proof.
  intros Hc. unfold decode_chunk, Utf8.decode.
  cbv beta iota zeta delta
    [Utf8.new_TextDecoder Utf8.fresh Utf8.decoder Utf8.BOM_seen Utf8.do_not_flush].
  rewrite (run_ascii _ Hc). simpl. rewrite app_nil_r.
  destruct Hc as [|b c Hb _]; [reflexivity|]. simpl.
  replace (b =? Utf8.BOM) with false; [reflexivity|].
  symmetry. apply N.eqb_neq. unfold Utf8.BOM. lia.
Qed.

(** On a stream of such bytes the records do not depend on where the
    chunks are cut. *)
Lemma parseJSON_ascii_chunking (itr : list chunk) :
  Forall (Forall (fun b => b < 128)) itr ->
  parseJSON JSON_parse itr = parseJSON JSON_parse [List.concat itr].
Proof.
  intros Hitr.
  rewrite (parseJSON_candidate_records JSON_parse itr).
  rewrite (parseJSON_candidate_records JSON_parse [List.concat itr]).
  f_equal. f_equal. unfold stream_text. simpl. rewrite app_nil_r.
  rewrite decode_chunk_ascii by (apply Forall_concat; exact Hitr).
  f_equal. induction Hitr as [|c itr Hc _ IH]; [reflexivity|].
  rewrite fmap_cons, IH. now rewrite decode_chunk_ascii.
Qed.

(** The two chunks [{"a":1}\n{"b"] and [:2}\n] of the specification: the
    records [{"a":1}] and [{"b":2}] are parsed, in this order. *)
Lemma parseJSON_two_chunks :
  parseJSON JSON_parse
    [[123; 34; 97; 34; 58; 49; 125; 10; 123; 34; 98; 34]; [58; 50; 125; 10]] =
  [try_yield JSON_parse [123; 34; 97; 34; 58; 49; 125];
   try_yield JSON_parse [123; 34; 98; 34; 58; 50; 125]].
Proof. reflexivity. Qed.

(** A line that does not parse, [not-json] between two records: when
    [JSON.parse] throws on it and parses the other two, the two values are
    yielded and the line is warned about in between. *)
Lemma parseJSON_malformed_line (a b : T) :
  JSON_parse [123; 34; 97; 34; 58; 49; 125] = Some a ->
  JSON_parse [110; 111; 116; 45; 106; 115; 111; 110] = None ->
  JSON_parse [123; 34; 98; 34; 58; 50; 125] = Some b ->
  parseJSON JSON_parse
    [[123; 34; 97; 34; 58; 49; 125; 10; 110; 111; 116; 45; 106; 115; 111; 110; 10;
      123; 34; 98; 34; 58; 50; 125; 10]] =
  [Yield a; ConsoleWarn [110; 111; 116; 45; 106; 115; 111; 110]; Yield b].
Proof.
  intros Ha Hn Hb.
  rewrite (parseJSON_candidate_records JSON_parse _).
  change (candidate_records _) with
    [[123; 34; 97; 34; 58; 49; 125]; [110; 111; 116; 45; 106; 115; 111; 110];
     [123; 34; 98; 34; 58; 50; 125]].
  cbn [fmap list_fmap]. unfold try_yield. now rewrite Ha, Hn, Hb.
Qed.

End ChunkingFacts.

(** * Further properties *)

(** ** RequestDispatcher: what a dispatch does *)

Section DispatchFacts.

Variable version getPlatform : string.
Variable JSON_stringify : JSValue -> option string.

Lemma checkOk_throws (response : Response) :
  ok response = false ->
  exists t e, checkOk response = (t, Throw (ThrownResponseError e)) /\
              status_code e = status response.
Proof.
  intros Hok. rewrite (checkOk_not_ok _ Hok).
  destruct (indicatesJSON response).
  - destruct (json response) as [errorData|]; [|eauto].
    destruct (get_prop errorData "error"); eauto.
  - destruct (text response); eauto.
Qed.

(** A dispatch, by what the transport answers. *)
Lemma dispatch_run (fetch : Fetch) (url : string) (options : RequestInit) :
  (response ← fetchWithHeaders version getPlatform fetch url options;
   checkOk response ;; ret response) =
  let init := sent version getPlatform options in
  match fetch url init with
  | Throw e => ([Transport url init], Throw e)
  | Normal response =>
      (Transport url init :: fst (checkOk response),
       match snd (checkOk response) with
       | Normal _ => Normal response
       | Throw e => Throw e
       end)
  end.
Proof.
  rewrite fetchWithHeaders_sent. cbv zeta. unfold settle.
  destruct (fetch url (sent version getPlatform options)) as [response|e]; [|reflexivity].
  cbv beta iota delta [mbind async_bind bind].
  destruct (checkOk response) as [t [[]|e]]; cbn [fst snd ret]; [|reflexivity].
  now rewrite app_nil_r.
Qed.

Lemma call_dispatch (entry : entry_point) (fetch : Fetch) (host : string) (data : JSValue)
    (options : option PostOptions) :
  exists request,
    call version getPlatform JSON_stringify entry fetch host data options =
      (response ← fetchWithHeaders version getPlatform fetch host request;
       checkOk response ;; ret response) /\
    headers request = None.
Proof.
  destruct entry; eexists; (split; [reflexivity|reflexivity]).
Qed.

(** The three outcomes of a dispatch that reaches the transport. *)
Lemma dispatch_outcomes (entry : entry_point) (fetch : Fetch) (host : string)
    (data : JSValue) (options : option PostOptions) :
  let run := call version getPlatform JSON_stringify entry fetch host data options in
  exists init,
    transported run = [init] /\
    requested run = [host] /\
    (forall e, fetch host init = Throw e -> run = ([Transport host init], Throw e)) /\
    (forall response,
        fetch host init = Normal response -> ok response = true ->
        run = ([Transport host init], Normal response)) /\
    (forall response,
        fetch host init = Normal response -> ok response = false ->
        exists error,
          snd (checkOk response) = Throw (ThrownResponseError error) /\
          status_code error = status response /\
          run = (Transport host init :: fst (checkOk response),
                 Throw (ThrownResponseError error))).
Proof.
  cbv zeta. destruct (call_dispatch entry fetch host data options) as (request & -> & _).
  rewrite dispatch_run. cbv zeta.
  exists (sent version getPlatform request).
  destruct (fetch host (sent version getPlatform request)) as [response|e] eqn:Hf.
  - assert (Hquiet : transported (checkOk response) = [] /\ requested (checkOk response) = []).
    { destruct (ok response) eqn:Hok.
      - unfold checkOk. rewrite Hok. now split.
      - rewrite (checkOk_not_ok _ Hok).
        destruct (indicatesJSON response).
        + destruct (json response) as [errorData|];
            [destruct (get_prop errorData "error")|]; now split.
        + destruct (text response); now split. }
    destruct Hquiet as [Hq1 Hq2]. unfold transported, requested in *.
    cbn [fst omap list_omap]. rewrite Hq1, Hq2.
    split; [reflexivity|]. split; [reflexivity|]. split; [discriminate|]. split.
    + intros r [= <-] Hok. unfold checkOk. now rewrite Hok.
    + intros r [= <-] Hok. destruct (checkOk_throws _ Hok) as (t & err & Hc & He).
      exists err. rewrite Hc. now repeat split.
  - repeat split; try reflexivity; try discriminate.
    now intros e' [= <-].
Qed.

(** The request of each entry point, by what it is called with. *)
Lemma call_transported (entry : entry_point) (fetch : Fetch) (host : string)
    (data : JSValue) (options : option PostOptions) :
  transported (call version getPlatform JSON_stringify entry fetch host data options) =
    [sent version getPlatform
       match entry with
       | GET => no_options
       | HEAD =>
           {| method := Some "HEAD"; body := JSUndefined; signal := None; headers := None |}
       | POST =>
           {| method := Some "POST";
              body := if isRecord data then stringified JSON_stringify data else data;
              signal := options_signal <$> options; headers := None |}
       | DELETE =>
           {| method := Some "DELETE"; body := stringified JSON_stringify data;
              signal := None; headers := None |}
       end].
Proof. destruct entry; cbn [call]; apply transported_dispatch. Qed.

(** X4.  [del] sends [JSON.stringify(data)] whatever [data] is, and no body
    when that is [undefined]; [post] sends the same body when [data] is an
    object that is not an array.  On an array the two differ: with the
    model of [JSON.stringify], [del] sends its JSON text and [post] the
    array itself. *)
Theorem del_body (fetch : Fetch) (host : string) (data : JSValue)
    (options : option PostOptions) :
  body <$> transported (del version getPlatform JSON_stringify fetch host data)
    = [stringified JSON_stringify data] /\
  (JSON_stringify data = None ->
   body <$> transported (del version getPlatform JSON_stringify fetch host data)
     = [JSUndefined]) /\
  (isRecord data = true ->
   body <$> transported (post version getPlatform JSON_stringify fetch host data options)
     = body <$> transported (del version getPlatform JSON_stringify fetch host data)) /\
  (forall items,
      body <$> transported
        (post version getPlatform Json.stringify fetch host (JSArray items) options)
        = [JSArray items] /\
      exists text,
        body <$> transported
          (del version getPlatform Json.stringify fetch host (JSArray items))
          = [JSString text]).
Proof.
  unfold post, del. rewrite !transported_dispatch. cbn [fmap list_fmap body].
  split; [reflexivity|]. split; [|split].
  - intros Hn. unfold stringified. now rewrite Hn.
  - intros Hr. now rewrite Hr.
  - intros items. rewrite !transported_dispatch. cbn [fmap list_fmap body].
    split; [reflexivity|]. eexists. reflexivity.
Qed.

End DispatchFacts.

Lemma del_body_witness :
  body <$> transported (del "0.5.0" "" Json.stringify (respond response_200)
                          "http://127.0.0.1:11434" JSUndefined)
    = [JSUndefined] /\
  body <$> transported (post "0.5.0" "" Json.stringify (respond response_200)
                          "http://127.0.0.1:11434"
                          (JSObject PlainObject [("name", JSString "llama3")]) None)
    = [JSString ("{" ++ Json.quote "name" ++ ":" ++ Json.quote "llama3" ++ "}")].
Proof.
  split.
  - exact (proj1 (proj2 (del_body "0.5.0" "" Json.stringify (respond response_200)
                           "http://127.0.0.1:11434" JSUndefined None)) eq_refl).
  - rewrite (proj1 (proj2 (proj2 (del_body "0.5.0" "" Json.stringify (respond response_200)
                                    "http://127.0.0.1:11434"
                                    (JSObject PlainObject [("name", JSString "llama3")])
                                    None))) eq_refl).
    reflexivity.
Defined.

(** ** RequestDispatcher in its environment *)

Section AmbientFacts.

Variable version : string.
Variable getPlatform : completion string.
Variable JSON_stringify : JSValue -> completion (option string).

Lemma let_pair {A B} (p : A * B) : (let '(a, b) := p in (a, b)) = p.
Proof. now destruct p. Qed.

Lemma fetchWithHeaders_returns (platform : string) (fetch : Fetch) (url : string)
    (options : RequestInit) :
  getPlatform = Normal platform ->
  Ambient.fetchWithHeaders version getPlatform fetch url options =
    fetchWithHeaders version platform fetch url options.
Proof. intros Hp. unfold Ambient.fetchWithHeaders. rewrite Hp. reflexivity. Qed.

Lemma fetchWithHeaders_throws (e : thrown) (fetch : Fetch) (url : string)
    (options : RequestInit) :
  getPlatform = Throw e ->
  Ambient.fetchWithHeaders version getPlatform fetch url options = ([], Throw e).
Proof. intros Hp. unfold Ambient.fetchWithHeaders. rewrite Hp. reflexivity. Qed.

(** An entry point serializes the data first where it does, then looks the
    platform up, and goes on as the dispatcher does with what the two
    returned. *)
Lemma call_stages (entry : entry_point) (fetch : Fetch) (host : string) (data : JSValue)
    (options : option PostOptions) :
  Ambient.call version getPlatform JSON_stringify entry fetch host data options =
    match (if serializes entry data then JSON_stringify data else Normal None) with
    | Throw e => ([], Throw e)
    | Normal _ =>
        match getPlatform with
        | Throw e => ([], Throw e)
        | Normal platform => call version platform (returned JSON_stringify) entry fetch host data options
        end
    end.
Proof.
  unfold returned.
  destruct entry; cbn [serializes Ambient.call call];
    unfold Ambient.get, Ambient.head, Ambient.post, Ambient.del, get, head, post, del,
      Ambient.stringified, stringified.
  - now destruct getPlatform.
  - now destruct getPlatform.
  - destruct (isRecord data); [destruct (JSON_stringify data) as [text|e']|];
      try reflexivity; destruct getPlatform; cbn; now rewrite ?let_pair.
  - destruct (JSON_stringify data) as [text|e']; [|reflexivity].
    destruct getPlatform; cbn; now rewrite ?let_pair.
Qed.

(** X1.  Each of [get], [head], [post] and [del] calls the transport at most
    once.  [del], and [post] on an object that is not an array, serialize
    the data first: when [JSON.stringify] throws, the entry point rejects
    with what was thrown and the transport is not called.  Then
    [getPlatform] is called for the [User-Agent] header: when it throws,
    the entry point rejects with what was thrown and the transport is not
    called either.  Otherwise exactly one transport call is made, to the
    host given.  When the transport rejects, the entry point rejects with
    the same reason and nothing else happens; when it answers with an [ok]
    response, that response is returned and its body is not read; when it
    answers with a response that is not [ok], the entry point throws what
    [checkOk] throws, a [ResponseError] with the status of the response. *)
Theorem dispatch_outcome (entry : entry_point) (fetch : Fetch) (host : string)
    (data : JSValue) (options : option PostOptions) :
  let run := Ambient.call version getPlatform JSON_stringify entry fetch host data options in
  let serialized := if serializes entry data then JSON_stringify data else Normal None in
  (forall e, serialized = Throw e -> run = ([], Throw e)) /\
  (forall text e, serialized = Normal text -> getPlatform = Throw e -> run = ([], Throw e)) /\
  (forall text platform,
      serialized = Normal text -> getPlatform = Normal platform ->
      exists init,
        transported run = [init] /\
        requested run = [host] /\
        (forall e, fetch host init = Throw e -> run = ([Transport host init], Throw e)) /\
        (forall response,
            fetch host init = Normal response -> ok response = true ->
            run = ([Transport host init], Normal response)) /\
        (forall response,
            fetch host init = Normal response -> ok response = false ->
            exists error,
              snd (checkOk response) = Throw (ThrownResponseError error) /\
              status_code error = status response /\
              run = (Transport host init :: fst (checkOk response),
                     Throw (ThrownResponseError error)))).
Proof.
  cbv zeta. rewrite call_stages. split; [|split].
  - now intros e ->.
  - now intros text e -> ->.
  - intros text platform -> ->.
    exact (dispatch_outcomes version platform (returned JSON_stringify) entry fetch host data options).
Qed.

(** X2.  When [getPlatform] returns, the headers of every request an entry
    point sends are the three defaults and nothing else: [Content-Type] and
    [Accept] are [application/json] and [User-Agent] names the library, its
    version and the platform.  The request of [get] has these headers and
    nothing more: no method, no body, no signal.  The request of [head] has
    the method [HEAD], and no body and no signal.  The request of [post]
    with data that is not serialized has the method [POST], the data itself
    as its body and the signal of the options. *)
Theorem dispatch_headers (entry : entry_point) (fetch : Fetch) (host : string)
    (data : JSValue) (options : option PostOptions) (platform : string) :
  getPlatform = Normal platform ->
  let run := Ambient.call version getPlatform JSON_stringify entry fetch host data options in
  let defaults := defaultHeaders version platform in
  (forall name,
      defaults !! name =
        if String.eqb name "Content-Type" then Some "application/json"
        else if String.eqb name "Accept" then Some "application/json"
        else if String.eqb name "User-Agent"
             then Some ("ollama-js/" ++ version ++ " (" ++ platform ++ ")")
        else None) /\
  (forall init, init ∈ transported run -> headers init = Some defaults) /\
  (entry = GET ->
   transported run =
     [{| method := None; body := JSUndefined; signal := None; headers := Some defaults |}]) /\
  (entry = HEAD ->
   transported run =
     [{| method := Some "HEAD"; body := JSUndefined; signal := None;
         headers := Some defaults |}]) /\
  (entry = POST -> isRecord data = false ->
   transported run =
     [{| method := Some "POST"; body := data; signal := options_signal <$> options;
         headers := Some defaults |}]).
Proof.
  intros Hp. cbv zeta. rewrite call_stages, Hp. split; [|split; [|split; [|split]]].
  - intros name. unfold defaultHeaders.
    destruct (String.eqb_spec name "Content-Type") as [->|H1];
      [apply lookup_insert_eq|rewrite lookup_insert_ne by congruence].
    destruct (String.eqb_spec name "Accept") as [->|H2];
      [apply lookup_insert_eq|rewrite lookup_insert_ne by congruence].
    destruct (String.eqb_spec name "User-Agent") as [->|H3];
      [apply lookup_insert_eq|rewrite lookup_insert_ne by congruence].
    apply lookup_empty.
  - intros init.
    destruct (if serializes entry data then JSON_stringify data else Normal None);
      [|intros Hin; cbn in Hin; now apply elem_of_nil in Hin].
    rewrite call_transported. intros ->%list_elem_of_singleton.
    unfold sent. cbn [headers]. f_equal.
    destruct entry; cbn [headers no_options default]; apply (left_id_L ∅ (∪)).
  - intros ->. cbn [serializes]. rewrite call_transported. unfold sent, no_options.
    cbn [method body signal headers default]. now rewrite (left_id_L ∅ (∪)).
  - intros ->. cbn [serializes]. rewrite call_transported. unfold sent.
    cbn [method body signal headers default]. now rewrite (left_id_L ∅ (∪)).
  - intros -> Hr. cbn [serializes]. rewrite Hr, call_transported. unfold sent.
    rewrite Hr. cbn [method body signal headers default]. now rewrite (left_id_L ∅ (∪)).
Qed.

(** X3.  [fetchWithHeaders] calls [getPlatform] first: when that throws,
    [fetchWithHeaders] rejects with what was thrown and the transport is
    not called.  Otherwise it makes one transport call and completes as
    that call does.  The request carries the method, body and signal of the
    options unchanged.  A header of the options is sent as it is, also when
    it has the name of a default; a default is sent when the options have no
    header of exactly that name. *)
Theorem fetchWithHeaders_request (fetch : Fetch) (url : string) (options : RequestInit) :
  (forall e,
      getPlatform = Throw e ->
      Ambient.fetchWithHeaders version getPlatform fetch url options = ([], Throw e)) /\
  (forall platform,
      getPlatform = Normal platform ->
      exists init,
        Ambient.fetchWithHeaders version getPlatform fetch url options =
          ([Transport url init], fetch url init) /\
        method init = method options /\
        body init = body options /\
        signal init = signal options /\
        forall name,
          headers init ≫= (.!! name) =
            match headers options ≫= (.!! name) with
            | Some value => Some value
            | None => defaultHeaders version platform !! name
            end).
Proof.
  split; [intros e; apply fetchWithHeaders_throws|].
  intros platform Hp. exists (sent version platform options).
  rewrite (fetchWithHeaders_returns platform _ _ _ Hp), fetchWithHeaders_sent.
  repeat split; try reflexivity. intros name. apply sent_headers.
Qed.

End AmbientFacts.

Lemma dispatch_outcome_witness :
  Ambient.call "0.5.0"
    (Platform.getPlatform Whatwg.lowercase no_conversion null_window_env)
    (fun v => Normal (Json.stringify v)) GET (respond response_200)
    "http://127.0.0.1:11434" JSUndefined None
  = ([], Throw ThrownTypeError) /\
  snd (Ambient.call "0.5.0"
         (Platform.getPlatform Whatwg.lowercase no_conversion browser_env)
         (fun v => Normal (Json.stringify v)) GET (respond response_404)
         "http://127.0.0.1:11434" JSUndefined None)
  = Throw (ThrownResponseError (mkResponseError (JSString "model not found") 404)).
Proof.
  split.
  - exact (proj1 (proj2 (dispatch_outcome "0.5.0"
             (Platform.getPlatform Whatwg.lowercase no_conversion null_window_env)
             (fun v => Normal (Json.stringify v)) GET (respond response_200)
             "http://127.0.0.1:11434" JSUndefined None))
           None ThrownTypeError eq_refl eq_refl).
  - destruct (proj2 (proj2 (dispatch_outcome "0.5.0"
             (Platform.getPlatform Whatwg.lowercase no_conversion browser_env)
             (fun v => Normal (Json.stringify v)) GET (respond response_404)
             "http://127.0.0.1:11434" JSUndefined None))
           None "macintel Browser/Mozilla/5.0;" eq_refl eq_refl)
      as (init & _ & _ & _ & _ & Hbad).
    destruct (Hbad response_404 eq_refl eq_refl) as (error & Hthrown & _ & Hrun).
    rewrite Hrun. cbn [snd]. vm_compute in Hthrown. now injection Hthrown as <-.
Defined.

Lemma dispatch_headers_witness :
  transported (Ambient.call "0.5.0" (Normal "x64 linux Node.js/v20.1.0")
                 (fun v => Normal (Json.stringify v)) HEAD (respond response_200)
                 "http://127.0.0.1:11434" JSUndefined None)
  = [{| method := Some "HEAD"; body := JSUndefined; signal := None;
        headers := Some (defaultHeaders "0.5.0" "x64 linux Node.js/v20.1.0") |}] /\
  defaultHeaders "0.5.0" "x64 linux Node.js/v20.1.0" !! "User-Agent"
  = Some "ollama-js/0.5.0 (x64 linux Node.js/v20.1.0)".
Proof.
  pose proof (dispatch_headers "0.5.0" (Normal "x64 linux Node.js/v20.1.0")
                (fun v => Normal (Json.stringify v)) HEAD (respond response_200)
                "http://127.0.0.1:11434" JSUndefined None "x64 linux Node.js/v20.1.0"
                eq_refl) as (Hnames & _ & _ & Hhead & _).
  split; [exact (Hhead eq_refl)|exact (Hnames "User-Agent")].
Defined.

Lemma fetchWithHeaders_request_witness :
  Ambient.fetchWithHeaders "0.5.0"
    (Platform.getPlatform Whatwg.lowercase no_conversion bare_navigator_env)
    (respond response_200) "http://127.0.0.1:11434" no_options
  = ([], Throw ThrownTypeError) /\
  exists init,
    Ambient.fetchWithHeaders "0.5.0" (Normal "") (respond response_200)
      "http://127.0.0.1:11434" no_options
    = ([Transport "http://127.0.0.1:11434" init], Normal response_200) /\
    headers init ≫= (.!! "Accept") = Some "application/json".
Proof.
  split.
  - exact (proj1 (fetchWithHeaders_request "0.5.0"
             (Platform.getPlatform Whatwg.lowercase no_conversion bare_navigator_env)
             (respond response_200) "http://127.0.0.1:11434" no_options)
           ThrownTypeError eq_refl).
  - destruct (proj2 (fetchWithHeaders_request "0.5.0" (Normal "")
             (respond response_200) "http://127.0.0.1:11434" no_options) "" eq_refl)
      as (init & Hrun & _ & _ & _ & Hheaders).
    exists init. split; [exact Hrun|]. rewrite Hheaders. reflexivity.
Defined.

(** ** ResponseValidator: reads and console lines *)

(** X5.  On a response that is not [ok], [checkOk] reads the body exactly
    once: with [json()] when the content type includes [application/json],
    and with [text()] otherwise, so also when the response has no
    [content-type] header.  It never reads the body both ways. *)
Theorem checkOk_reads (response : Response) :
  (ok response = false ->
   reads (checkOk response) = [if indicatesJSON response then ReadJson else ReadText]) /\
  (ok response = false ->
   headers_get response "content-type" = None ->
   reads (checkOk response) = [ReadText]) /\
  (ok response = true -> reads (checkOk response) = []).
Proof.
  assert (H : ok response = false ->
    reads (checkOk response) = [if indicatesJSON response then ReadJson else ReadText]).
  { intros Hok. rewrite (checkOk_not_ok _ Hok).
    destruct (indicatesJSON response).
    - destruct (json response) as [errorData|]; [|reflexivity].
      destruct (get_prop errorData "error"); reflexivity.
    - destruct (text response); reflexivity. }
  split; [exact H|]. split.
  - intros Hok Hnone. rewrite (H Hok). unfold indicatesJSON. now rewrite Hnone.
  - intros Hok. unfold checkOk. now rewrite Hok.
Qed.

Lemma checkOk_reads_witness :
  reads (checkOk response_404) = [ReadJson] /\
  reads (checkOk (response_500 (Normal "out of memory"))) = [ReadText] /\
  reads (checkOk response_200) = [].
Proof.
  split; [|split].
  - exact (proj1 (checkOk_reads response_404) eq_refl).
  - exact (proj1 (checkOk_reads (response_500 (Normal "out of memory"))) eq_refl).
  - exact (proj2 (proj2 (checkOk_reads response_200)) eq_refl).
Defined.

(** X6.  The console lines of [checkOk] on a response that is not [ok].
    With a JSON content type the one line is the JSON parse error, written
    when [json()] rejects and also when the parsed body is [null] (or
    [undefined]), where reading the [error] field throws; any other body is
    silent.  Otherwise the fetching-text line is written before the body is
    read, and the line on the failure after it when [text()] rejects. *)
Theorem checkOk_logged (response : Response) :
  ok response = false ->
  logged (checkOk response) =
    if indicatesJSON response then
      match json response with
      | Normal JSNull | Normal JSUndefined | Throw _ => [MESSAGES.ERROR_JSON_PARSE]
      | Normal _ => []
      end
    else
      MESSAGES.FETCHING_TEXT ::
      match text response with
      | Normal _ => []
      | Throw _ => [MESSAGES.ERROR_FETCHING_TEXT]
      end.
Proof.
  intros Hok. rewrite (checkOk_not_ok _ Hok).
  destruct (indicatesJSON response).
  - destruct (json response) as [[]|]; reflexivity.
  - destruct (text response); reflexivity.
Qed.

Lemma checkOk_logged_witness :
  logged (checkOk (response_500 (Throw ThrownTypeError))) =
    [MESSAGES.FETCHING_TEXT; MESSAGES.ERROR_FETCHING_TEXT] /\
  logged (checkOk response_404) = [].
Proof.
  split.
  - exact (checkOk_logged (response_500 (Throw ThrownTypeError)) eq_refl).
  - exact (checkOk_logged response_404 eq_refl).
Defined.

(** ** File checks *)

(** X7.  [isFilePath] and [fileExists] never reject: each answers [true]
    when [access] fulfils and [false] when it rejects, whatever the reason.
    The two give the same answer on every path. *)
Theorem file_checks (access : string -> completion unit) (path : string) :
  isFilePath access path = fileExists access path /\
  (exists answer, isFilePath access path = ([], Normal answer)) /\
  (snd (isFilePath access path) = Normal true <-> exists u, access path = Normal u) /\
  (snd (isFilePath access path) = Normal false <-> exists e, access path = Throw e).
Proof.
  unfold isFilePath, fileExists, lift.
  destruct (access path) as [u|e]; cbn.
  - repeat split; eauto; try discriminate. intros [e He]. discriminate.
  - repeat split; eauto; try discriminate. intros [u Hu]. discriminate.
Qed.

(** ** The platform string *)

Section PlatformFacts.

Variable toLowerCase : string -> string.

Lemma append_not_empty (a b : string) : b <> "" -> a ++ b <> "".
Proof. intros Hb. destruct a; [exact Hb|discriminate]. Qed.

Variable ToString : JSValue -> completion string.

(** The second branch gives the empty string only when [process] is
    undefined. *)
Lemma process_branch (process : JSValue) :
  (if negb (String.eqb (typeof process) "undefined")
   then
     arch ← get_prop process "arch";
     arch ← Platform.template_value ToString arch;
     platform ← get_prop process "platform";
     platform ← Platform.template_value ToString platform;
     version ← get_prop process "version";
     version ← Platform.template_value ToString version;
     Normal (arch ++ " " ++ platform ++ " Node.js/" ++ version)
   else Normal "") = Normal "" <->
  typeof process = "undefined".
Proof.
  destruct (String.eqb_spec (typeof process) "undefined") as [E|E]; cbn [negb];
    [tauto|].
  split; [|contradiction]. intros H. exfalso.
  destruct (get_prop process "arch") as [v1|]; cbn in H; [|discriminate H].
  destruct (Platform.template_value ToString v1) as [arch|]; cbn in H; [|discriminate H].
  destruct (get_prop process "platform") as [v2|]; cbn in H; [|discriminate H].
  destruct (Platform.template_value ToString v2) as [platform|]; cbn in H; [|discriminate H].
  destruct (get_prop process "version") as [v3|]; cbn in H; [|discriminate H].
  destruct (Platform.template_value ToString v3) as [version|]; cbn in H; [|discriminate H].
  injection H as H. revert H. apply append_not_empty. discriminate.
Qed.

(** X8.  [getPlatform] takes its first branch when [window] is defined and
    has a [navigator] that is not falsy, and then it does not look at
    [process].  In that branch it throws a [TypeError] when the [platform]
    of that navigator is not a string, and a [ReferenceError] when the
    global [navigator], which it reads the user agent from, is not
    declared; otherwise it gives the browser form with the platform in
    lower case, or throws what reading and converting the user agent
    throws.  It throws a [TypeError] when [window] is [null].  It returns
    the empty string exactly when [window] is undefined or has no
    [navigator] that is not falsy, and [process] is undefined. *)
Theorem getPlatform_cases (env : Platform.Environment) :
  (forall nav other,
      Platform.browses env nav ->
      Platform.getPlatform toLowerCase ToString env =
        Platform.getPlatform toLowerCase ToString
          {| Platform.window := Platform.window env;
             Platform.navigator := Platform.navigator env;
             Platform.process := other |}) /\
  (forall nav,
      Platform.browses env nav ->
      Platform.getPlatform toLowerCase ToString env =
        match get_prop nav "platform" with
        | Normal (JSString platform) =>
            match Platform.navigator env with
            | None => Throw ThrownReferenceError
            | Some global =>
                userAgent ← get_prop global "userAgent";
                agent ← Platform.template_value ToString userAgent;
                Normal (toLowerCase platform ++ " Browser/" ++ agent ++ ";")
            end
        | _ => Throw ThrownTypeError
        end) /\
  (Platform.window env = JSNull ->
   Platform.getPlatform toLowerCase ToString env = Throw ThrownTypeError) /\
  (Platform.getPlatform toLowerCase ToString env = Normal "" <->
   (typeof (Platform.window env) = "undefined" \/
    exists nav, get_prop (Platform.window env) "navigator" = Normal nav /\ truthy nav = false) /\
   typeof (Platform.process env) = "undefined").
Proof.
  unfold Platform.getPlatform, Platform.browses.
  split; [|split; [|split]].
  - intros nav other (Hw & Hnav & Ht). cbn [Platform.window Platform.navigator].
    destruct (String.eqb_spec (typeof (Platform.window env)) "undefined") as [E|_];
      [contradiction|].
    cbn [negb]. rewrite Hnav. cbn. now rewrite Ht.
  - intros nav (Hw & Hnav & Ht).
    destruct (String.eqb_spec (typeof (Platform.window env)) "undefined") as [E|_];
      [contradiction|].
    cbn [negb]. rewrite Hnav. cbn. rewrite Ht.
    destruct (get_prop nav "platform") as [[]|e] eqn:Hp; try reflexivity.
    + unfold Platform.global_navigator. now destruct (Platform.navigator env).
    + destruct nav; try discriminate Ht; cbn in Hp; congruence.
  - intros ->. reflexivity.
  - destruct (String.eqb_spec (typeof (Platform.window env)) "undefined") as [E|E];
      cbn [negb].
    + rewrite (process_branch (Platform.process env)). cbn. split.
      * intros H. split; [now left|tauto].
      * intros [_ H]. tauto.
    + destruct (get_prop (Platform.window env) "navigator") as [nav|e] eqn:Hnav; cbn.
      * destruct (truthy nav) eqn:Ht.
        -- split.
           ++ intros H. exfalso.
              destruct (get_prop nav "platform") as [[]|]; cbn in H; try discriminate H.
              destruct (Platform.global_navigator env) as [global|]; cbn in H;
                [|discriminate H].
              destruct (get_prop global "userAgent") as [userAgent|]; cbn in H;
                [|discriminate H].
              destruct (Platform.template_value ToString userAgent); cbn in H;
                [|discriminate H].
              injection H as H. revert H. apply append_not_empty. discriminate.
           ++ intros [[H|(nav' & [= <-] & H)] _]; [contradiction|congruence].
        -- rewrite (process_branch (Platform.process env)). split.
           ++ intros H. split; [right; now exists nav|tauto].
           ++ tauto.
      * split; [discriminate|]. intros [[H|(nav & H & _)] _]; [contradiction|discriminate].
Qed.

End PlatformFacts.

Lemma getPlatform_cases_witness :
  Platform.getPlatform Whatwg.lowercase no_conversion browser_env
  = Normal "macintel Browser/Mozilla/5.0;" /\
  Platform.getPlatform Whatwg.lowercase no_conversion bare_navigator_env
  = Throw ThrownTypeError /\
  Platform.getPlatform Whatwg.lowercase no_conversion null_window_env
  = Throw ThrownTypeError.
Proof.
  assert (Hmac : Platform.browses browser_env navigator_mac).
  { split; [discriminate|split; reflexivity]. }
  assert (Hbare : Platform.browses bare_navigator_env (JSObject PlainObject [])).
  { split; [discriminate|split; reflexivity]. }
  split; [|split].
  - rewrite (proj1 (proj2 (getPlatform_cases Whatwg.lowercase no_conversion browser_env))
               navigator_mac Hmac).
    reflexivity.
  - rewrite (proj1 (proj2 (getPlatform_cases Whatwg.lowercase no_conversion
                             bare_navigator_env))
               (JSObject PlainObject []) Hbare).
    reflexivity.
  - exact (proj1 (proj2 (proj2 (getPlatform_cases Whatwg.lowercase no_conversion
                                  null_window_env))) eq_refl).
Defined.

(** ** StreamDecoder: chunks, warnings and lines *)

Section StreamFacts.

Local Open Scope list_scope.
Local Open Scope N_scope.

Context {T : Type}.
Variable JSON_parse : codepoints -> option T.

(** The decoder over a queue read in two pieces. *)
Lemma run_app (a b : chunk) :
  forall st,
    Utf8.run st (a ++ b) =
      let '(oa, sa) := Utf8.run st a in
      let '(ob, sb) := Utf8.run sa b in
      (oa ++ ob, sb).
Proof.
  induction a as [|byte a IH]; intros st.
  - cbn [app Utf8.run]. now destruct (Utf8.run st b).
  - cbn [app Utf8.run]. destruct (Utf8.handler st byte) as [st' r].
    destruct r; try destruct (Utf8.handler st' byte) as [st2 r2];
      rewrite IH;
      match goal with
      | |- context [Utf8.run ?s a] => destruct (Utf8.run s a) as [oa sa]
      end;
      destruct (Utf8.run sa b) as [ob sb]; now rewrite <- ?app_assoc.
Qed.

Lemma decode_chunk_eq (c : chunk) :
  decode_chunk c =
    fst (Utf8.serialize false
           (decoded c ++ fst (Utf8.flush (snd (Utf8.run Utf8.initial c))))).
Proof.
  unfold decode_chunk, decoded, Utf8.decode.
  cbv beta iota zeta delta
    [Utf8.new_TextDecoder Utf8.fresh Utf8.decoder Utf8.BOM_seen Utf8.do_not_flush].
  destruct (Utf8.run Utf8.initial c) as [out st]. cbn [fst snd].
  destruct (Utf8.flush st) as [final st']. cbn [fst].
  now destruct (Utf8.serialize false (out ++ final)).
Qed.

Lemma serialize_no_BOM (s : codepoints) :
  starts_with_BOM s = false -> fst (Utf8.serialize false s) = s.
Proof. destruct s as [|cp s]; [reflexivity|]. cbn. now intros ->. Qed.

Lemma decode_chunk_clean (c : chunk) : clean c -> decode_chunk c = decoded c.
Proof.
  intros [Ha Hb]. rewrite decode_chunk_eq. unfold aligned in Ha. rewrite Ha.
  cbn [Utf8.flush fst]. change (fst (Utf8.flush Utf8.initial)) with (@nil N).
  rewrite app_nil_r. now apply serialize_no_BOM.
Qed.

Lemma starts_with_BOM_concat (l : list codepoints) :
  Forall (fun s => starts_with_BOM s = false) l -> starts_with_BOM (List.concat l) = false.
Proof.
  induction 1 as [|s l Hs _ IH]; [reflexivity|].
  cbn [List.concat]. destruct s as [|cp s]; [exact IH|exact Hs].
Qed.

Lemma run_concat (itr : list chunk) :
  Forall aligned itr ->
  Utf8.run Utf8.initial (List.concat itr) = (List.concat (decoded <$> itr), Utf8.initial).
Proof.
  induction 1 as [|c itr Hc _ IH]; [reflexivity|].
  cbn [List.concat]. rewrite run_app. unfold aligned in Hc. unfold decoded at 1.
  rewrite fmap_cons. cbn [List.concat].
  destruct (Utf8.run Utf8.initial c) as [oa sa]. cbn [fst snd] in *. subst sa.
  now rewrite IH.
Qed.

Lemma clean_concat (itr : list chunk) :
  Forall clean itr ->
  clean (List.concat itr) /\ decoded (List.concat itr) = List.concat (decoded <$> itr).
Proof.
  intros Hitr.
  assert (Ha : Forall aligned itr) by (eapply Forall_impl; [exact Hitr|now intros c [H _]]).
  pose proof (run_concat itr Ha) as Hrun.
  assert (Hd : decoded (List.concat itr) = List.concat (decoded <$> itr))
    by (unfold decoded at 1; now rewrite Hrun).
  split; [|exact Hd]. split.
  - unfold aligned. now rewrite Hrun.
  - rewrite Hd. apply starts_with_BOM_concat. apply Forall_fmap.
    eapply Forall_impl; [exact Hitr|]. now intros c [_ H].
Qed.

Lemma stream_text_clean (itr : list chunk) :
  Forall clean itr -> stream_text itr = decode_chunk (List.concat itr).
Proof.
  intros Hitr. destruct (clean_concat itr Hitr) as [Hc Hd].
  rewrite (decode_chunk_clean _ Hc), Hd. unfold stream_text. f_equal. clear Hc Hd.
  induction Hitr as [|c itr Hc' _ IH]; [reflexivity|].
  now rewrite !fmap_cons, (decode_chunk_clean _ Hc'), IH.
Qed.

Lemma ascii_clean (c : chunk) : Forall (fun b => b < 128) c -> clean c.
Proof.
  intros Hc. unfold clean, aligned, decoded. rewrite (run_ascii _ Hc). cbn [fst snd].
  split; [reflexivity|]. destruct Hc as [|b c Hb _]; [reflexivity|].
  cbn [starts_with_BOM]. apply N.eqb_neq. unfold Utf8.BOM. lia.
Qed.

(** X9.  The records do not depend on where the chunks are cut, as long as
    every chunk ends where a character ends and none starts with a byte
    order mark: two such ways to cut the same bytes give the same output.
    Chunks of bytes below 128 are of this kind. *)
Theorem parseJSON_rechunk :
  (forall itr1 itr2 : list chunk,
      Forall clean itr1 -> Forall clean itr2 ->
      List.concat itr1 = List.concat itr2 ->
      parseJSON JSON_parse itr1 = parseJSON JSON_parse itr2) /\
  (forall c : chunk, Forall (fun b => b < 128) c -> clean c).
Proof.
  split; [|exact ascii_clean].
  intros itr1 itr2 H1 H2 Heq.
  rewrite !parseJSON_candidate_records.
  now rewrite (stream_text_clean _ H1), (stream_text_clean _ H2), Heq.
Qed.

Lemma length_split_lines (s : codepoints) :
  List.length (split_lines s) = S (newlines s).
Proof.
  unfold newlines. induction s as [|c r IH]; [reflexivity|].
  cbn [split_lines List.filter]. destruct (c =? LF).
  - cbn [List.length]. now rewrite IH.
  - destruct (split_lines r); [discriminate IH|exact IH].
Qed.

Lemma length_removelast {A} (l : list A) :
  List.length (removelast l) = pred (List.length l).
Proof.
  induction l as [|x l IH]; [reflexivity|].
  destruct l as [|y l]; [reflexivity|].
  change (removelast (x :: y :: l)) with (x :: removelast (y :: l)).
  cbn [List.length] in *. now rewrite IH.
Qed.

(** *** Newlines through the decoder *)

Lemma land_low (byte : N) (k : N) :
  N.land byte (N.ones k) = byte mod 2 ^ k.
Proof. apply N.land_ones. Qed.

Lemma lead_two (byte : N) : 194 <= byte -> byte <= 223 -> N.land byte 31 <> 0.
Proof.
  intros H1 H2. change 31 with (N.ones 5). rewrite land_low.
  change (2 ^ 5) with 32. zify. Z.to_euclidean_division_equations. lia.
Qed.

Lemma lead_three (byte : N) :
  224 <= byte -> byte <= 239 -> byte <> 224 -> N.land byte 15 <> 0.
Proof.
  intros H1 H2 H3. change 15 with (N.ones 4). rewrite land_low.
  change (2 ^ 4) with 16. zify. Z.to_euclidean_division_equations. lia.
Qed.

Lemma lead_four (byte : N) :
  240 <= byte -> byte <= 244 -> byte <> 240 -> N.land byte 7 <> 0.
Proof.
  intros H1 H2 H3. change 7 with (N.ones 3). rewrite land_low.
  change (2 ^ 3) with 8. zify. Z.to_euclidean_division_equations. lia.
Qed.

Lemma continuation_low (byte : N) : 144 <= byte -> byte <= 191 -> N.land byte 63 <> 0.
Proof.
  intros H1 H2. change 63 with (N.ones 6). rewrite land_low.
  change (2 ^ 6) with 64. zify. Z.to_euclidean_division_equations. lia.
Qed.

Lemma code_point_grows (cp x : N) : cp <> 0 -> N.lor (N.shiftl cp 6) x <> 0.
Proof.
  intros Hcp H. apply N.lor_eq_0_iff in H as [H _].
  apply N.shiftl_eq_0_iff in H. contradiction.
Qed.

Lemma code_point_not_LF (cp x : N) : cp <> 0 -> N.lor (N.shiftl cp 6) x <> LF.
Proof.
  intros Hcp H. apply (f_equal (fun n => N.shiftr n 6)) in H.
  rewrite N.shiftr_lor, N.shiftr_shiftl_l in H by reflexivity.
  change (6 - 6) with 0 in H. rewrite N.shiftl_0_r in H.
  change (N.shiftr LF 6) with 0 in H.
  apply N.lor_eq_0_iff in H as [H _]. contradiction.
Qed.

Lemma newlines_app (a b : codepoints) : newlines (a ++ b) = (newlines a + newlines b)%nat.
Proof. unfold newlines. now rewrite List.filter_app, length_app. Qed.

(** One byte: the state stays among those above, and a newline comes out
    exactly for the byte 10. *)
Lemma handler_settled (st : Utf8.state) (byte : N) :
  settled st ->
  match Utf8.handler st byte with
  | (st', Utf8.CodePoint cp) => settled st' /\ (cp =? LF) = (byte =? 10)
  | (st', Utf8.ErrorRestore) => st' = Utf8.initial /\ Utf8.bytes_needed st <> 0
  | (st', _) => settled st' /\ (byte =? 10) = false
  end.
Proof.
  intros Hst. unfold Utf8.handler, Utf8.between.
  destruct (Utf8.bytes_needed st =? 0) eqn:Hn.
  - assert (Hi : st = Utf8.initial).
    { destruct Hst as [H|(H & _)]; [exact H|]. apply N.eqb_eq in Hn. contradiction. }
    subst st.
    destruct ((0 <=? byte) && (byte <=? 127)) eqn:H1.
    { split; [now left|reflexivity]. }
    assert (Hbyte : 128 <= byte).
    { apply andb_false_iff in H1 as [H|H]; [apply N.leb_gt in H; lia|apply N.leb_gt in H; lia]. }
    assert (Hne : (byte =? 10) = false) by (apply N.eqb_neq; lia).
    destruct ((194 <=? byte) && (byte <=? 223)) eqn:H2.
    { apply andb_prop in H2 as [Ha Hb]. apply N.leb_le in Ha, Hb.
      split; [|exact Hne]. right. unfold pending. cbn.
      repeat split; try lia. left. now apply lead_two. }
    destruct ((224 <=? byte) && (byte <=? 239)) eqn:H3.
    { apply andb_prop in H3 as [Ha Hb]. apply N.leb_le in Ha, Hb.
      split; [|exact Hne]. right. unfold pending.
      destruct (N.eqb_spec byte 224) as [E0|E0], (byte =? 237); cbn;
        repeat split; try lia; try (right; lia); left; now apply lead_three. }
    destruct ((240 <=? byte) && (byte <=? 244)) eqn:H4.
    { apply andb_prop in H4 as [Ha Hb]. apply N.leb_le in Ha, Hb.
      split; [|exact Hne]. right. unfold pending.
      destruct (N.eqb_spec byte 240) as [E0|E0], (byte =? 244); cbn;
        repeat split; try lia; try (right; lia); left; now apply lead_four. }
    split; [now left|exact Hne].
  - apply N.eqb_neq in Hn.
    destruct Hst as [->|(_ & Hlo & Hup & Hseen & Hcp)]; [now destruct Hn|].
    destruct ((Utf8.lower_boundary st <=? byte) && (byte <=? Utf8.upper_boundary st)) eqn:Hb;
      cbn [negb]; [|now split].
    apply andb_prop in Hb as [Ha Hb]. apply N.leb_le in Ha, Hb.
    assert (Hne : (byte =? 10) = false) by (apply N.eqb_neq; lia).
    cbv zeta.
    destruct (Utf8.bytes_seen st + 1 =? Utf8.bytes_needed st) eqn:Hdone.
    + apply N.eqb_eq in Hdone. split; [now left|]. rewrite Hne. apply N.eqb_neq.
      apply code_point_not_LF. destruct Hcp as [H|[_ H]]; [exact H|lia].
    + apply N.eqb_neq in Hdone. split; [|exact Hne]. right. unfold pending. cbn.
      repeat split; try lia. left.
      destruct Hcp as [H|[H _]]; [now apply code_point_grows|].
      intros H0. apply N.lor_eq_0_iff in H0 as [_ H0].
      revert H0. apply continuation_low; lia.
Qed.

Lemma newlines_emitted (r : Utf8.result) (byte : N) :
  match r with
  | Utf8.CodePoint cp => (cp =? LF) = (byte =? 10)
  | Utf8.ErrorRestore => True
  | _ => (byte =? 10) = false
  end ->
  newlines (Utf8.emitted r) =
    match r with
    | Utf8.ErrorRestore => 0%nat
    | _ => if byte =? 10 then 1%nat else 0%nat
    end.
Proof.
  destruct r; cbn; unfold newlines; cbn; try (now intros ->).
  - intros <-. now destruct (cp =? LF).
  - reflexivity.
Qed.

Lemma run_settled (c : chunk) :
  forall st, settled st ->
    settled (snd (Utf8.run st c)) /\ newlines (fst (Utf8.run st c)) = newlines c.
Proof.
  induction c as [|byte c IH]; intros st Hst; [now split|].
  cbn [Utf8.run].
  pose proof (handler_settled st byte Hst) as Hh.
  destruct (Utf8.handler st byte) as [st' r].
  assert (Hbyte : newlines (byte :: c) = ((if (byte =? 10)%N then 1 else 0) + newlines c)%nat).
  { unfold newlines. cbn [List.filter]. change LF with 10. now destruct (byte =? 10). }
  destruct r.
  - destruct Hh as [Hs Hb]. destruct (IH st' Hs) as [IH1 IH2].
    destruct (Utf8.run st' c) as [out final]. cbn [fst snd] in *.
    split; [exact IH1|]. rewrite Hbyte, !newlines_app, IH2.
    now rewrite (newlines_emitted Utf8.Continue byte Hb).
  - destruct Hh as [Hs Hb]. destruct (IH st' Hs) as [IH1 IH2].
    destruct (Utf8.run st' c) as [out final]. cbn [fst snd] in *.
    split; [exact IH1|]. rewrite Hbyte, !newlines_app, IH2.
    now rewrite (newlines_emitted (Utf8.CodePoint cp) byte Hb).
  - destruct Hh as [Hs Hb]. destruct (IH st' Hs) as [IH1 IH2].
    destruct (Utf8.run st' c) as [out final]. cbn [fst snd] in *.
    split; [exact IH1|]. rewrite Hbyte, !newlines_app, IH2.
    now rewrite (newlines_emitted Utf8.Error byte Hb).
  - destruct Hh as [-> _].
    pose proof (handler_settled Utf8.initial byte (or_introl eq_refl)) as Hh2.
    destruct (Utf8.handler Utf8.initial byte) as [st2 r2].
    assert (H2 : settled st2 /\
                 newlines (Utf8.emitted r2) = if byte =? 10 then 1%nat else 0%nat).
    { destruct r2.
      - destruct Hh2 as [Hs Hb]. split; [exact Hs|].
        exact (newlines_emitted Utf8.Continue byte Hb).
      - destruct Hh2 as [Hs Hb]. split; [exact Hs|].
        exact (newlines_emitted (Utf8.CodePoint cp) byte Hb).
      - destruct Hh2 as [Hs Hb]. split; [exact Hs|].
        exact (newlines_emitted Utf8.Error byte Hb).
      - destruct Hh2 as [_ Hn]. now destruct Hn. }
    destruct H2 as [Hs2 Hn2]. destruct (IH st2 Hs2) as [IH1 IH2].
    destruct (Utf8.run st2 c) as [out final]. cbn [fst snd] in *.
    split; [exact IH1|]. rewrite Hbyte, !newlines_app, IH2, Hn2. reflexivity.
Qed.

Lemma newlines_flush (st : Utf8.state) : newlines (fst (Utf8.flush st)) = 0%nat.
Proof. unfold Utf8.flush. now destruct (Utf8.bytes_needed st =? 0). Qed.

Lemma newlines_utf8_text (c : chunk) : newlines (utf8_text c) = newlines c.
Proof.
  unfold utf8_text, decoded. rewrite newlines_app, newlines_flush.
  destruct (run_settled c Utf8.initial (or_introl eq_refl)) as [_ H]. rewrite H. lia.
Qed.

Lemma decode_chunk_utf8_text (c : chunk) :
  decode_chunk c = fst (Utf8.serialize false (utf8_text c)).
Proof. apply decode_chunk_eq. Qed.

Lemma newlines_decode_chunk (c : chunk) : newlines (decode_chunk c) = newlines c.
Proof.
  rewrite decode_chunk_utf8_text, <- (newlines_utf8_text c).
  destruct (utf8_text c) as [|cp s]; [reflexivity|]. cbn.
  destruct (cp =? Utf8.BOM) eqn:E; [|reflexivity].
  apply N.eqb_eq in E. subst cp. reflexivity.
Qed.

(** The text of a stream has as many newlines as the stream has bytes 10. *)
Lemma newlines_stream_text (itr : list chunk) :
  newlines (stream_text itr) = newlines (List.concat itr).
Proof.
  unfold stream_text. induction itr as [|c itr IH]; [reflexivity|].
  rewrite fmap_cons. cbn [List.concat]. now rewrite !newlines_app, newlines_decode_chunk, IH.
Qed.


(** *** Segments *)



(** The segments of a text are what [split] gives, and nothing else. *)
Lemma segments_split_lines (s : codepoints) : segments_of s (split_lines s).
Proof.
  split; [apply split_lines_nonempty|]. induction s as [|c s [IH1 IH2]].
  - split; [repeat constructor|reflexivity].
  - pose proof (split_lines_nonempty s) as Hne. cbn [split_lines].
    destruct (c =? LF) eqn:Hc.
    + apply N.eqb_eq in Hc. subst c. split; [constructor; [constructor|exact IH1]|].
      destruct (split_lines s) as [|x xs]; [contradiction|].
      cbn [join_lines] in *. now rewrite IH2.
    + destruct (split_lines s) as [|x xs]; [contradiction|].
      pose proof (List.Forall_inv IH1) as Hx.
      pose proof (List.Forall_inv_tail IH1) as Hxs. split.
      * constructor; [constructor; assumption|exact Hxs].
      * destruct xs as [|y ys]; cbn [join_lines] in *; now rewrite <- IH2.
Qed.



Lemma records_of_split_lines (s : codepoints) :
  records_of (split_lines s) = candidate_records s.
Proof.
  unfold records_of, candidate_records. f_equal.
  now destruct (List.last (split_lines s) []).
Qed.


Lemma outcome_try_yield (record : codepoints) :
  outcome JSON_parse record = try_yield JSON_parse record.
Proof. reflexivity. Qed.


Lemma yielded_try_yield (l : list codepoints) :
  yielded (try_yield JSON_parse <$> l) = omap JSON_parse l.
Proof.
  unfold yielded. induction l as [|x l IH]; [reflexivity|].
  rewrite fmap_cons. unfold try_yield at 1.
  destruct (JSON_parse x) eqn:E; cbn [omap list_omap]; rewrite E, IH; reflexivity.
Qed.

Lemma warned_try_yield (l : list codepoints) :
  warned (try_yield JSON_parse <$> l) = List.filter (rejected JSON_parse) l.
Proof.
  unfold warned. induction l as [|x l IH]; [reflexivity|].
  rewrite fmap_cons. cbn [List.filter]. unfold try_yield at 1, rejected at 1.
  destruct (JSON_parse x) eqn:E; cbn [omap list_omap]; rewrite IH; reflexivity.
Qed.

Lemma length_accepted_rejected (l : list codepoints) :
  (List.length (omap JSON_parse l) + List.length (List.filter (rejected JSON_parse) l) =
   List.length l)%nat.
Proof.
  induction l as [|x l IH]; [reflexivity|].
  cbn [omap list_omap List.filter]. unfold rejected at 1.
  destruct (JSON_parse x); cbn [List.length]; lia.
Qed.

(** X10.  Every record of the text the decoder makes of the chunks gives
    exactly one output, in its place: the value when [JSON.parse] accepts
    it, a warning that names the record when it throws.  The records are
    the lines that a newline ends and, unless it is empty, the rest after
    the last newline.  So the values yielded are those of the accepted
    records, the warnings are the rejected records, both in order, and
    nothing is dropped without a warning. *)
Theorem parseJSON_warnings (itr : list chunk) :
  exists lines : list codepoints,
    segments_of (stream_text itr) lines /\
    let records := records_of lines in
    parseJSON JSON_parse itr = outcome JSON_parse <$> records /\
    yielded (parseJSON JSON_parse itr) = omap JSON_parse records /\
    warned (parseJSON JSON_parse itr) = List.filter (rejected JSON_parse) records /\
    (List.length (yielded (parseJSON JSON_parse itr)) +
     List.length (warned (parseJSON JSON_parse itr)) = List.length records)%nat.
Proof.
  exists (split_lines (stream_text itr)).
  split; [apply segments_split_lines|]. cbv zeta.
  rewrite parseJSON_candidate_records, records_of_split_lines.
  rewrite yielded_try_yield, warned_try_yield.
  repeat split. apply length_accepted_rejected.
Qed.

(** X11.  The number of outputs is the number of newlines of the byte
    stream (bytes 10), and one more when the text after the last newline is
    not empty: every line that a newline ends is handed to [JSON.parse], an
    empty line too, while nothing is made of an empty rest. *)
Theorem parseJSON_count (itr : list chunk) :
  exists lines : list codepoints,
    segments_of (stream_text itr) lines /\
    newlines (stream_text itr) = newlines (List.concat itr) /\
    List.length (parseJSON JSON_parse itr) =
      (newlines (List.concat itr) +
       match List.last lines [] with
       | [] => 0
       | _ => 1
       end)%nat.
Proof.
  exists (split_lines (stream_text itr)).
  split; [apply segments_split_lines|]. split; [apply newlines_stream_text|].
  rewrite parseJSON_candidate_records, length_fmap, <- records_of_split_lines.
  unfold records_of. rewrite length_app, length_removelast, length_split_lines.
  rewrite newlines_stream_text. cbn [pred]. now destruct (List.last _ _).
Qed.

Lemma stream_text_app (itr itr' : list chunk) :
  stream_text (itr ++ itr') = stream_text itr ++ stream_text itr'.
Proof. unfold stream_text. now rewrite fmap_app, concat_app. Qed.

(** X12.  What the generator makes of the chunks read so far does not depend
    on the chunks that follow: the output on [itr ++ itr'] starts with one
    output for every line that a newline ends in the text of [itr], and
    only the unfinished last line of that text is carried over. *)
Theorem parseJSON_incremental (itr itr' : list chunk) :
  let text := stream_text itr in
  parseJSON JSON_parse (itr ++ itr') =
    (try_yield JSON_parse <$> removelast (split_lines text)) ++
    (try_yield JSON_parse <$>
       candidate_records (List.last (split_lines text) [] ++ stream_text itr')).
Proof.
  cbv zeta. rewrite parseJSON_candidate_records, stream_text_app, candidate_records_app.
  apply fmap_app.
Qed.

Lemma decode_chunk_BOM (c : chunk) :
  starts_with_BOM (decoded c) = false ->
  decode_chunk (BOM_bytes ++ c) = decode_chunk c.
Proof.
  intros Hc. rewrite !decode_chunk_eq. unfold decoded in *.
  rewrite run_app. change (Utf8.run Utf8.initial BOM_bytes) with ([Utf8.BOM], Utf8.initial).
  cbv iota beta. destruct (Utf8.run Utf8.initial c) as [out st]. cbn [fst snd] in *.
  change ([Utf8.BOM] ++ out) with (Utf8.BOM :: out).
  rewrite (serialize_no_BOM (out ++ _)).
  - reflexivity.
  - destruct out as [|cp out]; [|exact Hc].
    unfold Utf8.flush. now destruct (Utf8.bytes_needed st =? 0).
Qed.

(** X13.  A byte order mark at the start of a chunk is dropped wherever the
    chunk comes in the stream, not only at the start of the stream: every
    call of [decode] starts afresh. *)
Theorem parseJSON_drops_BOM (pre post : list chunk) (c : chunk) :
  starts_with_BOM (decoded c) = false ->
  parseJSON JSON_parse (pre ++ (BOM_bytes ++ c) :: post) =
    parseJSON JSON_parse (pre ++ c :: post).
Proof.
  intros Hc. rewrite !parseJSON_candidate_records. f_equal. f_equal.
  unfold stream_text. rewrite !fmap_app, !fmap_cons. now rewrite (decode_chunk_BOM _ Hc).
Qed.

End StreamFacts.


Lemma parseJSON_rechunk_witness :
  parseJSON (fun _ => Some tt) [[123; 34; 97; 34; 58; 34]; [195; 169; 34; 125; 10]]%N =
  parseJSON (fun _ => Some tt) [e_acute_stream].
Proof.
  apply (proj1 (parseJSON_rechunk (fun _ => Some tt))).
  - repeat constructor.
  - repeat constructor.
  - reflexivity.
Defined.

Lemma parseJSON_drops_BOM_witness :
  parseJSON (fun _ => Some tt) [[123; 125; 10]; [239; 187; 191; 123; 125; 10]]%N =
  parseJSON (fun _ => Some tt) [[123; 125; 10]; [123; 125; 10]]%N.
Proof.
  exact (parseJSON_drops_BOM (fun _ => Some tt) [[123; 125; 10]%N] [] [123; 125; 10]%N eq_refl).
Defined.

(** ** HostResolver: failures, slashes and common hosts *)

Section ResolverFacts.
Import Whatwg.

Ltac ascii_cases c := destruct c as [[|] [|] [|] [|] [|] [|] [|] [|]].

(** X14.  [formatHost] returns the local endpoint on the empty string
    without calling [new URL], and throws exactly when the host is not empty
    and [new URL] throws on the string made of it. *)
Theorem formatHost_throws (new_URL : string -> option URL) (local host : string) :
  formatHost new_URL local "" = Some local /\
  (formatHost new_URL local host = None <->
   host <> "" /\ new_URL (url_input host) = None).
Proof.
  split; [reflexivity|].
  destruct (String.eqb_spec host "") as [->|Hne].
  - split; [discriminate|]. now intros [H _].
  - rewrite (formatHost_stages new_URL local host Hne).
    destruct (new_URL (url_input host)); cbn; split; try discriminate; auto.
    now intros [_ H].
Qed.

Lemma is_slash_char (c : ascii) : is_code 47 c = true -> c = "/"%char.
Proof. ascii_cases c; vm_compute; congruence. Qed.

Lemma endsWith_slice (s : string) :
  JsString.endsWith s "/" = true -> s = JsString.slice_0_neg1 s ++ "/".
Proof.
  induction s as [|c s IH]; [discriminate|].
  rewrite endsWith_cons. destruct s as [|c' s'].
  - intros Hc. now rewrite (is_slash_char c Hc).
  - intros H.
    change (JsString.slice_0_neg1 (String c (String c' s')))
      with (String c (JsString.slice_0_neg1 (String c' s'))).
    rewrite append_cons. f_equal. exact (IH H).
Qed.

Lemma endsWith_two_cons (c : ascii) (s : string) :
  JsString.endsWith (String c s) "//" =
    String.eqb (String c s) "//" || JsString.endsWith s "//".
Proof. reflexivity. Qed.

Lemma endsWith_two_snoc (t : string) :
  JsString.endsWith (t ++ "/") "//" = JsString.endsWith t "/".
Proof.
  induction t as [|c t IH]; [reflexivity|].
  rewrite append_cons, endsWith_two_cons, IH, endsWith_cons.
  destruct t as [|c' t'].
  - rewrite append_nil_l. cbn [JsString.endsWith]. rewrite orb_false_r.
    clear. ascii_cases c; reflexivity.
  - replace (String.eqb (String c (String c' t' ++ "/")) "//") with false; [reflexivity|].
    symmetry. apply String.eqb_neq. rewrite append_cons. intros [= _ _ H].
    destruct t'; discriminate.
Qed.

Lemma endsWith_two_one (s : string) :
  JsString.endsWith s "/" = false -> JsString.endsWith s "//" = false.
Proof.
  induction s as [|c s IH]; [reflexivity|].
  rewrite endsWith_cons, endsWith_two_cons. destruct s as [|c' s'].
  - intros _. cbn [JsString.endsWith]. rewrite orb_false_r.
    apply String.eqb_neq. discriminate.
  - intros H. rewrite (IH H), orb_false_r.
    destruct (String.eqb_spec (String c (String c' s')) "//") as [E|]; [|reflexivity].
    injection E as -> -> ->. discriminate H.
Qed.

(** X15.  From the string it assembles, [formatHost] removes one character,
    a final slash, and no more: the target ends in a slash exactly when the
    assembled string ends in two. *)
Theorem formatHost_trailing_slash (new_URL : string -> option URL)
    (local host target : string) :
  host <> "" ->
  formatHost new_URL local host = Some target ->
  exists url,
    new_URL (url_input host) = Some url /\
    let assembled :=
      protocol url ++ "//" ++ hostname url ++ ":" ++
      effective_port (isExplicitProtocol host) url ++ pathname url in
    (JsString.endsWith assembled "/" = true -> assembled = target ++ "/") /\
    (JsString.endsWith assembled "/" = false -> target = assembled) /\
    JsString.endsWith target "/" = JsString.endsWith assembled "//".
Proof.
  intros Hne. rewrite (formatHost_stages new_URL local host Hne).
  destruct (new_URL (url_input host)) as [url|]; [|discriminate].
  cbn [mbind option_bind]. intros [= <-]. exists url. split; [reflexivity|].
  cbv zeta. unfold assemble, strip_slash.
  set (assembled := protocol url ++ _).
  destruct (JsString.endsWith assembled "/") eqn:He.
  - pose proof (endsWith_slice _ He) as Hs.
    split; [now intros _|]. split; [discriminate|].
    rewrite Hs at 2. now rewrite endsWith_two_snoc.
  - split; [discriminate|]. split; [reflexivity|].
    now rewrite He, (endsWith_two_one _ He).
Qed.

Lemma effective_port_nonempty (explicit : bool) (url : URL) :
  effective_port explicit url <> "".
Proof.
  unfold effective_port, JsString.falsy.
  destruct (String.eqb_spec (port url) "") as [_|Hne]; [|exact Hne].
  destruct explicit; [|discriminate].
  destruct (String.eqb (protocol url) "https:"); discriminate.
Qed.

Lemma slice_cons (c : ascii) (s : string) :
  s <> "" -> JsString.slice_0_neg1 (String c s) = String c (JsString.slice_0_neg1 s).
Proof. destruct s; [contradiction|reflexivity]. Qed.

Lemma slice_app (a b : string) :
  b <> "" -> JsString.slice_0_neg1 (a ++ b) = a ++ JsString.slice_0_neg1 b.
Proof.
  intros Hb. induction a as [|c a IH]; [reflexivity|].
  rewrite !append_cons, slice_cons, IH; [reflexivity|].
  now apply append_not_empty.
Qed.

Lemma scheme_state_first (c : ascii) (s sch rest : string) :
  scheme_state (String c s) = Some (sch, rest) -> is_alpha c = true ->
  exists sch', sch = String (to_lower c) sch'.
Proof.
  cbn [scheme_state]. intros H Hc.
  assert (Ha : is_alnum c || one_of [43; 45; 46] c = true)
    by (unfold is_alnum; now rewrite Hc).
  rewrite Ha in H. destruct (scheme_state s) as [[sch' rest']|]; [|discriminate].
  injection H as <- <-. now exists sch'.
Qed.

Lemma scheme_start_first (s sch rest : string) :
  scheme_start_state s = Some (sch, rest) ->
  exists c sch', sch = String c sch' /\ is_code 58 c = false.
Proof.
  unfold scheme_start_state. destruct s as [|c s]; [discriminate|].
  destruct (is_alpha c) eqn:Hc; [|discriminate]. intros H.
  destruct (scheme_state_first _ _ _ _ H Hc) as [sch' ->].
  exists (to_lower c), sch'. split; [reflexivity|].
  revert Hc. clear. ascii_cases c; vm_compute; congruence.
Qed.

(** X16.  A target that [formatHost] returns for a host that is not empty
    is read, when it is resolved again, as a host with an explicit scheme:
    it holds [://], does not start with a colon, and goes to [new URL] as
    it is. *)
Theorem formatHost_target_explicit (local host target : string) :
  host <> "" ->
  formatHost URL_new local host = Some target ->
  isExplicitProtocol target = true /\ url_input target = target.
Proof.
  intros Hne. rewrite (formatHost_stages URL_new local host Hne).
  unfold URL_new at 1.
  destruct (basic_url_parse (url_input host)) as [r|] eqn:Hr; [|discriminate].
  cbn [fmap option_fmap option_map mbind option_bind]. intros [= <-].
  destruct (basic_url_parse_scheme _ _ Hr) as (rest & Hstart & _ & _).
  destruct (scheme_start_first _ _ _ Hstart) as (c & sch' & Hsch & Hc).
  pose proof (effective_port_nonempty (isExplicitProtocol host) (getters r)) as Hport.
  unfold assemble. cbn [protocol hostname pathname getters].
  set (P := effective_port _ _) in *.
  set (h := default "" (url_host r)). set (path := serialize_path (url_path_of r)).
  rewrite Hsch.
  assert (Hrest : h ++ ":" ++ P ++ path <> "").
  { apply append_not_empty. discriminate. }
  set (tail := h ++ ":" ++ P ++ path) in *.
  assert (Hform : (String c sch' ++ ":") ++ "//" ++ tail
                  = String c (sch' ++ String ":" (String "/" (String "/" tail)))).
  { now rewrite append_assoc. }
  rewrite Hform.
  assert (Hinc : forall t, JsString.includes
                   (String c (sch' ++ String ":" (String "/" (String "/" t)))) "://" = true).
  { intros t. change (String c (sch' ++ String ":" (String "/" (String "/" t))))
      with (String c sch' ++ String ":" (String "/" (String "/" t))).
    apply includes_app. cbn [String.prefix]. now destruct t. }
  assert (Hst : forall t, JsString.startsWith (String c t) ":" = false).
  { intros t. unfold JsString.startsWith. cbn [String.prefix].
    destruct (ascii_dec ":" c) as [<-|]; [discriminate Hc|reflexivity]. }
  assert (Hy : exists t,
             strip_slash (String c (sch' ++ String ":" (String "/" (String "/" tail))))
             = String c (sch' ++ String ":" (String "/" (String "/" t)))).
  { unfold strip_slash. destruct (JsString.endsWith _ "/"); [|now exists tail].
    exists (JsString.slice_0_neg1 tail).
    rewrite slice_cons by (apply append_not_empty; discriminate).
    rewrite slice_app by discriminate.
    rewrite !slice_cons; [reflexivity|exact Hrest|discriminate|discriminate]. }
  destruct Hy as [t ->].
  unfold url_input, isExplicitProtocol. now rewrite Hinc, Hst.
Qed.

Lemma includes_no_slash (s : string) :
  forallb_string (not_char (is_code 47)) s = true -> JsString.includes s "://" = false.
Proof.
  induction s as [|c s IH]; [reflexivity|].
  cbn [forallb_string]. intros [_ Hs]%andb_prop.
  cbn [JsString.includes]. rewrite (IH Hs), orb_false_r.
  cbn [String.prefix]. destruct (ascii_dec ":" c); [|reflexivity].
  destruct s as [|c' s']; [reflexivity|]. cbn [String.prefix].
  destruct (ascii_dec "/" c') as [<-|]; [|reflexivity].
  cbn [forallb_string] in Hs. apply andb_prop in Hs as [H _]. discriminate H.
Qed.

Lemma host_safe_no_slash (c : ascii) : host_safe c = true -> not_char (is_code 47) c = true.
Proof. ascii_cases c; vm_compute; congruence. Qed.

Lemma host_safe_no_colon (c : ascii) : host_safe c = true -> is_code 58 c = false.
Proof. ascii_cases c; vm_compute; congruence. Qed.

(** A host name, with or without a port after it, has no [://] and does not
    start with a colon. *)
Lemma bare_flags (h rest : string) :
  canonical_host h ->
  forallb_string (not_char (is_code 47)) rest = true ->
  isExplicitProtocol (h ++ rest) = false /\ url_input (h ++ rest) = "http://" ++ h ++ rest.
Proof.
  intros (_ & Hsafe & Hne) Hrest.
  assert (Hinc : JsString.includes (h ++ rest) "://" = false).
  { apply includes_no_slash. rewrite forallb_string_app, Hrest, andb_true_r.
    exact (forallb_string_impl _ _ _ host_safe_no_slash Hsafe). }
  assert (Hst : JsString.startsWith (h ++ rest) ":" = false).
  { destruct h as [|c h]; [contradiction|]. cbn [forallb_string] in Hsafe.
    apply andb_prop in Hsafe as [Hc _]. apply host_safe_no_colon in Hc.
    rewrite append_cons. unfold JsString.startsWith. cbn [String.prefix].
    destruct (ascii_dec ":" c) as [<-|]; [discriminate Hc|reflexivity]. }
  unfold url_input, isExplicitProtocol. now rewrite Hinc, Hst.
Qed.

Lemma host_state_plain (h : string) :
  forallb_string (not_char (one_of [58; 91; 93])) h = true ->
  host_state false h = (h, None).
Proof.
  induction h as [|x h IH]; [reflexivity|].
  cbn [forallb_string]. intros [Hx Hh]%andb_prop. cbn [host_state].
  assert (H : is_code 58 x = false /\ is_code 91 x = false /\ is_code 93 x = false).
  { revert Hx. clear. ascii_cases x; vm_compute; intuition congruence. }
  destruct H as (-> & -> & ->). cbn [andb]. now rewrite (IH Hh).
Qed.

(** A URL that ends with its host: no port, and the path of one empty
    segment. *)
Lemma parse_host_only (scheme h : string) :
  special_scheme scheme -> canonical_host h ->
  basic_url_parse (scheme ++ String ":" (String "/" (String "/" h))) =
    Some {| url_scheme := scheme; url_username := ""; url_password := "";
            url_host := Some h; url_port := None;
            url_path_of := Segments [""];
            url_query := None; url_fragment := None |}.
Proof.
  intros Hscheme (Hparse & Hsafe & Hne).
  unfold basic_url_parse.
  assert (Hvis : forallb_string visible
                   (scheme ++ String ":" (String "/" (String "/" h))) = true).
  { rewrite forallb_string_app, !forallb_string_cons.
    assert (Hh' : forallb_string visible h = true).
    { revert Hsafe. apply forallb_string_impl. intros c Hc.
      now destruct (host_safe_facts c Hc) as (_ & _ & _ & _ & -> & _). }
    rewrite Hh'. destruct Hscheme as [->|[->|[->|[->| ->]]]]; reflexivity. }
  rewrite (strip_leading_visible _ Hvis), (strip_trailing_visible _ Hvis),
    (filter_visible _ Hvis).
  destruct (scheme_start_target scheme (String "/" (String "/" h)) Hscheme)
    as (Hss & Hfile & Hsp).
  rewrite Hss. cbn [mbind option_bind]. rewrite Hfile, Hsp.
  destruct h as [|c h'] eqn:Eh; [contradiction|]. rewrite <- Eh in *.
  assert (Hskip : skip_slashes (String "/" (String "/" h)) = h).
  { rewrite Eh. cbn [skip_slashes].
    change (one_of [47; 92] "/"%char) with true. cbv iota.
    rewrite Eh in Hsafe. cbn [forallb_string] in Hsafe.
    apply andb_prop in Hsafe as [Hc _].
    now destruct (host_safe_facts c Hc) as (_ & _ & _ & _ & _ & _ & _ & _ & ->). }
  rewrite Hskip. clear Hskip.
  unfold authority_state. rewrite Hsp.
  assert (Hauth : forallb_string (not_char (authority_end true)) h = true).
  { revert Hsafe. apply forallb_string_impl. intros x Hx. unfold not_char.
    now destruct (host_safe_facts x Hx) as (_ & _ & _ & _ & _ & _ & -> & _). }
  pose proof (break_app (authority_end true) h "" Hauth (or_introl eq_refl)) as Hbreak.
  rewrite append_nil_r in Hbreak. rewrite Hbreak.
  assert (Hat : forallb_string (not_char (is_code 64)) h = true).
  { revert Hsafe. apply forallb_string_impl. intros x Hx. unfold not_char.
    now destruct (host_safe_facts x Hx) as (_ & _ & _ & _ & _ & _ & _ & -> & _). }
  rewrite (split_last_none _ _ Hat). cbn [mbind option_bind].
  rewrite host_state_plain.
  2:{ revert Hsafe. apply forallb_string_impl. intros x Hx. unfold not_char.
      now destruct (host_safe_facts x Hx) as (_ & _ & _ & _ & _ & -> & _). }
  apply String.eqb_neq in Hne. rewrite Hne. cbn [andb].
  cbn [host_parse]. rewrite Hparse. reflexivity.
Qed.

(** The port state on a decimal numeral. *)
Lemma port_state_digits (scheme port : string) :
  forallb_string is_digit port = true ->
  let n := digits_value 10 port 0 in
  (port = "" \/ default_port scheme = Some n -> (n <= 65535)%N ->
   port_state scheme port = Some None) /\
  (port <> "" -> (n <= 65535)%N -> default_port scheme <> Some n ->
   port_state scheme port = Some (Some n)) /\
  (port <> "" -> (65535 < n)%N -> port_state scheme port = None).
Proof.
  intros Hd n. unfold port_state. rewrite Hd. cbn [negb]. fold n.
  destruct (String.eqb_spec port "") as [He|He].
  - split; [reflexivity|]. split; intros H; now destruct H.
  - split; [|split].
    + intros [H|H] Hle; [contradiction|]. apply N.ltb_ge in Hle. rewrite Hle.
      now rewrite bool_decide_eq_true_2.
    + intros _ Hle Hdef. apply N.ltb_ge in Hle. rewrite Hle.
      now rewrite bool_decide_eq_false_2.
    + intros _ Hlt. apply N.ltb_lt in Hlt. now rewrite Hlt.
Qed.

(** The target of a URL that is a special scheme, a canonical host and, in
    the second form, a decimal port. *)
Lemma resolve_host_only (local x scheme h : string) :
  special_scheme scheme -> canonical_host h ->
  x <> "" ->
  url_input x = scheme ++ String ":" (String "/" (String "/" h)) ->
  formatHost URL_new local x =
    Some (target scheme h (port_text (isExplicitProtocol x) scheme None) "").
Proof.
  intros Hscheme Hcanon Hx Hin.
  rewrite (formatHost_stages URL_new local x Hx), Hin. unfold URL_new.
  rewrite (parse_host_only _ _ Hscheme Hcanon).
  cbn [fmap option_fmap option_map mbind option_bind]. f_equal.
  match goal with
  | |- assemble _ _ (effective_port ?f (getters ?r)) _ = _ =>
      change (effective_port f (getters r)) with (port_text f scheme None)
  end.
  unfold assemble.
  cbn [protocol hostname pathname getters url_scheme url_host url_path_of default
       from_option serialize_path id].
  rewrite target_eq. change (serialize_segments [""]) with ("" ++ "/").
  rewrite target_app. apply strip_slash_snoc.
Qed.

Lemma resolve_host_port (local x scheme h port : string) :
  special_scheme scheme -> canonical_host h ->
  forallb_string is_digit port = true ->
  x <> "" ->
  url_input x = target scheme h port "" ->
  formatHost URL_new local x =
    (p ← port_state scheme port;
     Some (target scheme h (port_text (isExplicitProtocol x) scheme p) "")).
Proof.
  intros Hscheme Hcanon Hd Hx Hin.
  rewrite (formatHost_stages URL_new local x Hx), Hin. unfold URL_new.
  change "" with (serialize_segments []) at 1.
  rewrite (reparse _ _ _ [] Hscheme Hcanon Hd ltac:(constructor)).
  destruct (port_state scheme port) as [p|]; [|reflexivity].
  cbn [fmap option_fmap option_map mbind option_bind]. f_equal.
  match goal with
  | |- assemble _ _ (effective_port ?f (getters ?r)) _ = _ =>
      change (effective_port f (getters r)) with (port_text f scheme p)
  end.
  unfold assemble.
  cbn [protocol hostname pathname getters url_scheme url_host url_path_of default
       from_option serialize_path id].
  rewrite target_eq. change (serialize_segments [""]) with ("" ++ "/").
  rewrite target_app. apply strip_slash_snoc.
Qed.

Lemma port_text_some (flag : bool) (scheme : string) (n : N) :
  port_text flag scheme (Some n) = N_to_string n.
Proof.
  unfold port_text, effective_port. cbn [port from_option]. unfold JsString.falsy.
  destruct (String.eqb_spec (N_to_string n) "") as [He|]; [|reflexivity].
  now destruct (N_to_string_nonempty n).
Qed.

Lemma target_bare (h port : string) :
  "http://" ++ h ++ ":" ++ port = target "http" h port "".
Proof. unfold target. now rewrite append_nil_r. Qed.

(** X17.  A host name without scheme, for a host that the URL parser leaves
    as it is (a lower-case domain, an IPv4 address), resolves to that host
    on port 11434 with the [http] scheme.  With a decimal port after it, the
    port is kept, written without leading zeros; but port 80 is the default
    of [http], so the URL holds no port and the target gets 11434 again.  A
    port above 65535 makes [new URL] throw. *)
Theorem formatHost_bare_host (local h port : string) :
  canonical_host h ->
  forallb_string is_digit port = true ->
  let n := digits_value 10 port 0 in
  formatHost URL_new local h = Some ("http://" ++ h ++ ":11434") /\
  (port = "" \/ n = 80%N ->
   formatHost URL_new local (h ++ ":" ++ port) = Some ("http://" ++ h ++ ":11434")) /\
  (port <> "" -> (n <= 65535)%N -> n <> 80%N ->
   formatHost URL_new local (h ++ ":" ++ port)
     = Some ("http://" ++ h ++ ":" ++ N_to_string n)) /\
  (port <> "" -> (65535 < n)%N ->
   formatHost URL_new local (h ++ ":" ++ port) = None).
Proof.
  intros Hcanon Hd n.
  assert (Hsp : special_scheme "http") by (right; now left).
  assert (Hh : h <> "") by now destruct Hcanon as (_ & _ & ?).
  split.
  - destruct (bare_flags h "" Hcanon eq_refl) as [Hflag Hin].
    rewrite append_nil_r in Hflag, Hin.
    rewrite (resolve_host_only local h "http" h Hsp Hcanon Hh Hin), Hflag.
    now rewrite <- target_bare.
  - assert (Hrest : forallb_string (not_char (is_code 47)) (":" ++ port) = true).
    { change (":" ++ port) with (String ":" port). rewrite forallb_string_cons.
      now rewrite (forallb_string_impl _ _ _ digit_no_slash Hd). }
    destruct (bare_flags h (":" ++ port) Hcanon Hrest) as [Hflag Hin].
    rewrite target_bare in Hin.
    assert (Hx : h ++ ":" ++ port <> "") by (apply append_not_empty; discriminate).
    pose proof (resolve_host_port local _ "http" h port Hsp Hcanon Hd Hx Hin) as Hres.
    rewrite Hflag in Hres.
    destruct (port_state_digits "http" port Hd) as (Hnone & Hsome & Hfail). fold n in Hnone, Hsome, Hfail.
    split; [|split].
    + intros Hcase. rewrite Hres, Hnone.
      * cbn [mbind option_bind]. now rewrite <- target_bare.
      * destruct Hcase as [He|He]; [now left|right; now rewrite He].
      * destruct Hcase as [He|He]; [subst n; rewrite He; cbn; lia|rewrite He; lia].
    + intros Hp Hle Hn80. rewrite Hres, Hsome; try assumption.
      * cbn [mbind option_bind]. now rewrite port_text_some, <- target_bare.
      * cbn. congruence.
    + intros Hp Hlt. now rewrite Hres, Hfail.
Qed.

(** X18.  With an explicit special scheme other than [file], a canonical
    host and no port in the URL, the target gets port 443 for [https] and
    port 80 for every other scheme.  The URL holds no port also when the
    port given is the default of the scheme, so [wss://host:443] and
    [ftp://host:21] resolve to port 80.  Another port up to 65535 is kept. *)
Theorem formatHost_explicit_scheme (local scheme h port : string) :
  special_scheme scheme ->
  canonical_host h ->
  forallb_string is_digit port = true ->
  let n := digits_value 10 port 0 in
  let fallback := if String.eqb scheme "https" then "443" else "80" in
  formatHost URL_new local (scheme ++ "://" ++ h)
    = Some (scheme ++ "://" ++ h ++ ":" ++ fallback) /\
  (port = "" \/ default_port scheme = Some n ->
   formatHost URL_new local (scheme ++ "://" ++ h ++ ":" ++ port)
     = Some (scheme ++ "://" ++ h ++ ":" ++ fallback)) /\
  (port <> "" -> (n <= 65535)%N -> default_port scheme <> Some n ->
   formatHost URL_new local (scheme ++ "://" ++ h ++ ":" ++ port)
     = Some (scheme ++ "://" ++ h ++ ":" ++ N_to_string n)) /\
  (port <> "" -> (65535 < n)%N ->
   formatHost URL_new local (scheme ++ "://" ++ h ++ ":" ++ port) = None).
Proof.
  intros Hsp Hcanon Hd n fallback.
  assert (Hform : forall t, scheme ++ "://" ++ h ++ ":" ++ t = target scheme h t "").
  { intros t. unfold target. now rewrite append_nil_r. }
  assert (Hnone : port_text true scheme None = fallback).
  { subst fallback. destruct Hsp as [->|[->|[->|[->| ->]]]]; reflexivity. }
  assert (Hdef : default_port scheme = Some n -> (n <= 65535)%N).
  { destruct Hsp as [->|[->|[->|[->| ->]]]]; cbn; intros [= <-]; lia. }
  split.
  - assert (Hx : scheme ++ "://" ++ h <> "").
    { apply append_not_empty. discriminate. }
    assert (Hflags : isExplicitProtocol (scheme ++ "://" ++ h) = true /\
                     url_input (scheme ++ "://" ++ h) = scheme ++ "://" ++ h).
    { assert (Hinc : JsString.includes (scheme ++ "://" ++ h) "://" = true).
      { apply includes_app. cbn [String.prefix]. now destruct h. }
      assert (Hst : JsString.startsWith (scheme ++ "://" ++ h) ":" = false).
      { destruct Hsp as [->|[->|[->|[->| ->]]]]; vm_compute; reflexivity. }
      unfold url_input, isExplicitProtocol. now rewrite Hinc, Hst. }
    destruct Hflags as [Hflag Hin].
    rewrite (resolve_host_only local _ scheme h Hsp Hcanon Hx Hin), Hflag, Hnone.
    now rewrite Hform.
  - rewrite !Hform.
    destruct (target_flags scheme h port "" Hsp) as [Hflag Hin].
    pose proof (resolve_host_port local _ scheme h port Hsp Hcanon Hd
                  (target_nonempty _ _ _ _) Hin) as Hres.
    rewrite Hflag in Hres.
    destruct (port_state_digits scheme port Hd) as (Hn & Hsome & Hfail).
    fold n in Hn, Hsome, Hfail.
    split; [|split].
    + intros Hcase. rewrite Hres, Hn; [cbn [mbind option_bind]; now rewrite Hnone|assumption|].
      destruct Hcase as [He|Hc]; [|now apply Hdef]. subst n. rewrite He. cbn. lia.
    + intros Hp Hle Hne. rewrite Hres, Hsome by assumption.
      cbn [mbind option_bind]. now rewrite port_text_some.
    + intros Hp Hlt. now rewrite Hres, Hfail.
Qed.

End ResolverFacts.

Lemma formatHost_trailing_slash_witness :
  exists url,
    Whatwg.URL_new (url_input "http://example.com//") = Some url /\
    JsString.endsWith "http://example.com:80/" "/" = true.
Proof.
  destruct (formatHost_trailing_slash Whatwg.URL_new "" "http://example.com//"
              "http://example.com:80/" ltac:(discriminate) ltac:(vm_compute; reflexivity))
    as (url & Hurl & _ & _ & Hend).
  exists url. split; [exact Hurl|]. rewrite Hend.
  vm_compute in Hurl. injection Hurl as <-. reflexivity.
Defined.

Lemma formatHost_throws_witness :
  formatHost Whatwg.URL_new "http://127.0.0.1:11434" "foo://:80/p" = None.
Proof.
  apply (proj2 (proj2 (formatHost_throws Whatwg.URL_new "http://127.0.0.1:11434"
                         "foo://:80/p"))).
  split; [discriminate|vm_compute; reflexivity].
Defined.

Lemma formatHost_target_explicit_witness :
  isExplicitProtocol "http://example.com:11434" = true /\
  url_input "http://example.com:11434" = "http://example.com:11434".
Proof.
  apply (formatHost_target_explicit "http://127.0.0.1:11434" "example.com");
    [discriminate|vm_compute; reflexivity].
Defined.

Lemma canonical_host_example : canonical_host "example.com".
Proof. repeat split. discriminate. Qed.

Lemma formatHost_bare_host_witness :
  formatHost Whatwg.URL_new "http://127.0.0.1:11434" "example.com:80"
    = Some "http://example.com:11434" /\
  formatHost Whatwg.URL_new "http://127.0.0.1:11434" "example.com:08080"
    = Some "http://example.com:8080" /\
  formatHost Whatwg.URL_new "http://127.0.0.1:11434" "example.com:65536" = None.
Proof.
  split; [|split].
  - apply (proj1 (proj2 (formatHost_bare_host "http://127.0.0.1:11434" "example.com" "80"
                           canonical_host_example eq_refl))).
    right. reflexivity.
  - apply (proj1 (proj2 (proj2 (formatHost_bare_host "http://127.0.0.1:11434" "example.com"
                                  "08080" canonical_host_example eq_refl))));
      [discriminate|vm_compute; discriminate|vm_compute; discriminate].
  - apply (proj2 (proj2 (proj2 (formatHost_bare_host "http://127.0.0.1:11434" "example.com"
                                  "65536" canonical_host_example eq_refl))));
      [discriminate|reflexivity].
Defined.

Lemma formatHost_explicit_scheme_witness :
  formatHost Whatwg.URL_new "http://127.0.0.1:11434" "wss://example.com:443"
    = Some "wss://example.com:80" /\
  formatHost Whatwg.URL_new "http://127.0.0.1:11434" "https://example.com:8443"
    = Some "https://example.com:8443".
Proof.
  split.
  - apply (proj1 (proj2 (formatHost_explicit_scheme "http://127.0.0.1:11434" "wss"
                           "example.com" "443"
                           (or_intror (or_intror (or_intror (or_intror eq_refl))))
                           canonical_host_example eq_refl))).
    right. reflexivity.
  - apply (proj1 (proj2 (proj2 (formatHost_explicit_scheme "http://127.0.0.1:11434" "https"
                                  "example.com" "8443"
                                  (or_intror (or_intror (or_introl eq_refl)))
                                  canonical_host_example eq_refl))));
      [discriminate|vm_compute; discriminate|vm_compute; discriminate].
Defined.

Lemma file_checks_witness :
  snd (isFilePath (fun _ => Throw ThrownTypeError) "/models/llama3") = Normal false /\
  snd (fileExists (fun _ => Normal tt) "/models/llama3") = Normal true.
Proof.
  split.
  - apply (proj2 (proj2 (proj2 (proj2
             (file_checks (fun _ => Throw ThrownTypeError) "/models/llama3"))))).
    now exists ThrownTypeError.
  - rewrite <- (proj1 (file_checks (fun _ => Normal tt) "/models/llama3")).
    apply (proj2 (proj1 (proj2 (proj2
             (file_checks (fun _ => Normal tt) "/models/llama3"))))).
    now exists tt.
Defined.

(** * Resolving a target again *)

Section TargetAgain.

Variable new_URL : string -> option URL.
Hypothesis Hreads : reads_back new_URL.
Variable local : string.

(** The port [formatHost] writes is a number, and when it is the default
    of the scheme it is the one [formatHost] falls back to. *)
Lemma effective_port_number (flag : bool) (input scheme : string) (u : URL) :
  new_URL input = Some u -> protocol u = scheme ++ ":" ->
  exists n,
    effective_port flag u = Whatwg.N_to_string n /\ (n <= 65535)%N /\
    (Whatwg.default_port scheme = Some n ->
     (if String.eqb (protocol u) "https:" then "443" else "80") = Whatwg.N_to_string n).
Proof.
  intros Hu Hprot.
  destruct (rb_port _ Hreads _ _ _ Hu Hprot) as [Hp|(m & Hp & Hle & Hnd)].
  - unfold effective_port. rewrite Hp.
    change (JsString.falsy "") with true. cbv iota.
    destruct flag; cbn [negb].
    + destruct (String.eqb (protocol u) "https:") eqn:E.
      * exists 443%N. split; [reflexivity|]. split; [lia|]. reflexivity.
      * exists 80%N. split; [reflexivity|]. split; [lia|]. reflexivity.
    + exists 11434%N. split; [reflexivity|]. split; [lia|].
      intros Hd. exfalso. revert Hd. unfold Whatwg.default_port.
      repeat destruct (String.eqb scheme _); discriminate.
  - exists m. unfold effective_port. rewrite Hp.
    rewrite (falsy_false _ (N_to_string_nonempty m)).
    split; [reflexivity|]. split; [assumption|]. intros Hd. contradiction.
Qed.

Lemma target_no_path (scheme h port : string) :
  port <> "" -> Whatwg.forallb_string Whatwg.is_digit port = true ->
  JsString.endsWith (target scheme h port "") "/" = false.
Proof.
  intros Hne Hd. rewrite target_split, append_nil_r.
  rewrite endsWith_app by assumption.
  exact (endsWith_no_slash _ (forallb_string_impl _ _ _ digit_no_slash Hd)).
Qed.

Lemma target_path_end (scheme h port path : string) :
  path <> "" ->
  JsString.endsWith (target scheme h port path) "/" = JsString.endsWith path "/".
Proof.
  intros Hp. rewrite target_split.
  rewrite endsWith_app by (destruct port; [rewrite append_nil_l; exact Hp|discriminate]).
  now apply endsWith_app.
Qed.

(** Taking the slash off the text assembled takes it off the path. *)
Lemma strip_path (scheme h port path : string) :
  port <> "" -> Whatwg.forallb_string Whatwg.is_digit port = true ->
  exists path',
    (path = path' \/ path = path' ++ "/") /\
    strip_slash (target scheme h port path) = target scheme h port path'.
Proof.
  intros Hne Hd. destruct (JsString.endsWith path "/") eqn:E.
  - exists (JsString.slice_0_neg1 path). pose proof (endsWith_slice _ E) as Hs.
    split; [now right|]. rewrite Hs at 1. rewrite target_app. apply strip_slash_snoc.
  - exists path. split; [now left|]. unfold strip_slash.
    destruct path as [|c p].
    + now rewrite target_no_path.
    + now rewrite target_path_end, E.
Qed.

(** A target is an explicit host. *)
Lemma target_explicit (scheme h port path : string) :
  scheme <> "" -> JsString.startsWith scheme ":" = false ->
  isExplicitProtocol (target scheme h port path) = true /\
  url_input (target scheme h port path) = target scheme h port path.
Proof.
  intros Hne Hfirst.
  assert (Hinc : JsString.includes (target scheme h port path) "://" = true).
  { unfold target. apply includes_app. cbn [String.prefix].
    now destruct (h ++ String ":" (port ++ path)). }
  assert (Hst : JsString.startsWith (target scheme h port path) ":" = false).
  { destruct scheme as [|c s]; [contradiction|].
    unfold target. rewrite append_cons.
    unfold JsString.startsWith in *. cbn [String.prefix] in *.
    destruct (ascii_dec ":" c); [|reflexivity]. now destruct s. }
  unfold url_input, isExplicitProtocol. now rewrite Hinc, Hst.
Qed.

Lemma resolve_target_again (x y : string) (u : URL) :
  x <> "" ->
  new_URL (url_input x) = Some u ->
  hostname u <> "" -> protocol u <> "file:" ->
  formatHost new_URL local x = Some y ->
  formatHost new_URL local y = Some (strip_slash y).
Proof.
  intros Hx Hu Hhost Hfile Hy.
  rewrite (formatHost_stages new_URL local x Hx), Hu in Hy.
  cbn [mbind option_bind] in Hy. injection Hy as Hy.
  destruct (rb_protocol _ Hreads _ _ Hu) as (scheme & Hprot & Hne & Hfirst).
  destruct (effective_port_number (isExplicitProtocol x) _ scheme u Hu Hprot)
    as (n & Hport & Hle & Hfallback).
  unfold assemble in Hy. rewrite Hprot, Hport, target_eq in Hy.
  destruct (strip_path scheme (hostname u) (Whatwg.N_to_string n) (pathname u)
              (N_to_string_nonempty n) (N_to_string_digits n))
    as (path & Hpath & Hstrip).
  rewrite Hstrip in Hy. subst y.
  assert (Hscheme : scheme <> "file").
  { intros ->. now apply Hfile. }
  destruct (rb_reparse _ Hreads _ u scheme n path Hu Hprot Hhost Hscheme Hle Hpath)
    as (u' & Hu' & Hprot' & Hhost' & Hport' & Hpath').
  rewrite (formatHost_stages new_URL local _ (target_nonempty _ _ _ _)).
  destruct (target_explicit scheme (hostname u) (Whatwg.N_to_string n) path Hne Hfirst)
    as (-> & ->).
  rewrite Hu'. cbn [mbind option_bind]. f_equal.
  assert (Heff : effective_port true u' = Whatwg.N_to_string n).
  { unfold effective_port. rewrite Hport', Hprot'.
    destruct (bool_decide_reflect (Whatwg.default_port scheme = Some n)) as [Hd|Hd].
    - change (JsString.falsy "") with true. cbv iota. cbn [negb]. exact (Hfallback Hd).
    - now rewrite (falsy_false _ (N_to_string_nonempty n)). }
  unfold assemble. rewrite Heff, Hprot', Hhost', Hprot, target_eq, Hpath'.
  destruct (String.eqb path "" && Whatwg.is_special scheme) eqn:E; [|reflexivity].
  apply andb_prop in E as [E _]. apply String.eqb_eq in E. subst path.
  change (target scheme (hostname u) (Whatwg.N_to_string n) "/")
    with (target scheme (hostname u) (Whatwg.N_to_string n) ("" ++ "/")).
  rewrite target_app, strip_slash_snoc. unfold strip_slash.
  now rewrite (target_no_path _ _ _ (N_to_string_nonempty n) (N_to_string_digits n)).
Qed.

End TargetAgain.

Lemma slice_shorter (s : string) :
  s <> "" -> String.length (JsString.slice_0_neg1 s) < String.length s.
Proof.
  induction s as [|c s IH]; [contradiction|]. intros _.
  destruct s as [|c' s']; [cbv [String.length JsString.slice_0_neg1]; lia|].
  change (JsString.slice_0_neg1 (String c (String c' s')))
    with (String c (JsString.slice_0_neg1 (String c' s'))).
  specialize (IH ltac:(discriminate)). cbn [String.length] in *. lia.
Qed.

Lemma strip_slash_fixed (s : string) :
  strip_slash s = s <-> JsString.endsWith s "/" = false.
Proof.
  unfold strip_slash. destruct (JsString.endsWith s "/") eqn:E; [|tauto].
  split; [|discriminate]. intros H. exfalso.
  assert (Hs : s <> "") by (intros ->; discriminate E).
  pose proof (slice_shorter s Hs) as Hlt. rewrite H in Hlt. lia.
Qed.

(** ** The URL parser model reads back *)

Section ReadBackModel.
Import Whatwg.

Ltac ascii_cases c := destruct c as [[|] [|] [|] [|] [|] [|] [|] [|]].

(** Schemes. *)

Lemma scheme_char_lower (c : ascii) :
  is_alnum c || one_of [43; 45; 46] c = true ->
  is_alnum (to_lower c) || one_of [43; 45; 46] (to_lower c) = true /\
  visible (to_lower c) = true.
Proof. ascii_cases c; vm_compute; intuition congruence. Qed.

Lemma scheme_state_reparse (s : string) :
  forall sch rest,
    scheme_state s = Some (sch, rest) ->
    forallb_string visible sch = true /\
    forall t, scheme_state (sch ++ String ":" t) = Some (sch, t).
Proof.
  induction s as [|c s IH]; intros sch rest; [discriminate|].
  cbn [scheme_state].
  destruct (is_alnum c || one_of [43; 45; 46] c) eqn:Hc.
  - destruct (scheme_state s) as [[sch' rest']|] eqn:E; [|discriminate].
    intros [= <- <-]. destruct (IH _ _ eq_refl) as [Hv Hre].
    destruct (scheme_char_lower c Hc) as [Hl Hvis].
    split. { cbn [forallb_string]. now rewrite Hvis, Hv. }
    intros t. rewrite append_cons. cbn [scheme_state].
    now rewrite Hl, Hre, to_lower_idem.
  - destruct (is_code 58 c); [|discriminate]. intros [= <- <-].
    split; [reflexivity|]. intros t. reflexivity.
Qed.

Lemma scheme_start_reparse (s sch rest : string) :
  scheme_start_state s = Some (sch, rest) ->
  forallb_string visible sch = true /\
  forall t, scheme_start_state (sch ++ String ":" t) = Some (sch, t).
Proof.
  unfold scheme_start_state at 1. destruct s as [|c s]; [discriminate|].
  destruct (is_alpha c) eqn:Hc; [|discriminate]. intros H.
  destruct (scheme_state_first _ _ _ _ H Hc) as [sch' ->].
  destruct (scheme_state_reparse _ _ _ H) as [Hv Hre].
  split; [exact Hv|]. intros t. specialize (Hre t).
  rewrite append_cons in *. unfold scheme_start_state.
  assert (Hl : is_alpha (to_lower c) = true).
  { revert Hc. clear. ascii_cases c; vm_compute; congruence. }
  now rewrite Hl.
Qed.

(** Opaque hosts. *)

Lemma opaque_safe_facts (c : ascii) :
  opaque_safe c = true ->
  forbidden_host c = false /\ c0_control_set c = false /\ visible c = true /\
  one_of [58; 91; 93] c = false /\ authority_end false c = false /\
  is_code 64 c = false /\ is_code 91 c = false.
Proof. ascii_cases c; vm_compute; intuition congruence. Qed.

Lemma percent_encode_byte_opaque (c : ascii) :
  forallb_string opaque_safe (percent_encode_byte c) = true.
Proof. ascii_cases c; vm_compute; reflexivity. Qed.

Lemma percent_encode_opaque (s : string) :
  existsb_string forbidden_host s = false ->
  forallb_string opaque_safe (percent_encode c0_control_set s) = true.
Proof.
  induction s as [|c s IH]; [reflexivity|]. cbn [existsb_string percent_encode].
  intros [Hc Hs]%orb_false_elim. rewrite forallb_string_app, (IH Hs), andb_true_r.
  unfold encode_char. destruct (c0_control_set c) eqn:E.
  - apply percent_encode_byte_opaque.
  - cbn [forallb_string]. unfold opaque_safe. now rewrite Hc, E.
Qed.

Lemma host_parse_opaque_safe (input h : string) :
  host_parse_opaque input = Some h -> forallb_string opaque_safe h = true.
Proof.
  unfold host_parse_opaque. destruct (starts_with_bracket input); [discriminate|].
  destruct (existsb_string forbidden_host input) eqn:E; [discriminate|].
  intros [= <-]. now apply percent_encode_opaque.
Qed.

Lemma opaque_safe_parse (h : string) :
  forallb_string opaque_safe h = true -> host_parse_opaque h = Some h.
Proof.
  intros Hh. unfold host_parse_opaque.
  assert (Hb : starts_with_bracket h = false).
  { destruct h as [|c h]; [reflexivity|]. cbn [forallb_string] in Hh.
    apply andb_prop in Hh as [Hc _]. cbn [starts_with_bracket].
    now destruct (opaque_safe_facts c Hc) as (_ & _ & _ & _ & _ & _ & ->). }
  assert (Hf : existsb_string forbidden_host h = false).
  { apply forall_not_exists. revert Hh. apply forallb_string_impl. intros c Hc.
    unfold not_char. now destruct (opaque_safe_facts c Hc) as (-> & _). }
  assert (He : percent_encode c0_control_set h = h).
  { clear Hb Hf. induction h as [|c h IH]; [reflexivity|].
    cbn [forallb_string] in Hh. apply andb_prop in Hh as [Hc Hh].
    cbn [percent_encode]. unfold encode_char.
    destruct (opaque_safe_facts c Hc) as (_ & -> & _).
    now rewrite (IH Hh). }
  now rewrite Hb, Hf, He.
Qed.

(** Paths of a scheme that is not special. *)

Lemma encode_char_kept (c : ascii) :
  is_slash false c = false -> is_query_or_fragment c = false ->
  kept_chars (encode_char path_set c).
Proof.
  unfold kept_chars. revert c.
  assert (H : forall c, is_slash false c = false -> is_query_or_fragment c = false ->
                        forallb_string kept_char (encode_char path_set c) = true).
  { intros c. ascii_cases c; vm_compute; congruence. }
  exact H.
Qed.

Lemma kept_chars_app (a b : string) : kept_chars a -> kept_chars b -> kept_chars (a ++ b).
Proof. unfold kept_chars. intros Ha Hb. now rewrite forallb_string_app, Ha, Hb. Qed.

Lemma end_segment_kept (path : list string) (buf : string) (slash : bool) :
  Forall kept_segment path -> kept_chars buf -> Forall kept_segment (end_segment path buf slash).
Proof.
  intros Hp Hb. unfold end_segment.
  assert (He : kept_segment "") by (repeat split).
  destruct (is_double_dot buf) eqn:Hdd; [|destruct (is_single_dot buf) eqn:Hsd].
  - destruct slash.
    + now apply Forall_removelast.
    + apply Forall_app. split; [now apply Forall_removelast|]. now repeat constructor.
  - destruct slash; [assumption|]. apply Forall_app. split; [assumption|]. now repeat constructor.
  - apply Forall_app. split; [assumption|]. repeat constructor; assumption.
Qed.

Lemma path_state_kept (s : string) :
  forall path buf segments rest,
    path_state false path buf s = (segments, rest) ->
    Forall kept_segment path -> kept_chars buf -> Forall kept_segment segments.
Proof.
  induction s as [|c s IH]; intros path buf segments rest; cbn [path_state].
  - intros [= <- <-] Hp Hb. now apply end_segment_kept.
  - destruct (is_slash false c) eqn:Hs.
    + intros H Hp Hb. apply (IH _ _ _ _ H); [now apply end_segment_kept|reflexivity].
    + destruct (is_query_or_fragment c) eqn:Hq.
      * intros [= <- <-] Hp Hb. now apply end_segment_kept.
      * intros H Hp Hb. apply (IH _ _ _ _ H); [assumption|].
        apply kept_chars_app; [assumption|]. now apply encode_char_kept.
Qed.

Lemma kept_char_step (c : ascii) :
  kept_char c = true ->
  is_slash false c = false /\ is_query_or_fragment c = false /\
  encode_char path_set c = String c "" /\ visible c = true /\
  not_char (is_code 47) c = true.
Proof. ascii_cases c; vm_compute; intuition congruence. Qed.

Lemma path_state_kept_chars (s r : string) :
  forall acc buf, kept_chars s ->
    path_state false acc buf (s ++ r) = path_state false acc (buf ++ s) r.
Proof.
  induction s as [|c s IH]; intros acc buf Hs.
  - now rewrite append_nil_r.
  - unfold kept_chars in Hs. cbn [forallb_string] in Hs.
    apply andb_prop in Hs as [Hc Hs].
    destruct (kept_char_step c Hc) as (H1 & H2 & H3 & _).
    rewrite append_cons. cbn [path_state]. rewrite H1, H2, H3, (IH _ _ Hs).
    now rewrite append_assoc.
Qed.

Lemma path_state_kept_serialize (segs : list string) :
  forall acc s, Forall kept_segment segs -> kept_segment s ->
    path_state false acc "" (s ++ serialize_segments segs) = ((acc ++ s :: segs)%list, "").
Proof.
  induction segs as [|s' segs IH]; intros acc s Hsegs (Hs & Hsd & Hdd).
  - cbn [serialize_segments]. rewrite path_state_kept_chars by assumption.
    rewrite append_nil_l. cbn [path_state]. unfold end_segment. now rewrite Hdd, Hsd.
  - cbn [serialize_segments]. rewrite path_state_kept_chars by assumption.
    rewrite append_nil_l, append_cons. cbn [path_state].
    change (is_slash false "/"%char) with true. cbv iota.
    unfold end_segment at 1. rewrite Hdd, Hsd.
    inversion Hsegs as [|? ? Hs' Hsegs']; subst.
    rewrite (IH _ _ Hsegs' Hs'). now rewrite <- app_assoc.
Qed.

Lemma serialize_kept_visible (segs : list string) :
  Forall kept_segment segs -> forallb_string visible (serialize_segments segs) = true.
Proof.
  induction 1 as [|x segs (Hx & _) _ IH]; [reflexivity|].
  cbn [serialize_segments]. rewrite !forallb_string_app, IH.
  rewrite (forallb_string_impl _ _ x (fun c H => proj1 (proj2 (proj2 (proj2 (kept_char_step c H))))) Hx).
  reflexivity.
Qed.

(** What the parser leaves in the record of a URL with a scheme that is
    not special and an authority. *)
Lemma authority_state_opaque (scheme s : string) (r : url_record) :
  is_special scheme = false -> authority_state scheme s = Some r ->
  (exists h, url_host r = Some h /\ forallb_string opaque_safe h = true) /\
  port_ok (url_scheme r) (url_port r) /\
  exists segs, url_path_of r = Segments segs /\ Forall kept_segment segs.
Proof.
  intros Hsp H. pose proof (authority_state_scheme _ _ _ H) as Hscheme.
  revert H. unfold authority_state. rewrite Hsp.
  destruct (break _ s) as [authority rest].
  destruct (match split_last (is_code 64) authority with Some _ => _ | None => _ end)
    as [[[user pass] hostport]|]; [|discriminate].
  cbn [mbind option_bind].
  destruct (host_state false hostport) as [hostbuf porttext].
  destruct (_ && _); [discriminate|].
  cbn [host_parse].
  destruct (host_parse_opaque hostbuf) as [host|] eqn:Hhost; [|discriminate].
  cbn [mbind option_bind].
  destruct (match porttext with Some _ => _ | None => _ end) as [port|] eqn:Hport; [|discriminate].
  cbn [mbind option_bind].
  assert (Hpath : forall segments rest',
    match rest with
    | EmptyString => ([], rest)
    | String c rest0 =>
        if is_slash false c then path_state false [] "" rest0
        else ([], rest)
    end = (segments, rest') -> Forall kept_segment segments).
  { intros segments rest'. destruct rest as [|c rest0].
    - intros [= <- _]. constructor.
    - destruct (is_slash false c).
      + intros H. apply (path_state_kept _ _ _ _ _ H); [constructor|reflexivity].
      + intros [= <- _]. constructor. }
  destruct (match rest with EmptyString => _ | String _ _ => _ end) as [segments rest'].
  destruct (query_fragment _ rest') as [query fragment].
  intros [= <-]. cbn. repeat split.
  - exists host. split; [reflexivity|]. exact (host_parse_opaque_safe _ _ Hhost).
  - destruct port as [p|]; [|exact I]. destruct porttext as [t|]; [|discriminate].
    exact (port_state_inv _ _ _ Hport).
  - exists segments. split; [reflexivity|]. exact (Hpath _ _ eq_refl).
Qed.

Lemma target_visible_opaque (scheme h port : string) (segs : list string) :
  forallb_string visible scheme = true -> forallb_string opaque_safe h = true ->
  forallb_string is_digit port = true -> Forall kept_segment segs ->
  forallb_string visible (target scheme h port (serialize_segments segs)) = true.
Proof.
  intros Hscheme Hh Hp Hsegs. unfold target.
  rewrite forallb_string_app, !forallb_string_cons, forallb_string_app,
    forallb_string_cons, forallb_string_app.
  rewrite (digits_visible _ Hp), (serialize_kept_visible _ Hsegs), Hscheme.
  assert (Hh' : forallb_string visible h = true).
  { revert Hh. apply forallb_string_impl. intros c Hc.
    now destruct (opaque_safe_facts c Hc) as (_ & _ & -> & _). }
  rewrite Hh'. reflexivity.
Qed.

(** The parser on a target with a scheme that is not special. *)
Lemma reparse_opaque (scheme h port : string) (segs : list string) :
  is_special scheme = false ->
  String.eqb scheme "file" = false ->
  forallb_string visible scheme = true ->
  (forall t, scheme_start_state (scheme ++ String ":" t) = Some (scheme, t)) ->
  forallb_string opaque_safe h = true -> h <> "" ->
  forallb_string is_digit port = true ->
  Forall kept_segment segs ->
  basic_url_parse (target scheme h port (serialize_segments segs)) =
    (p ← port_state scheme port;
     Some {| url_scheme := scheme; url_username := ""; url_password := "";
             url_host := Some h; url_port := p;
             url_path_of := Segments segs;
             url_query := None; url_fragment := None |}).
Proof.
  intros Hsp Hfile Hvisible Hss Hsafe Hne Hport Hsegs.
  unfold basic_url_parse.
  pose proof (target_visible_opaque scheme h port segs Hvisible Hsafe Hport Hsegs) as Hvis.
  rewrite (strip_leading_visible _ Hvis), (strip_trailing_visible _ Hvis),
    (filter_visible _ Hvis).
  unfold target. rewrite Hss. cbn [mbind option_bind]. rewrite Hfile, Hsp.
  cbv beta iota.
  unfold authority_state. rewrite Hsp.
  assert (Hassoc : h ++ String ":" (port ++ serialize_segments segs)
                   = (h ++ String ":" port) ++ serialize_segments segs).
  { rewrite append_assoc. now rewrite append_cons. }
  rewrite Hassoc.
  assert (Hauth : forallb_string (not_char (authority_end false)) (h ++ String ":" port) = true).
  { rewrite forallb_string_app, forallb_string_cons.
    assert (H1 : forallb_string (not_char (authority_end false)) h = true).
    { revert Hsafe. apply forallb_string_impl. intros x Hx. unfold not_char.
      now destruct (opaque_safe_facts x Hx) as (_ & _ & _ & _ & -> & _). }
    assert (H2 : forallb_string (not_char (authority_end false)) port = true).
    { revert Hport. apply forallb_string_impl. intros x.
      ascii_cases x; vm_compute; congruence. }
    now rewrite H1, H2. }
  rewrite (break_app _ _ _ Hauth).
  2:{ destruct Hsegs as [|s1 segs' _ _]; [now left|]. right.
      cbn [serialize_segments]. eexists _, _. split; [reflexivity|reflexivity]. }
  assert (Hat : forallb_string (not_char (is_code 64)) (h ++ String ":" port) = true).
  { rewrite forallb_string_app, forallb_string_cons.
    assert (H1 : forallb_string (not_char (is_code 64)) h = true).
    { revert Hsafe. apply forallb_string_impl. intros x Hx. unfold not_char.
      now destruct (opaque_safe_facts x Hx) as (_ & _ & _ & _ & _ & -> & _). }
    assert (H2 : forallb_string (not_char (is_code 64)) port = true).
    { revert Hport. apply forallb_string_impl. intros x.
      ascii_cases x; vm_compute; congruence. }
    now rewrite H1, H2. }
  rewrite (split_last_none _ _ Hat). cbn [mbind option_bind].
  rewrite host_state_app.
  2:{ revert Hsafe. apply forallb_string_impl. intros x Hx. unfold not_char.
      now destruct (opaque_safe_facts x Hx) as (_ & _ & _ & -> & _). }
  apply String.eqb_neq in Hne. rewrite Hne. cbn [andb].
  cbn [host_parse]. rewrite (opaque_safe_parse _ Hsafe). cbn [mbind option_bind].
  destruct (port_state scheme port) as [p|]; [|reflexivity].
  cbn [mbind option_bind].
  destruct Hsegs as [|s1 segs' Hs1 Hsegs'].
  - reflexivity.
  - cbn [serialize_segments]. rewrite append_cons.
    change (is_slash false "/"%char) with true. cbv iota.
    rewrite (path_state_kept_serialize _ _ _ Hsegs' Hs1). reflexivity.
Qed.

(** A record with a host comes from the authority state. *)
Lemma basic_url_parse_cases (input : string) (r : url_record) :
  basic_url_parse input = Some r ->
  (exists s0, authority_state (url_scheme r) s0 = Some r) \/
  (url_host r = None /\ url_port r = None).
Proof.
  unfold basic_url_parse.
  set (s := filter_string _ _).
  destruct (scheme_start_state s) as [[scheme rest]|]; [|discriminate].
  cbn [mbind option_bind].
  destruct (String.eqb scheme "file"); [discriminate|].
  assert (Hauth : forall s0, authority_state scheme s0 = Some r ->
    (exists s1, authority_state (url_scheme r) s1 = Some r) \/
    (url_host r = None /\ url_port r = None)).
  { intros s0 H. left. exists s0. now rewrite (authority_state_scheme _ _ _ H). }
  destruct (is_special scheme); [apply Hauth|].
  assert (Hpath : forall r0,
    (let '(segments, rest') := path_state false [] "" r0 in
     let '(query, fragment) := query_fragment false rest' in
     Some {| url_scheme := scheme; url_username := ""; url_password := "";
             url_host := None; url_port := None;
             url_path_of := Segments segments;
             url_query := query; url_fragment := fragment |}) = Some r ->
    (exists s1, authority_state (url_scheme r) s1 = Some r) \/
    (url_host r = None /\ url_port r = None)).
  { intros r0. destruct (path_state false [] "" r0) as [segments rest'].
    destruct (query_fragment false rest') as [query fragment]. intros [= <-]. now right. }
  assert (Hopaque :
    (let '(opaque, rest') := break is_query_or_fragment rest in
     let '(query, fragment) := query_fragment false rest' in
     Some {| url_scheme := scheme; url_username := ""; url_password := "";
             url_host := None; url_port := None;
             url_path_of := Opaque (percent_encode c0_control_set opaque);
             url_query := query; url_fragment := fragment |}) = Some r ->
    (exists s1, authority_state (url_scheme r) s1 = Some r) \/
    (url_host r = None /\ url_port r = None)).
  { destruct (break is_query_or_fragment rest) as [opaque rest'].
    destruct (query_fragment false rest') as [query fragment]. intros [= <-]. now right. }
  destruct rest as [|c r1]; [exact Hopaque|].
  destruct (Ascii.eqb c "/"%char) eqn:Ec.
  + apply Ascii.eqb_eq in Ec as ->.
    destruct r1 as [|c' r'].
    { exact (Hpath ""). }
    destruct (Ascii.eqb c' "/"%char) eqn:Ec'.
    * apply Ascii.eqb_eq in Ec' as ->. apply Hauth.
    * revert Ec'. ascii_cases c'; intros Ec'.
      all: try (vm_compute in Ec'; discriminate Ec').
      all: match goal with
           | |- context [path_state false [] "" ?x] => exact (Hpath x)
           end.
  + revert Ec. ascii_cases c; intros Ec;
      first [exact Hopaque | vm_compute in Ec; discriminate Ec].
Qed.

Lemma basic_url_parse_port (input : string) (r : url_record) :
  basic_url_parse input = Some r -> port_ok (url_scheme r) (url_port r).
Proof.
  intros Hr. destruct (basic_url_parse_cases _ _ Hr) as [(s0 & Hauth)|(_ & ->)]; [|exact I].
  destruct (is_special (url_scheme r)) eqn:Hsp.
  - now destruct (authority_state_canonical _ _ _ Hsp Hauth) as (_ & Hport & _).
  - now destruct (authority_state_opaque _ _ _ Hsp Hauth) as (_ & Hport & _).
Qed.

(** Strings and serialized paths that end in the same character. *)
Lemma append_snoc_inj (a b : string) (c : ascii) :
  a ++ String c "" = b ++ String c "" -> a = b.
Proof.
  revert b. induction a as [|x a IH]; intros [|y b]; rewrite ?append_cons, ?append_nil_l.
  - reflexivity.
  - intros [= _ H]. destruct b; discriminate H.
  - intros [= _ H]. destruct a; discriminate H.
  - intros [= -> H]. f_equal. now apply IH.
Qed.

Lemma serialize_unstrip (segs : list string) (path : string) :
  Forall (fun s => forallb_string (not_char (is_code 47)) s = true) segs ->
  serialize_segments segs = path ++ "/" ->
  exists segs', segs = (segs' ++ [""])%list /\ path = serialize_segments segs'.
Proof.
  intros Hsegs H. destruct segs as [|s segs0 _] using rev_ind.
  - cbn [serialize_segments] in H. destruct path; discriminate H.
  - apply Forall_app in Hsegs as [_ Hs]. apply List.Forall_inv in Hs.
    rewrite serialize_snoc in H. destruct s as [|c s'].
    + exists segs0. split; [reflexivity|].
      change ("/" ++ "") with "/" in H. symmetry. exact (append_snoc_inj _ _ _ H).
    + exfalso.
      assert (H1 : JsString.endsWith (serialize_segments segs0 ++ "/" ++ String c s') "/"
                   = false).
      { rewrite endsWith_app by discriminate. rewrite endsWith_app by discriminate.
        now apply endsWith_no_slash. }
      rewrite H, endsWith_app in H1 by discriminate. discriminate H1.
Qed.

(** The paths that [rb_reparse] speaks of are serialized segments. *)
Lemma path_segments (P : string -> Prop) (segs : list string) (path : string) :
  (forall s, P s -> forallb_string (not_char (is_code 47)) s = true) ->
  Forall P segs ->
  serialize_segments segs = path \/ serialize_segments segs = path ++ "/" ->
  exists segs', path = serialize_segments segs' /\ Forall P segs'.
Proof.
  intros HP Hsegs [<-|H]; [now exists segs|].
  destruct (serialize_unstrip segs path) as (segs' & -> & ->); [|exact H|].
  - revert Hsegs. apply List.Forall_impl. exact HP.
  - exists segs'. split; [reflexivity|]. now apply Forall_app in Hsegs as [Hsegs _].
Qed.

Lemma serialize_empty (segs : list string) :
  String.eqb (serialize_segments segs) "" = match segs with [] => true | _ => false end.
Proof.
  destruct segs as [|s segs]; [reflexivity|].
  cbn [serialize_segments]. now rewrite append_cons.
Qed.

Lemma URL_new_reads_back : reads_back URL_new.
Proof.
  constructor.
  - intros input u. unfold URL_new.
    destruct (basic_url_parse input) as [r|] eqn:Hr; [|discriminate].
    cbn [fmap option_fmap option_map]. intros [= <-].
    exists (url_scheme r). split; [reflexivity|].
    destruct (basic_url_parse_scheme _ _ Hr) as (rest & Hstart & _).
    destruct (scheme_start_first _ _ _ Hstart) as (c & sch' & -> & Hc).
    split; [discriminate|]. unfold JsString.startsWith. cbn [String.prefix].
    destruct (ascii_dec ":" c) as [<-|]; [discriminate Hc|reflexivity].
  - intros input u scheme. unfold URL_new.
    destruct (basic_url_parse input) as [r|] eqn:Hr; [|discriminate].
    cbn [fmap option_fmap option_map]. intros [= <-]. cbn [protocol port getters].
    intros <-%append_snoc_inj.
    pose proof (basic_url_parse_port _ _ Hr) as Hport.
    destruct (url_port r) as [p|]; [right|now left].
    exists p. destruct Hport as [Hle Hd]. now repeat split.
  - intros input u scheme n path. unfold URL_new at 1.
    destruct (basic_url_parse input) as [r|] eqn:Hr; [|discriminate].
    cbn [fmap option_fmap option_map]. intros [= <-].
    cbn [protocol hostname pathname getters].
    intros <-%append_snoc_inj Hhost _ Hle Hpath.
    destruct (url_host r) as [h|] eqn:Hh; [|now contradiction Hhost].
    cbn [default id] in *.
    destruct (basic_url_parse_cases _ _ Hr) as [(s0 & Hauth)|(Hnone & _)]; [|congruence].
    destruct (basic_url_parse_scheme _ _ Hr) as (rest & Hstart & Hnf & _).
    destruct (scheme_start_reparse _ _ _ Hstart) as (Hvis & Hre).
    assert (Hps : port_state (url_scheme r) (N_to_string n) =
                  Some (if bool_decide (default_port (url_scheme r) = Some n)
                        then None else Some n)).
    { pose proof (port_state_digits (url_scheme r) _ (N_to_string_digits n)) as Hd.
      cbv zeta in Hd. rewrite N_to_string_value in Hd. destruct Hd as (H1 & H2 & _).
      destruct (bool_decide_reflect (default_port (url_scheme r) = Some n)) as [Hd|Hd].
      - exact (H1 (or_intror Hd) Hle).
      - exact (H2 (N_to_string_nonempty n) Hle Hd). }
    unfold URL_new.
    destruct (is_special (url_scheme r)) eqn:Hsp.
    + pose proof (special_schemes _ Hsp Hnf) as Hscheme.
      destruct (authority_state_canonical _ _ _ Hsp Hauth)
        as ((h0 & Hh0 & Hcanon) & _ & (segs & Hsegs & Hgood)).
      rewrite Hh in Hh0. injection Hh0 as <-.
      rewrite Hsegs in Hpath. cbn [serialize_path] in Hpath.
      destruct (path_segments good_segment segs path) as (segs' & -> & Hgood');
        [|assumption|assumption|].
      { intros s (Hs & _). revert Hs. apply forallb_string_impl, good_char_no_slash. }
      rewrite (reparse _ _ _ _ Hscheme Hcanon (N_to_string_digits n) Hgood'), Hps.
      cbn [mbind option_bind fmap option_fmap option_map].
      eexists. split; [reflexivity|].
      cbn [protocol hostname port pathname getters url_scheme url_host url_port
           url_path_of default serialize_path].
      split; [reflexivity|]. split; [reflexivity|]. split.
      * now destruct (bool_decide _).
      * rewrite serialize_empty, andb_true_r. now destruct segs'.
    + destruct (authority_state_opaque _ _ _ Hsp Hauth)
        as ((h0 & Hh0 & Hsafe) & _ & (segs & Hsegs & Hkept)).
      rewrite Hh in Hh0. injection Hh0 as <-.
      rewrite Hsegs in Hpath. cbn [serialize_path] in Hpath.
      destruct (path_segments kept_segment segs path) as (segs' & -> & Hkept');
        [|assumption|assumption|].
      { intros s (Hs & _). revert Hs. apply forallb_string_impl.
        intros c Hc. now destruct (kept_char_step c Hc) as (_ & _ & _ & _ & ->). }
      rewrite (reparse_opaque _ _ _ _ Hsp Hnf Hvis Hre Hsafe Hhost
                 (N_to_string_digits n) Hkept'), Hps.
      cbn [mbind option_bind fmap option_fmap option_map].
      eexists. split; [reflexivity|].
      cbn [protocol hostname port pathname getters url_scheme url_host url_port
           url_path_of default serialize_path].
      split; [reflexivity|]. split; [reflexivity|]. split.
      * now destruct (bool_decide _).
      * now rewrite andb_false_r.
Qed.

(** A target without host name. *)

Lemma visible_facts (c : ascii) :
  visible c = true -> is_c0_or_space c = false /\ is_tab_or_newline c = false.
Proof. ascii_cases c; vm_compute; intuition congruence. Qed.

Lemma strip_trailing_prefix (a b : string) :
  forallb_string visible a = true -> strip_trailing (a ++ b) = a ++ strip_trailing b.
Proof.
  induction a as [|c a IH]; [now rewrite !append_nil_l|].
  cbn [forallb_string]. intros [Hc Ha]%andb_prop.
  rewrite !append_cons. cbn [strip_trailing].
  destruct (visible_facts c Hc) as [-> _]. cbn [andb]. now rewrite (IH Ha).
Qed.

Lemma filter_prefix (a b : string) :
  forallb_string visible a = true ->
  filter_string (fun c => negb (is_tab_or_newline c)) (a ++ b) =
    a ++ filter_string (fun c => negb (is_tab_or_newline c)) b.
Proof.
  induction a as [|c a IH]; [now rewrite !append_nil_l|].
  cbn [forallb_string]. intros [Hc Ha]%andb_prop.
  rewrite !append_cons. cbn [filter_string].
  destruct (visible_facts c Hc) as [_ ->]. cbn [negb]. now rewrite (IH Ha).
Qed.

Lemma strip_leading_prefix (c : ascii) (a : string) :
  visible c = true -> strip_leading (String c a) = String c a.
Proof. intros Hc. cbn [strip_leading]. now destruct (visible_facts c Hc) as [-> _]. Qed.

Lemma append_inv_head (a b c : string) : a ++ b = a ++ c -> b = c.
Proof.
  induction a as [|x a IH]; [now rewrite !append_nil_l|].
  rewrite !append_cons. intros [= H]. now apply IH.
Qed.

Lemma encode_char_first (set : ascii -> bool) (c : ascii) (s : string) :
  exists c' s', encode_char set c ++ s = String c' s'.
Proof.
  unfold encode_char. destruct (set c); [unfold percent_encode_byte|];
    rewrite append_cons; eauto.
Qed.

(** After [//:] the authority state finds no host, unless credentials stand
    before one. *)
Lemma authority_state_colon (scheme t : string) (r : url_record) :
  is_special scheme = false ->
  authority_state scheme (String ":" t) = Some r ->
  exists c h, url_host r = Some (String c h) /\ opaque_safe c = true.
Proof.
  intros Hsp. unfold authority_state. rewrite Hsp. cbn [break].
  change (authority_end false ":"%char) with false. cbv iota.
  destruct (break (authority_end false) t) as [a rest].
  destruct (split_last (is_code 64) (String ":" a)) as [[userinfo hostport]|].
  - destruct (String.eqb_spec hostport "") as [|Hne]; [discriminate|].
    destruct (break (is_code 58) userinfo) as [user pass].
    cbn [mbind option_bind].
    destruct hostport as [|c0 hp]; [contradiction|].
    cbn [host_state].
    destruct (is_code 58 c0 && negb false) eqn:Hc0.
    + cbn. discriminate.
    + destruct (host_state _ hp) as [hb porttext].
      change (String.eqb (String c0 hb) "") with false. cbn [andb host_parse].
      destruct (host_parse_opaque (String c0 hb)) as [host|] eqn:Hhost; [|discriminate].
      cbn [mbind option_bind].
      destruct (match porttext with Some _ => _ | None => _ end) as [port|]; [|discriminate].
      cbn [mbind option_bind].
      destruct (match rest with EmptyString => _ | String _ _ => _ end) as [segments rest'].
      destruct (query_fragment _ rest') as [query fragment].
      intros [= <-]. cbn [url_host].
      pose proof (host_parse_opaque_safe _ _ Hhost) as Hsafe.
      revert Hhost Hsafe. unfold host_parse_opaque.
      destruct (starts_with_bracket _); [discriminate|].
      destruct (existsb_string _ _); [discriminate|].
      intros [= <-]. cbn [percent_encode].
      destruct (encode_char_first c0_control_set c0 (percent_encode c0_control_set hb))
        as (c' & s' & ->).
      cbn [forallb_string]. intros [Hc' _]%andb_prop. now exists c', s'.
  - cbn [mbind option_bind host_state].
    change (is_code 58 ":"%char && negb false) with true. cbv iota. cbn. discriminate.
Qed.

Lemma hostless_target (scheme port path : string) (r : url_record) :
  is_special scheme = false ->
  String.eqb scheme "file" = false ->
  forallb_string visible scheme = true ->
  scheme <> "" ->
  (forall t, scheme_start_state (scheme ++ String ":" t) = Some (scheme, t)) ->
  basic_url_parse (target scheme "" port path) = Some r ->
  url_scheme r = scheme /\
  exists c h, url_host r = Some (String c h) /\ opaque_safe c = true.
Proof.
  intros Hsp Hfile Hvis Hne Hss. unfold basic_url_parse, target.
  rewrite append_nil_l.
  assert (Hshape : scheme ++ String ":" (String "/" (String "/" (String ":" (port ++ path))))
                   = (scheme ++ "://:") ++ port ++ path).
  { now rewrite append_assoc, !append_cons, append_nil_l. }
  rewrite Hshape.
  assert (Hp : forallb_string visible (scheme ++ "://:") = true).
  { now rewrite forallb_string_app, Hvis. }
  destruct (scheme ++ "://:") as [|c0 pre] eqn:Epre.
  { destruct scheme; discriminate. }
  rewrite append_cons, strip_leading_prefix
    by (cbn [forallb_string] in Hp; now apply andb_prop in Hp as [? _]).
  rewrite <- append_cons, strip_trailing_prefix, filter_prefix by assumption.
  rewrite <- Epre. set (tail := filter_string _ _).
  assert (Hback : (scheme ++ "://:") ++ tail
                  = scheme ++ String ":" (String "/" (String "/" (String ":" tail)))).
  { now rewrite append_assoc, !append_cons, append_nil_l. }
  rewrite Hback, Hss. cbn [mbind option_bind]. rewrite Hfile, Hsp. cbv beta iota.
  intros H. split; [exact (authority_state_scheme _ _ _ H)|].
  exact (authority_state_colon _ _ _ Hsp H).
Qed.

(** With the URL parser model, a target made from a URL without host name
    does not resolve to itself. *)
Lemma hostless_not_fixed (local x y : string) (u : URL) :
  x <> "" ->
  URL_new (url_input x) = Some u ->
  hostname u = "" ->
  formatHost URL_new local x = Some y ->
  formatHost URL_new local y <> Some y.
Proof.
  intros Hx Hu Hhost Hy.
  rewrite (formatHost_stages URL_new local x Hx), Hu in Hy.
  cbn [mbind option_bind] in Hy. injection Hy as Hy.
  destruct (rb_protocol _ URL_new_reads_back _ _ Hu) as (scheme & Hprot & Hne & Hfirst).
  destruct (effective_port_number URL_new URL_new_reads_back (isExplicitProtocol x)
              _ scheme u Hu Hprot) as (n & Hport & _ & _).
  unfold assemble in Hy. rewrite Hprot, Hport, Hhost, target_eq in Hy.
  destruct (strip_path scheme "" (N_to_string n) (pathname u)
              (N_to_string_nonempty n) (N_to_string_digits n))
    as (path & _ & Hstrip).
  rewrite Hstrip in Hy. clear Hstrip. subst y.
  rewrite (formatHost_stages URL_new local _ (target_nonempty _ _ _ _)).
  destruct (target_explicit scheme "" (N_to_string n) path Hne Hfirst) as (-> & ->).
  destruct (URL_new (target scheme "" (N_to_string n) path)) as [u'|] eqn:Hu';
    [|discriminate].
  cbn [mbind option_bind]. intros [= Hfix].
  (* the scheme of [u] is not special *)
  revert Hu Hu'. unfold URL_new.
  destruct (basic_url_parse (url_input x)) as [r|] eqn:Hr; [|discriminate].
  cbn [fmap option_fmap option_map]. intros [= <-].
  cbn [protocol hostname getters] in Hprot, Hhost.
  apply append_snoc_inj in Hprot. subst scheme.
  destruct (basic_url_parse_scheme _ _ Hr) as (rest & Hstart & Hnf & Hspecial).
  destruct (scheme_start_reparse _ _ _ Hstart) as (Hvis & Hre).
  destruct (is_special (url_scheme r)) eqn:Hsp.
  { destruct (authority_state_canonical _ _ _ Hsp (Hspecial eq_refl))
      as ((h & Hh & _ & _ & Hhne) & _).
    rewrite Hh in Hhost. cbn [default id] in Hhost. contradiction. }
  destruct (basic_url_parse (target (url_scheme r) "" (N_to_string n) path))
    as [r'|] eqn:Hr'; [|discriminate].
  cbn [fmap option_fmap option_map]. intros [= <-].
  destruct (hostless_target _ _ _ _ Hsp Hnf Hvis Hne Hre Hr')
    as (Hscheme' & c & h & Hh' & Hc).
  (* the target of [u'] has a host name *)
  assert (Hu'' : URL_new (target (url_scheme r) "" (N_to_string n) path) = Some (getters r')).
  { unfold URL_new. now rewrite Hr'. }
  destruct (effective_port_number URL_new URL_new_reads_back true _ (url_scheme r)
              (getters r') Hu'') as (n' & Hport' & _ & _).
  { cbn [protocol getters]. now rewrite Hscheme'. }
  unfold assemble in Hfix. rewrite Hport' in Hfix.
  cbn [protocol hostname getters] in Hfix. rewrite Hscheme', Hh', target_eq in Hfix.
  cbn [default id] in Hfix.
  destruct (strip_path (url_scheme r) (String c h) (N_to_string n') (pathname (getters r'))
              (N_to_string_nonempty n') (N_to_string_digits n'))
    as (path' & _ & Hstrip').
  rewrite Hstrip' in Hfix. unfold target in Hfix.
  apply append_inv_head in Hfix. rewrite append_nil_l, append_cons in Hfix.
  injection Hfix as Hc' _. subst c. discriminate Hc.
Qed.

End ReadBackModel.

(** C8 (amended).  Resolving a target again takes one more trailing slash
    off and changes nothing else.  Let [x] be a host that is not empty and
    whose URL has a host name and a scheme other than [file], and let [y] be
    what [x] resolves to.  Then [y] resolves to [y] without the slash it
    ends in, if it ends in one; so [y] resolves to itself exactly when it
    does not end in a slash.  This holds for every URL constructor that
    reads its own output back, and the URL parser model is one.  With the
    URL parser model, what [x] resolves to does not resolve to itself when
    the URL of [x] has no host name. *)
Theorem formatHost_idempotent :
  reads_back Whatwg.URL_new /\
  (forall new_URL : string -> option URL,
      reads_back new_URL ->
      forall (local x y : string) (u : URL),
        x <> "" ->
        new_URL (url_input x) = Some u ->
        hostname u <> "" ->
        protocol u <> "file:" ->
        formatHost new_URL local x = Some y ->
        formatHost new_URL local y = Some (strip_slash y) /\
        (formatHost new_URL local y = Some y <-> JsString.endsWith y "/" = false)) /\
  (forall (local x y : string) (u : URL),
      x <> "" ->
      Whatwg.URL_new (url_input x) = Some u ->
      hostname u = "" ->
      formatHost Whatwg.URL_new local x = Some y ->
      formatHost Whatwg.URL_new local y <> Some y).
Proof.
  split; [exact URL_new_reads_back|]. split; [|exact hostless_not_fixed].
  intros new_URL Hreads local x y u Hx Hu Hhost Hfile Hy.
  pose proof (resolve_target_again new_URL Hreads local x y u Hx Hu Hhost Hfile Hy) as Hagain.
  split; [exact Hagain|]. rewrite Hagain, <- strip_slash_fixed.
  split; [now intros [= ->]|now intros ->].
Qed.

Lemma formatHost_idempotent_witness :
  (formatHost Whatwg.URL_new "http://127.0.0.1:11434" "https://Example.COM/api/"
     = Some "https://example.com:443/api" /\
   formatHost Whatwg.URL_new "http://127.0.0.1:11434" "https://example.com:443/api"
     = Some "https://example.com:443/api") /\
  (formatHost Whatwg.URL_new "http://127.0.0.1:11434" "redis://Cache:6379/"
     = Some "redis://Cache:6379" /\
   formatHost Whatwg.URL_new "http://127.0.0.1:11434" "redis://Cache:6379"
     = Some "redis://Cache:6379") /\
  (formatHost Whatwg.URL_new "http://127.0.0.1:11434" "foo://host/p"
     = Some "foo://host:80/p" /\
   formatHost Whatwg.URL_new "http://127.0.0.1:11434" "foo://host:80/p"
     = Some "foo://host:80/p") /\
  (formatHost Whatwg.URL_new "http://127.0.0.1:11434" "foo:x@y://z"
     = Some "foo://:80x@y://z" /\
   formatHost Whatwg.URL_new "http://127.0.0.1:11434" "foo://:80x@y://z"
     <> Some "foo://:80x@y://z").
Proof.
  destruct formatHost_idempotent as (Hmodel & Hany & Hnone).
  split; [|split; [|split]]; (split; [vm_compute; reflexivity|]).
  - apply (Hany Whatwg.URL_new Hmodel "http://127.0.0.1:11434" "https://Example.COM/api/"
             "https://example.com:443/api"
             {| protocol := "https:"; username := ""; password := "";
                hostname := "example.com"; port := ""; pathname := "/api/";
                search := ""; hash := "" |});
      [discriminate | vm_compute; reflexivity | discriminate | discriminate
      | vm_compute; reflexivity | reflexivity].
  - apply (Hany Whatwg.URL_new Hmodel "http://127.0.0.1:11434" "redis://Cache:6379/"
             "redis://Cache:6379"
             {| protocol := "redis:"; username := ""; password := "";
                hostname := "Cache"; port := "6379"; pathname := "/";
                search := ""; hash := "" |});
      [discriminate | vm_compute; reflexivity | discriminate | discriminate
      | vm_compute; reflexivity | reflexivity].
  - apply (Hany Whatwg.URL_new Hmodel "http://127.0.0.1:11434" "foo://host/p"
             "foo://host:80/p"
             {| protocol := "foo:"; username := ""; password := "";
                hostname := "host"; port := ""; pathname := "/p";
                search := ""; hash := "" |});
      [discriminate | vm_compute; reflexivity | discriminate | discriminate
      | vm_compute; reflexivity | reflexivity].
  - apply (Hnone "http://127.0.0.1:11434" "foo:x@y://z" "foo://:80x@y://z"
             {| protocol := "foo:"; username := ""; password := "";
                hostname := ""; port := ""; pathname := "x@y://z";
                search := ""; hash := "" |});
      [discriminate | vm_compute; reflexivity | reflexivity | vm_compute; reflexivity].
Defined.
